(** * exhale: the hierarchy graph of [exhale/graph.py]

    A shallow embedding of [ExhaleNode] and of the parsing half of
    [ExhaleRoot] (discovery, reparenting, file reference discovery, file
    post-processing and sorting), together with the properties of the
    reconstruction engine that the specification states about them.

    Python objects are modelled by an arena: the heap of an [ExhaleRoot] maps
    a reference (a number) to the [ExhaleNode] record behind it, and creating
    an object takes the next free reference.  Every Python list of nodes is a
    list of references, so that a mutation made through one list is seen
    through all the others, and the identity based [in] / [==] of Python (the
    class defines [__lt__] only) is equality of references.

    Strings are Rocq strings (sequences of 8-bit characters); [str.lower] is
    modelled on the ASCII letters and [<] on strings is the lexicographic
    order of the character codes. *)

From Stdlib Require Import String Ascii List Bool Arith Lia Permutation.
From stdpp Require Import base option list strings.
Import ListNotations.

Local Open Scope string_scope.
Local Open Scope list_scope.

(** ** Strings *)

Module Str.

(** [c.lower()] on one character. *)
Definition lower_ascii (c : ascii) : ascii :=
  let n := nat_of_ascii c in
  if ((65 <=? n)%nat && (n <=? 90)%nat)%bool then ascii_of_nat (n + 32) else c.

(** [s.lower()] *)
Fixpoint lower (s : string) : string :=
  match s with
  | EmptyString => EmptyString
  | String c s' => String (lower_ascii c) (lower s')
  end.

(** [a < b] on strings. *)
Definition ltb (a b : string) : bool := String.ltb a b.

(** [sub in s] on strings. *)
Fixpoint contains (sub s : string) : bool :=
  String.prefix sub s ||
  match s with
  | EmptyString => false
  | String _ s' => contains sub s'
  end.

(** [s.startswith(p)] *)
Definition startswith (p s : string) : bool := String.prefix p s.

Definition rev_string (cs : list ascii) : string :=
  string_of_list_ascii (List.rev cs).

(** [s.split(sep)] for a non-empty separator: [cur] holds the characters
    of the current segment, last first, and [skip] counts the characters of
    a separator occurrence that remain to be dropped. *)
Fixpoint split_from (sep : string) (cur : list ascii) (skip : nat)
    (s : string) : list string :=
  match s with
  | EmptyString => [rev_string cur]
  | String c s' =>
      match skip with
      | S k => split_from sep cur k s'
      | O =>
          if String.prefix sep s
          then rev_string cur :: split_from sep [] (String.length sep - 1) s'
          else split_from sep (c :: cur) 0 s'
      end
  end.

Definition split (sep s : string) : list string := split_from sep [] 0 s.

(** [sep.join(parts)] *)
Definition join (sep : string) (parts : list string) : string :=
  String.concat sep parts.

(** [s.replace(old, new)]; [skip] as in [split_from].  With an empty [old]
    Python inserts [new] around every character. *)
Fixpoint replace_from (old new : string) (skip : nat) (s : string) : string :=
  match s with
  | EmptyString => EmptyString
  | String c s' =>
      match skip with
      | S k => replace_from old new k s'
      | O =>
          if String.prefix old s
          then new +:+ replace_from old new (String.length old - 1) s'
          else String c (replace_from old new 0 s')
      end
  end.

Fixpoint intersperse_all (new s : string) : string :=
  match s with
  | EmptyString => new
  | String c s' => new +:+ String c (intersperse_all new s')
  end.

Definition replace (old new s : string) : string :=
  match old with
  | EmptyString => intersperse_all new s
  | _ => replace_from old new 0 s
  end.

End Str.

(** [l[:-k]] on lists. *)
Definition drop_last {A} (k : nat) (l : list A) : list A :=
  firstn (length l - k) l.

(** [l[-k]] for [1 <= k <= len(l)]. *)
Definition nth_from_end {A} (k : nat) (l : list A) : option A :=
  l !! (length l - k).

(** ** Sorting

    [list.sort] and [sorted] are stable; they are modelled by the stable
    insertion sort that places every element after the elements of the sorted
    prefix that it is not smaller than, which is what Python computes for any
    [<] that is a strict weak order.  [<] is such an order on nodes of one
    kind, as the directories that [reparentDirectories] sorts, and on
    structs and classes; of the sorted lists of [sortInternals] the
    properties below use only that they hold the same nodes. *)

Section Sorting.
Context {A : Type} (lt : A -> A -> bool).

(** Insert [x] into the sorted list [l], given last element first. *)
Fixpoint insert_back (x : A) (rl : list A) : list A :=
  match rl with
  | [] => [x]
  | y :: rl' => if lt x y then y :: insert_back x rl' else x :: rl
  end.

Definition py_sort (l : list A) : list A :=
  List.rev (fold_left (fun acc x => insert_back x acc) l []).
End Sorting.

(** ** Dictionaries

    A Python [dict]: keys in insertion order, assignment to a present key
    replaces the value in place. *)

Section Dict.
Context {K V : Type} `{EqDecision K}.

Fixpoint dict_get (k : K) (d : list (K * V)) : option V :=
  match d with
  | [] => None
  | (k', v) :: d' => if decide (k = k') then Some v else dict_get k d'
  end.

Fixpoint dict_set (k : K) (v : V) (d : list (K * V)) : list (K * V) :=
  match d with
  | [] => [(k, v)]
  | (k', v') :: d' =>
      if decide (k = k') then (k, v) :: d' else (k', v') :: dict_set k v d'
  end.

Definition dict_mem (k : K) (d : list (K * V)) : bool :=
  match dict_get k d with Some _ => true | None => false end.

Definition dict_keys (d : list (K * V)) : list K := map fst d.
End Dict.

(** ** The result of a call that may raise *)

Inductive Exception :=
  | RuntimeError
  | AttributeError
  | TypeError.

Inductive result (A : Type) :=
  | Ok (a : A)
  | Raise (e : Exception).
Arguments Ok {A} a.
Arguments Raise {A} e.

#[export] Instance result_bind : MBind result := fun A B k m =>
  match m with
  | Ok a => k a
  | Raise e => Raise e
  end.

Definition is_ok {A} (m : result A) : bool :=
  match m with Ok _ => true | Raise _ => false end.

Definition get_or {A} (d : A) (m : result A) : A :=
  match m with Ok a => a | Raise _ => d end.

(** A [for] loop whose body may raise. *)
Fixpoint for_each {A S} (body : S -> A -> result S) (l : list A) (s : S)
    : result S :=
  match l with
  | [] => Ok s
  | x :: l' => s' ← body s x; for_each body l' s'
  end.

(** ** The input: Doxygen's XML, already deserialised *)

(** A [<member>] or [<compound>] tag of [index.xml]; a field is [None] when
    the tag lacks the [<name>] child or the attribute. *)
Record Member := mkMember {
  m_name : option string;
  m_kind : option string;
  m_refid : option string }.

Record Compound := mkCompound {
  c_name : option string;
  c_kind : option string;
  c_refid : option string;
  c_members : list Member }.

(** A [<memberdef>]: its [id] attribute and the [file] attribute of its
    [<location>], when present. *)
Record MemberDef := mkMemberDef {
  md_id : option string;
  md_location_file : option string }.

(** A [<ref>] inside a [<programlisting>]. *)
Record Ref := mkRef {
  r_refid : option string;
  r_kindref : option string }.

(** The [<compounddef>] of a detail record, as [discoverAllNodes] reads it:
    the [refid] of the direct [<innerclass>] and [<innernamespace>] children,
    the direct [<memberdef>] children, the direct [<sectiondef>] children
    with their [<memberdef>]s, the [file] of the first [<location>], and the
    [<ref>]s of the first [<programlisting>]. *)
Record CompoundDef := mkCompoundDef {
  cd_innerclass : list (option string);
  cd_innernamespace : list (option string);
  cd_memberdef : list MemberDef;
  cd_sectiondef : list (list MemberDef);
  cd_location_file : option string;
  cd_programlisting : option (list Ref) }.

(** What [utils.nodeCompoundXMLContents] and [BeautifulSoup] make of the
    detail record of a node: nothing to read, text that does not parse, or a
    document, whose [doxygen.compounddef] may be missing. *)
Inductive XmlContents :=
  | NoContents
  | Unparsable
  | Parsed (cdef : option CompoundDef).

(** A line of a file's detail record, as [fileRefDiscovery] reads it: the
    text, and the groups matched on it by [loc_regex], [inc_by_regex],
    [inc_regex] and [ref_regex]. *)
Record XmlLine := mkXmlLine {
  line_text : string;
  loc_match : option string;
  inc_by_match : option (string * string);
  inc_match : option string;
  ref_match : option string }.

(** [configs] and the file system.  [index] is [None] when [index.xml] cannot
    be read or parsed or has no [doxygenindex] root; the detail records are
    keyed by refid; [file_lines] is [None] when the file cannot be opened. *)
Record Input := mkInput {
  index : option (list Compound);
  node_xml : string -> XmlContents;
  output_dir_valid : bool;
  file_lines : string -> option (list XmlLine);
  doxygenStripFromPath : option string }.

(** ** Nodes *)

(** [ExhaleNode].  The attributes of file nodes ([namespaces_used] to
    [program_listing]) are kept for every node; the code reads them on the
    members of [self.files] only.  [soup] and [def_in_file_location] are the
    attributes that [discoverAllNodes] adds to some file nodes: [None] is a
    missing attribute.  The attributes that only the document generation
    uses are left out. *)
Record ExhaleNode := mkNode {
  name : string;
  kind : string;
  refid : string;
  def_in_file : option nat;
  children : list nat;
  parent : option nat;
  namespaces_used : list nat;
  includes : list string;
  included_by : list (string * string);
  location : string;
  program_listing : list string;
  soup : option (option CompoundDef);
  def_in_file_location : option (option string) }.

(** [ExhaleNode.__init__] *)
Definition init_node (nm kd rid : string) : ExhaleNode :=
  mkNode nm kd rid None [] None [] [] [] EmptyString [] None None.

Definition set_name (v : string) (n : ExhaleNode) : ExhaleNode :=
  mkNode v (kind n) (refid n) (def_in_file n) (children n) (parent n)
    (namespaces_used n) (includes n) (included_by n) (location n)
    (program_listing n) (soup n) (def_in_file_location n).

Definition set_def_in_file (v : option nat) (n : ExhaleNode) : ExhaleNode :=
  mkNode (name n) (kind n) (refid n) v (children n) (parent n)
    (namespaces_used n) (includes n) (included_by n) (location n)
    (program_listing n) (soup n) (def_in_file_location n).

Definition set_children (v : list nat) (n : ExhaleNode) : ExhaleNode :=
  mkNode (name n) (kind n) (refid n) (def_in_file n) v (parent n)
    (namespaces_used n) (includes n) (included_by n) (location n)
    (program_listing n) (soup n) (def_in_file_location n).

Definition set_parent (v : option nat) (n : ExhaleNode) : ExhaleNode :=
  mkNode (name n) (kind n) (refid n) (def_in_file n) (children n) v
    (namespaces_used n) (includes n) (included_by n) (location n)
    (program_listing n) (soup n) (def_in_file_location n).

Definition set_namespaces_used (v : list nat) (n : ExhaleNode) : ExhaleNode :=
  mkNode (name n) (kind n) (refid n) (def_in_file n) (children n) (parent n)
    v (includes n) (included_by n) (location n)
    (program_listing n) (soup n) (def_in_file_location n).

Definition set_includes (v : list string) (n : ExhaleNode) : ExhaleNode :=
  mkNode (name n) (kind n) (refid n) (def_in_file n) (children n) (parent n)
    (namespaces_used n) v (included_by n) (location n)
    (program_listing n) (soup n) (def_in_file_location n).

Definition set_included_by (v : list (string * string)) (n : ExhaleNode)
    : ExhaleNode :=
  mkNode (name n) (kind n) (refid n) (def_in_file n) (children n) (parent n)
    (namespaces_used n) (includes n) v (location n)
    (program_listing n) (soup n) (def_in_file_location n).

Definition set_location (v : string) (n : ExhaleNode) : ExhaleNode :=
  mkNode (name n) (kind n) (refid n) (def_in_file n) (children n) (parent n)
    (namespaces_used n) (includes n) (included_by n) v
    (program_listing n) (soup n) (def_in_file_location n).

Definition set_program_listing (v : list string) (n : ExhaleNode)
    : ExhaleNode :=
  mkNode (name n) (kind n) (refid n) (def_in_file n) (children n) (parent n)
    (namespaces_used n) (includes n) (included_by n) (location n)
    v (soup n) (def_in_file_location n).

Definition set_soup (v : option (option CompoundDef)) (n : ExhaleNode)
    : ExhaleNode :=
  mkNode (name n) (kind n) (refid n) (def_in_file n) (children n) (parent n)
    (namespaces_used n) (includes n) (included_by n) (location n)
    (program_listing n) v (def_in_file_location n).

Definition set_def_in_file_location (v : option (option string))
    (n : ExhaleNode) : ExhaleNode :=
  mkNode (name n) (kind n) (refid n) (def_in_file n) (children n) (parent n)
    (namespaces_used n) (includes n) (included_by n) (location n)
    (program_listing n) (soup n) v.

Definition is_class_like (k : string) : bool :=
  (k =? "struct") || (k =? "class").

(** [ExhaleNode.__lt__] *)
Definition node_lt (self other : ExhaleNode) : bool :=
  if kind self =? kind other then
    Str.ltb (Str.lower (name self)) (Str.lower (name other))
  else if (kind self =? "struct") || (kind self =? "class") then
    if negb (kind other =? "struct") && negb (kind other =? "class") then true
    else
      if (kind self =? "struct") && (kind other =? "class") then true
      else if (kind self =? "class") && (kind other =? "struct") then false
      else Str.ltb (Str.lower (name self)) (Str.lower (name other))
  else Str.ltb (kind self) (kind other).

(** ** Diagnostics

    One constructor for each call of [exclaimError] made while parsing, with
    the values that the message is formatted from. *)

Inductive Message :=
  | MsgUnableToParse (file_name : string)
  | MsgInnerclassCount (file_name : string) (n : nat)
  | MsgMemberdefCount (file_name : string) (n : nat)
  | MsgNodeName (node_name : string)
  | MsgConflictingFileDefinition (node_name file1 file2 : string)
  | MsgRefidNotFound (rid : string)
  | MsgFileException (file_name : string)
  | MsgInvalidOutputDirectory
  | MsgUnableToProcess (file_name : string)
  | MsgConflictingFileChild (node_name file1 file2 : string).

(** ** The root *)

(** [ExhaleRoot]: the objects ([heap]) with the number of objects created
    so far ([next_id]), the lists of node references of [__init__], and the
    diagnostics printed so far. *)
Record ExhaleRoot := mkRoot {
  heap : nat -> ExhaleNode;
  next_id : nat;
  all_nodes : list nat;
  node_by_refid : list (string * nat);
  class_like : list nat;
  defines : list nat;
  enums : list nat;
  enum_values : list nat;
  functions : list nat;
  dirs : list nat;
  files : list nat;
  groups : list nat;
  namespaces : list nat;
  typedefs : list nat;
  unions : list nat;
  variables : list nat;
  diagnostics : list Message }.

(** [ExhaleRoot.__init__] *)
Definition init_root : ExhaleRoot :=
  mkRoot (fun _ => init_node EmptyString EmptyString EmptyString) 0
    [] [] [] [] [] [] [] [] [] [] [] [] [] [] [].

Definition with_heap (v : nat -> ExhaleNode) (r : ExhaleRoot) : ExhaleRoot :=
  mkRoot v (next_id r) (all_nodes r) (node_by_refid r) (class_like r)
    (defines r) (enums r) (enum_values r) (functions r) (dirs r) (files r)
    (groups r) (namespaces r) (typedefs r) (unions r) (variables r)
    (diagnostics r).

Definition with_next_id (v : nat) (r : ExhaleRoot) : ExhaleRoot :=
  mkRoot (heap r) v (all_nodes r) (node_by_refid r) (class_like r) (defines r)
    (enums r) (enum_values r) (functions r) (dirs r) (files r) (groups r)
    (namespaces r) (typedefs r) (unions r) (variables r) (diagnostics r).

Definition with_all_nodes (v : list nat) (r : ExhaleRoot) : ExhaleRoot :=
  mkRoot (heap r) (next_id r) v (node_by_refid r) (class_like r) (defines r)
    (enums r) (enum_values r) (functions r) (dirs r) (files r) (groups r)
    (namespaces r) (typedefs r) (unions r) (variables r) (diagnostics r).

Definition with_node_by_refid (v : list (string * nat)) (r : ExhaleRoot)
    : ExhaleRoot :=
  mkRoot (heap r) (next_id r) (all_nodes r) v (class_like r) (defines r)
    (enums r) (enum_values r) (functions r) (dirs r) (files r) (groups r)
    (namespaces r) (typedefs r) (unions r) (variables r) (diagnostics r).

Definition with_class_like (v : list nat) (r : ExhaleRoot) : ExhaleRoot :=
  mkRoot (heap r) (next_id r) (all_nodes r) (node_by_refid r) v (defines r)
    (enums r) (enum_values r) (functions r) (dirs r) (files r) (groups r)
    (namespaces r) (typedefs r) (unions r) (variables r) (diagnostics r).

Definition with_defines (v : list nat) (r : ExhaleRoot) : ExhaleRoot :=
  mkRoot (heap r) (next_id r) (all_nodes r) (node_by_refid r) (class_like r) v
    (enums r) (enum_values r) (functions r) (dirs r) (files r) (groups r)
    (namespaces r) (typedefs r) (unions r) (variables r) (diagnostics r).

Definition with_enums (v : list nat) (r : ExhaleRoot) : ExhaleRoot :=
  mkRoot (heap r) (next_id r) (all_nodes r) (node_by_refid r) (class_like r)
    (defines r) v (enum_values r) (functions r) (dirs r) (files r) (groups r)
    (namespaces r) (typedefs r) (unions r) (variables r) (diagnostics r).

Definition with_enum_values (v : list nat) (r : ExhaleRoot) : ExhaleRoot :=
  mkRoot (heap r) (next_id r) (all_nodes r) (node_by_refid r) (class_like r)
    (defines r) (enums r) v (functions r) (dirs r) (files r) (groups r)
    (namespaces r) (typedefs r) (unions r) (variables r) (diagnostics r).

Definition with_functions (v : list nat) (r : ExhaleRoot) : ExhaleRoot :=
  mkRoot (heap r) (next_id r) (all_nodes r) (node_by_refid r) (class_like r)
    (defines r) (enums r) (enum_values r) v (dirs r) (files r) (groups r)
    (namespaces r) (typedefs r) (unions r) (variables r) (diagnostics r).

Definition with_dirs (v : list nat) (r : ExhaleRoot) : ExhaleRoot :=
  mkRoot (heap r) (next_id r) (all_nodes r) (node_by_refid r) (class_like r)
    (defines r) (enums r) (enum_values r) (functions r) v (files r) (groups r)
    (namespaces r) (typedefs r) (unions r) (variables r) (diagnostics r).

Definition with_files (v : list nat) (r : ExhaleRoot) : ExhaleRoot :=
  mkRoot (heap r) (next_id r) (all_nodes r) (node_by_refid r) (class_like r)
    (defines r) (enums r) (enum_values r) (functions r) (dirs r) v (groups r)
    (namespaces r) (typedefs r) (unions r) (variables r) (diagnostics r).

Definition with_groups (v : list nat) (r : ExhaleRoot) : ExhaleRoot :=
  mkRoot (heap r) (next_id r) (all_nodes r) (node_by_refid r) (class_like r)
    (defines r) (enums r) (enum_values r) (functions r) (dirs r) (files r) v
    (namespaces r) (typedefs r) (unions r) (variables r) (diagnostics r).

Definition with_namespaces (v : list nat) (r : ExhaleRoot) : ExhaleRoot :=
  mkRoot (heap r) (next_id r) (all_nodes r) (node_by_refid r) (class_like r)
    (defines r) (enums r) (enum_values r) (functions r) (dirs r) (files r)
    (groups r) v (typedefs r) (unions r) (variables r) (diagnostics r).

Definition with_typedefs (v : list nat) (r : ExhaleRoot) : ExhaleRoot :=
  mkRoot (heap r) (next_id r) (all_nodes r) (node_by_refid r) (class_like r)
    (defines r) (enums r) (enum_values r) (functions r) (dirs r) (files r)
    (groups r) (namespaces r) v (unions r) (variables r) (diagnostics r).

Definition with_unions (v : list nat) (r : ExhaleRoot) : ExhaleRoot :=
  mkRoot (heap r) (next_id r) (all_nodes r) (node_by_refid r) (class_like r)
    (defines r) (enums r) (enum_values r) (functions r) (dirs r) (files r)
    (groups r) (namespaces r) (typedefs r) v (variables r) (diagnostics r).

Definition with_variables (v : list nat) (r : ExhaleRoot) : ExhaleRoot :=
  mkRoot (heap r) (next_id r) (all_nodes r) (node_by_refid r) (class_like r)
    (defines r) (enums r) (enum_values r) (functions r) (dirs r) (files r)
    (groups r) (namespaces r) (typedefs r) (unions r) v (diagnostics r).

Definition with_diagnostics (v : list Message) (r : ExhaleRoot) : ExhaleRoot :=
  mkRoot (heap r) (next_id r) (all_nodes r) (node_by_refid r) (class_like r)
    (defines r) (enums r) (enum_values r) (functions r) (dirs r) (files r)
    (groups r) (namespaces r) (typedefs r) (unions r) (variables r) v.

(** The object behind a reference. *)
Definition node (r : ExhaleRoot) (n : nat) : ExhaleNode := heap r n.

(** Assignment to attributes of the object [n]. *)
Definition upd (n : nat) (f : ExhaleNode -> ExhaleNode) (r : ExhaleRoot)
    : ExhaleRoot :=
  with_heap (fun m => if decide (m = n) then f (heap r m) else heap r m) r.

(** [ExhaleNode(name, kind, refid)]: a new object, named by the next free
    reference. *)
Definition new_node (nm kd rid : string) (r : ExhaleRoot) : nat * ExhaleRoot :=
  let n := next_id r in
  (n, with_next_id (S n)
        (with_heap (fun m => if decide (m = n) then init_node nm kd rid
                             else heap r m) r)).

Definition exclaimError (m : Message) (r : ExhaleRoot) : ExhaleRoot :=
  with_diagnostics (diagnostics r ++ [m]) r.

(** [p.children.append(c)] *)
Definition append_child (p c : nat) (r : ExhaleRoot) : ExhaleRoot :=
  upd p (fun nd => set_children (children nd ++ [c]) nd) r.

(** [p.children.append(c)] and [c.parent = p], in either order. *)
Definition attach (p c : nat) (r : ExhaleRoot) : ExhaleRoot :=
  upd c (set_parent (Some p)) (append_child p c r).

(** [x in l] on a list of nodes. *)
Definition mem (x : nat) (l : list nat) : bool := bool_decide (x ∈ l).

(** [l.remove(x)]: the first occurrence goes.  Every call below removes a
    node that the list holds, so that the [ValueError] of Python does not
    arise. *)
Fixpoint list_remove (x : nat) (l : list nat) : list nat :=
  match l with
  | [] => []
  | y :: l' => if decide (x = y) then l' else y :: list_remove x l'
  end.

(** [ExhaleRoot.trackNodeIfUnseen] *)
Definition trackNodeIfUnseen (n : nat) (r : ExhaleRoot) : ExhaleRoot :=
  if mem n (all_nodes r) then r
  else
    let k := kind (node r n) in
    let r := with_all_nodes (all_nodes r ++ [n]) r in
    let r :=
      with_node_by_refid (dict_set (refid (node r n)) n (node_by_refid r)) r in
    if (k =? "class") || (k =? "struct")
    then with_class_like (class_like r ++ [n]) r
    else if k =? "namespace" then with_namespaces (namespaces r ++ [n]) r
    else if k =? "enum" then with_enums (enums r ++ [n]) r
    else if k =? "enumvalue" then with_enum_values (enum_values r ++ [n]) r
    else if k =? "define" then with_defines (defines r ++ [n]) r
    else if k =? "file" then with_files (files r ++ [n]) r
    else if k =? "dir" then with_dirs (dirs r ++ [n]) r
    else if k =? "function" then with_functions (functions r ++ [n]) r
    else if k =? "variable" then with_variables (variables r ++ [n]) r
    else if k =? "group" then with_groups (groups r ++ [n]) r
    else if k =? "typedef" then with_typedefs (typedefs r ++ [n]) r
    else if k =? "union" then with_unions (unions r ++ [n]) r
    else r.

(** ** Discovery *)

(** The body of the loop over the [<member>]s of a namespace or file
    compound [curr]. *)
Definition discover_member (curr : nat) (curr_kind : string)
    (r : ExhaleRoot) (m : Member) : ExhaleRoot :=
  match m_name m, m_kind m, m_refid m with
  | Some child_name, Some child_kind, Some child_refid =>
      let '(child_node, r) := new_node child_name child_kind child_refid r in
      let r := trackNodeIfUnseen child_node r in
      let r :=
        if curr_kind =? "namespace"
        then upd child_node (set_parent (Some curr)) r
        else upd child_node (set_def_in_file (Some curr)) r in
      append_child curr child_node r
  | _, _, _ => r
  end.

(** The body of the loop over the [<compound>]s of the index. *)
Definition discover_compound (r : ExhaleRoot) (c : Compound) : ExhaleRoot :=
  match c_name c, c_kind c, c_refid c with
  | Some curr_name, Some curr_kind, Some curr_refid =>
      let '(curr_node, r) := new_node curr_name curr_kind curr_refid r in
      let r := trackNodeIfUnseen curr_node r in
      if (curr_kind =? "namespace") || (curr_kind =? "file")
      then fold_left (discover_member curr_node curr_kind) (c_members c) r
      else r
  | _, _, _ => r
  end.

(** The body of the loop over the [<innerclass>]es of the file [f]. *)
Definition file_innerclass (f : nat) (r : ExhaleRoot) (attr : option string)
    : ExhaleRoot :=
  match attr with
  | Some rid =>
      match dict_get rid (node_by_refid r) with
      | Some nd =>
          let r := exclaimError (MsgNodeName (name (node r nd))) r in
          match def_in_file (node r nd) with
          | None => upd nd (set_def_in_file (Some f)) r
          | Some g =>
              if decide (g = f) then r
              else exclaimError
                     (MsgConflictingFileDefinition (name (node r nd))
                        (name (node r g)) (name (node r f))) r
          end
      | None => exclaimError (MsgRefidNotFound rid) r
      end
  | None => r
  end.

(** The body of the loop over the [<memberdef>]s of the file [f]. *)
Definition file_memberdef (f : nat) (r : ExhaleRoot) (member : MemberDef)
    : ExhaleRoot :=
  match md_id member with
  | Some rid =>
      match dict_get rid (node_by_refid r) with
      | Some nd =>
          let r := exclaimError (MsgNodeName (name (node r nd))) r in
          match def_in_file (node r nd) with
          | None => upd nd (set_def_in_file (Some f)) r
          | Some _ => r
          end
      | None => r
      end
  | None => r
  end.

(** The second [try] block of the loop over the files, for a document that
    has its [compounddef]. *)
Definition file_compounddef (f : nat) (cdef : CompoundDef) (r : ExhaleRoot)
    : ExhaleRoot :=
  let r :=
    exclaimError
      (MsgInnerclassCount (name (node r f)) (length (cd_innerclass cdef))) r in
  let r := fold_left (file_innerclass f) (cd_innerclass cdef) r in
  let r :=
    exclaimError
      (MsgMemberdefCount (name (node r f)) (length (cd_memberdef cdef))) r in
  let r := fold_left (file_memberdef f) (cd_memberdef cdef) r in
  upd f (set_def_in_file_location (Some (cd_location_file cdef))) r.

(** The loop over [self.files] that reads the detail record of every file;
    a record that does not parse ends the loop. *)
Fixpoint discover_file_xml (inp : Input) (fs : list nat) (r : ExhaleRoot)
    : ExhaleRoot :=
  match fs with
  | [] => r
  | f :: fs' =>
      match node_xml inp (refid (node r f)) with
      | NoContents => discover_file_xml inp fs' r
      | Unparsable => exclaimError (MsgUnableToParse (name (node r f))) r
      | Parsed doc =>
          let r := upd f (set_soup (Some doc)) r in
          let r :=
            match doc with
            | Some cdef => file_compounddef f cdef r
            | None => exclaimError (MsgFileException (name (node r f))) r
            end in
          discover_file_xml inp fs' r
      end
  end.

(** The body of the loops over the [<innerclass>]es and
    [<innernamespace>]s of the namespace [nspace]. *)
Definition namespace_inner (nspace : nat) (r : ExhaleRoot)
    (attr : option string) : ExhaleRoot :=
  match attr with
  | Some rid =>
      match dict_get rid (node_by_refid r) with
      | Some nd =>
          if mem nd (children (node r nspace)) then r
          else upd nd (set_parent (Some nspace)) (append_child nspace nd r)
      | None => r
      end
  | None => r
  end.

(** The loop over [self.files] that looks for the file located at
    [filedef]; reading [def_in_file_location] on a file that lacks the
    attribute raises. *)
Fixpoint assign_file_by_location (filedef : string) (nd : nat)
    (fs : list nat) (r : ExhaleRoot) : result ExhaleRoot :=
  match fs with
  | [] => Ok r
  | f :: fs' =>
      match def_in_file_location (node r f) with
      | None => Raise AttributeError
      | Some loc =>
          if decide (loc = Some filedef) then
            let r := upd nd (set_def_in_file (Some f)) r in
            Ok (if mem nd (children (node r f)) then r else append_child f nd r)
          else assign_file_by_location filedef nd fs' r
      end
  end.

(** The body of the loop over the [<memberdef>]s of a [<sectiondef>] of a
    namespace. *)
Definition namespace_memberdef (r : ExhaleRoot) (memberdef : MemberDef)
    : result ExhaleRoot :=
  match md_id memberdef with
  | Some rid =>
      match dict_get rid (node_by_refid r) with
      | Some nd =>
          match md_location_file memberdef with
          | Some filedef => assign_file_by_location filedef nd (files r) r
          | None => Ok r
          end
      | None => Ok r
      end
  | None => Ok r
  end.

(** The body of the loop over [self.namespaces]. *)
Definition discover_namespace_xml (inp : Input) (r : ExhaleRoot) (nspace : nat)
    : result ExhaleRoot :=
  match node_xml inp (refid (node r nspace)) with
  | NoContents | Unparsable => Ok r
  | Parsed None => Raise AttributeError
  | Parsed (Some cdef) =>
      let r := fold_left (namespace_inner nspace) (cd_innerclass cdef) r in
      let r := fold_left (namespace_inner nspace) (cd_innernamespace cdef) r in
      for_each (fun r sectiondef => for_each namespace_memberdef sectiondef r)
        (cd_sectiondef cdef) r
  end.

Definition no_file_kind (k : string) : bool :=
  (k =? "file") || (k =? "dir") || (k =? "group") || (k =? "namespace").

(** [missing_file_def]: the entries of [node_by_refid] whose node has no
    defining file and is not a file, directory, group or namespace. *)
Definition missing_file_def (r : ExhaleRoot) : list (string * nat) :=
  fold_left
    (fun acc rid =>
       match dict_get rid (node_by_refid r) with
       | Some nd =>
           if bool_decide (def_in_file (node r nd) = None)
              && negb (no_file_kind (kind (node r nd)))
           then dict_set rid nd acc else acc
       | None => acc
       end)
    (dict_keys (node_by_refid r)) [].

(** [missing_file_def_candidates] before the listings are read. *)
Definition no_candidates (missing : list (string * nat))
    : list (string * list nat) :=
  fold_left (fun acc rid => dict_set rid [] acc) (dict_keys missing) [].

(** The body of the loop over the [<ref>]s of the listing of [f]. *)
Definition listing_ref (missing : list (string * nat)) (f : nat)
    (cands : list (string * list nat)) (ref : Ref) : list (string * list nat) :=
  match r_refid ref with
  | Some rid =>
      if bool_decide (r_kindref ref = Some "member") then
        if dict_mem rid missing then
          let fs := default [] (dict_get rid cands) in
          if mem f fs then cands else dict_set rid (fs ++ [f]) cands
        else cands
      else cands
  | None => cands
  end.

(** The body of the loop over [self.files] that reads the listings. *)
Definition listing_candidates (r : ExhaleRoot) (missing : list (string * nat))
    (cands : list (string * list nat)) (f : nat)
    : result (list (string * list nat)) :=
  match soup (node r f) with
  | Some (Some cdef) =>
      match cd_programlisting cdef with
      | Some refs => Ok (fold_left (listing_ref missing f) refs cands)
      | None => Ok cands
      end
  | _ => Raise AttributeError
  end.

(** The body of the last loop: a single candidate becomes the defining
    file. *)
Definition resolve_candidate (missing : list (string * nat))
    (cands : list (string * list nat)) (r : ExhaleRoot) (rid : string)
    : ExhaleRoot :=
  match dict_get rid missing, dict_get rid cands with
  | Some nd, Some [f] => upd nd (set_def_in_file (Some f)) r
  | _, _ => r
  end.

(** The three loops that close [discoverAllNodes]. *)
Definition resolve_missing_file_defs (r : ExhaleRoot) : result ExhaleRoot :=
  let missing := missing_file_def r in
  cands ← for_each (listing_candidates r missing) (files r)
            (no_candidates missing);
  Ok (fold_left (resolve_candidate missing cands) (dict_keys missing) r).

(** [discoverAllNodes] up to the loop over the namespaces. *)
Definition discover_relationships (inp : Input) (r : ExhaleRoot)
    : result ExhaleRoot :=
  match index inp with
  | None => Raise RuntimeError
  | Some compounds =>
      let r := fold_left discover_compound compounds r in
      let r := discover_file_xml inp (files r) r in
      for_each (discover_namespace_xml inp) (namespaces r) r
  end.

(** [ExhaleRoot.discoverAllNodes] *)
Definition discoverAllNodes (inp : Input) (r : ExhaleRoot)
    : result ExhaleRoot :=
  r ← discover_relationships inp r;
  resolve_missing_file_defs r.

(** ** Reparenting *)

(** The body of the loop of [reparentUnions]; [removals] is threaded with
    the root. *)
Definition reparent_union (acc : ExhaleRoot * list nat) (u : nat)
    : ExhaleRoot * list nat :=
  let '(r, removals) := acc in
  let parts := Str.split "::" (name (node r u)) in
  let num_parts := length parts in
  if (1 <? num_parts)%nat then
    if (2 <? num_parts)%nat then
      let namespace_name := Str.join "::" (drop_last 2 parts) in
      let potential_class := default EmptyString (nth_from_end 2 parts) in
      match List.find (fun cl => name (node r cl) =? potential_class)
              (class_like r) with
      | Some cl => (attach cl u r, removals ++ [u])
      | None =>
          let alt_namespace_name :=
            namespace_name +:+ "::" +:+ potential_class in
          match List.find
                  (fun n => (namespace_name =? name (node r n))
                            || (alt_namespace_name =? name (node r n)))
                  (namespaces r) with
          | Some n => (attach n u r, removals)
          | None => (r, removals)
          end
      end
    else
      let name_or_class_name := Str.join "::" (drop_last 1 parts) in
      match List.find (fun cl => name (node r cl) =? name_or_class_name)
              (class_like r) with
      | Some cl => (attach cl u r, removals ++ [u])
      | None =>
          match List.find (fun n => name (node r n) =? name_or_class_name)
                  (namespaces r) with
          | Some n => (attach n u r, removals)
          | None => (r, removals)
          end
      end
  else (r, removals).

(** [ExhaleRoot.reparentUnions] *)
Definition reparentUnions (r : ExhaleRoot) : ExhaleRoot :=
  let '(r, removals) := fold_left reparent_union (unions r) (r, []) in
  with_unions (fold_left (fun l rm => list_remove rm l) removals (unions r)) r.

(** The body of the loop of [reparentClassLike]. *)
Definition reparent_class_like (acc : ExhaleRoot * list nat) (cl : nat)
    : ExhaleRoot * list nat :=
  let '(r, removals) := acc in
  let parts := Str.split "::" (name (node r cl)) in
  if (1 <? length parts)%nat then
    let parent_name := Str.join "::" (drop_last 1 parts) in
    match List.find (fun parent_cl => name (node r parent_cl) =? parent_name)
            (class_like r) with
    | Some parent_cl => (attach parent_cl cl r, removals ++ [cl])
    | None => (r, removals)
    end
  else (r, removals).

(** [ExhaleRoot.reparentClassLike] *)
Definition reparentClassLike (r : ExhaleRoot) : ExhaleRoot :=
  let '(r, removals) := fold_left reparent_class_like (class_like r) (r, []) in
  with_class_like
    (fold_left (fun l rm => if mem rm l then list_remove rm l else l)
       removals (class_like r)) r.

(** [<] on the pairs [(rank, directory)]: the first components that differ
    decide, and two references to one object are equal. *)
Definition rank_lt (r : ExhaleRoot) (a b : nat * nat) : bool :=
  if (fst a =? fst b)%nat then
    if decide (snd a = snd b) then false
    else node_lt (node r (snd a)) (node r (snd b))
  else (fst a <? fst b)%nat.

(** [dir_ranks] *)
Definition dir_ranks (r : ExhaleRoot) : list (nat * nat) :=
  map (fun d => (length (Str.split "/" (name (node r d))), d)) (dirs r).

(** The outer loop of [reparentDirectories] over the traversal [todo], with
    [traversal] reversed for the inner loop. *)
Fixpoint reparent_directories_loop (rtraversal todo : list (nat * nat))
    (acc : ExhaleRoot * list nat) : ExhaleRoot * list nat :=
  match todo with
  | [] => acc
  | (rank, directory) :: todo' =>
      if (rank <? 2)%nat then acc
      else
        let '(r, removals) := acc in
        let parent_path :=
          Str.join "/"
            (drop_last 1 (Str.split "/" (name (node r directory)))) in
        match List.find
                (fun p => (fst p =? rank - 1)%nat
                          && (name (node r (snd p)) =? parent_path))
                rtraversal with
        | Some (_, p_directory) =>
            reparent_directories_loop rtraversal todo'
              (attach p_directory directory r,
               if mem directory removals then removals
               else removals ++ [directory])
        | None => reparent_directories_loop rtraversal todo' acc
        end
  end.

(** [ExhaleRoot.reparentDirectories] *)
Definition reparentDirectories (r : ExhaleRoot) : ExhaleRoot :=
  let traversal := py_sort (rank_lt r) (dir_ranks r) in
  let '(r, removals) :=
    reparent_directories_loop (List.rev traversal) (List.rev traversal)
      (r, []) in
  with_dirs (fold_left (fun l rm => list_remove rm l) removals (dirs r)) r.

(** The body of the inner loop of [renameToNamespaceScopes]. *)
Definition rename_child (namespace_name : string) (r : ExhaleRoot) (child : nat)
    : ExhaleRoot :=
  if Str.contains namespace_name (name (node r child)) then r
  else upd child (set_name (namespace_name +:+ name (node r child))) r.

(** The body of the outer loop of [renameToNamespaceScopes]. *)
Definition rename_namespace (r : ExhaleRoot) (n : nat) : ExhaleRoot :=
  let namespace_name := name (node r n) +:+ "::" in
  fold_left (rename_child namespace_name) (children (node r n)) r.

(** [ExhaleRoot.renameToNamespaceScopes] *)
Definition renameToNamespaceScopes (r : ExhaleRoot) : ExhaleRoot :=
  fold_left rename_namespace (namespaces r) r.

(** [nspace.parent and nspace.parent.kind == "namespace"] *)
Definition has_namespace_parent (r : ExhaleRoot) (nspace : nat) : bool :=
  match parent (node r nspace) with
  | Some p => kind (node r p) =? "namespace"
  | None => false
  end.

(** [ExhaleRoot.reparentNamespaces] *)
Definition reparentNamespaces (r : ExhaleRoot) : ExhaleRoot :=
  let removals :=
    fold_left
      (fun removals nspace =>
         if has_namespace_parent r nspace && negb (mem nspace removals)
         then removals ++ [nspace] else removals)
      (namespaces r) [] in
  with_namespaces
    (fold_left (fun l rm => list_remove rm l) removals (namespaces r)) r.

(** [list(set(l))]: the elements of [l], each once.  Python leaves the order
    of the result open; the properties below do not depend on it. *)
Definition list_set (l : list nat) : list nat := remove_dups l.

(** The last loop of [reparentAll]. *)
Definition dedup_children (r : ExhaleRoot) : ExhaleRoot :=
  fold_left
    (fun r n => upd n (fun nd => set_children (list_set (children nd)) nd) r)
    (all_nodes r) r.

(** [ExhaleRoot.reparentAll] *)
Definition reparentAll (r : ExhaleRoot) : ExhaleRoot :=
  let r := reparentUnions r in
  let r := reparentClassLike r in
  let r := reparentDirectories r in
  let r := renameToNamespaceScopes r in
  let r := reparentNamespaces r in
  dedup_children r.

(** The loop of [parse] that fills [node_by_refid] from [all_nodes]. *)
Definition index_nodes (r : ExhaleRoot) : ExhaleRoot :=
  fold_left
    (fun r n =>
       with_node_by_refid (dict_set (refid (node r n)) n (node_by_refid r)) r)
    (all_nodes r) r.

(** ** File reference discovery *)

(** The body of the loop over the lines of the detail record of [f];
    [owned] is [doxygen_xml_file_ownerships[f]]. *)
Definition scan_line (f : nat) (st : ExhaleRoot * list string * bool)
    (line : XmlLine) : ExhaleRoot * list string * bool :=
  let '(r, owned, processing_code_listing) := st in
  match loc_match line with
  | Some loc => (upd f (set_location loc) r, owned, processing_code_listing)
  | None =>
      if negb processing_code_listing then
        match inc_by_match line with
        | Some by_ref =>
            (upd f
               (fun nd => set_included_by (included_by nd ++ [by_ref]) nd) r,
             owned, processing_code_listing)
        | None =>
            match inc_match line with
            | Some inc =>
                (upd f (fun nd => set_includes (includes nd ++ [inc]) nd) r,
                 owned, processing_code_listing)
            | None =>
                match ref_match line with
                | Some match_refid =>
                    (r,
                     if dict_mem match_refid (node_by_refid r)
                     then owned ++ [match_refid] else owned,
                     processing_code_listing)
                | None =>
                    (r, owned, Str.contains "<programlisting>" (line_text line))
                end
            end
        end
      else if Str.contains "</programlisting>" (line_text line) then
        (r, owned, false)
      else
        (upd f (fun nd => set_program_listing
                            (program_listing nd ++ [line_text line]) nd) r,
         owned, true)
  end.

(** The body of the loop that reads the detail record of every file. *)
Definition scan_file (inp : Input)
    (acc : ExhaleRoot * list (nat * list string)) (f : nat)
    : ExhaleRoot * list (nat * list string) :=
  let '(r, ownerships) := acc in
  match file_lines inp (refid (node r f)) with
  | Some lines =>
      let '(r, owned, _) := fold_left (scan_line f) lines (r, [], false) in
      (r, dict_set f owned ownerships)
  | None =>
      (exclaimError (MsgUnableToProcess (name (node r f))) r,
       dict_set f [] ownerships)
  end.

(** The body of the loop that strips [doxygenStripFromPath]; the call of
    the string [f.location] raises. *)
Definition strip_location (strip : string) (r : ExhaleRoot) (f : nat)
    : result ExhaleRoot :=
  let r :=
    upd f
      (fun nd => set_location (Str.replace strip EmptyString (location nd)) nd)
      r in
  if Str.startswith "/" (location (node r f)) then Raise TypeError else Ok r.

Definition file_child_kind (k : string) : bool :=
  (k =? "struct") || (k =? "class") || (k =? "function") || (k =? "typedef")
  || (k =? "define") || (k =? "enum") || (k =? "union").

(** The body of the loop over the refids owned by [f].  Every [match_refid]
    was found in [node_by_refid] when it was recorded. *)
Definition reparent_to_file (f : nat) (r : ExhaleRoot) (match_refid : string)
    : ExhaleRoot :=
  match dict_get match_refid (node_by_refid r) with
  | Some child =>
      let child_name := name (node r child) in
      let child_kind := kind (node r child) in
      if file_child_kind child_kind then
        if existsb (fun fc => child_name =? name (node r fc))
             (children (node r f))
        then r
        else if child_kind =? "union" then
          if existsb (fun u => child_name =? name (node r u)) (unions r)
          then append_child f child r else r
        else append_child f child r
      else if child_kind =? "namespace" then
        if existsb (fun fc => child_name =? name (node r fc))
             (namespaces_used (node r f))
        then r
        else
          upd f
            (fun nd => set_namespaces_used (namespaces_used nd ++ [child]) nd) r
      else r
  | None => r
  end.

Definition orphan_kind (k : string) : bool :=
  (k =? "enum") || (k =? "variable") || (k =? "function") || (k =? "typedef")
  || (k =? "union").

(** [potential_orphans] of the file [f]. *)
Definition potential_orphans (r : ExhaleRoot) (f : nat) : list nat :=
  flat_map
    (fun n => List.filter (fun child => orphan_kind (kind (node r child)))
                (children (node r n)))
    (namespaces_used (node r f)).

(** The body of the loop over the potential orphans of [f]. *)
Definition adopt_orphan (f : nat) (r : ExhaleRoot) (orphan : nat)
    : ExhaleRoot :=
  let unresolved_name :=
    default EmptyString
      (nth_from_end 1 (Str.split "::" (name (node r orphan)))) in
  if Str.contains (refid (node r f)) (refid (node r orphan))
     && existsb (Str.contains unresolved_name) (program_listing (node r f))
  then
    if mem orphan (children (node r f)) then r else append_child f orphan r
  else r.

(** The body of the inner loop of the last check of [fileRefDiscovery]. *)
Definition check_file_child (f : nat) (r : ExhaleRoot) (child : nat)
    : ExhaleRoot :=
  match def_in_file (node r child) with
  | None => upd child (set_def_in_file (Some f)) r
  | Some g =>
      if decide (g = f) then r
      else exclaimError
             (MsgConflictingFileChild (name (node r child)) (name (node r g))
                (name (node r f))) r
  end.

(** The body of the outer loop of the last check. *)
Definition check_children_of (r : ExhaleRoot) (f : nat) : ExhaleRoot :=
  fold_left (check_file_child f) (children (node r f)) r.

(** The last check of [fileRefDiscovery]: all children know where they were
    defined. *)
Definition check_file_children (r : ExhaleRoot) : ExhaleRoot :=
  fold_left check_children_of (files r) r.

(** [ExhaleRoot.fileRefDiscovery] *)
Definition fileRefDiscovery (inp : Input) (r : ExhaleRoot)
    : result ExhaleRoot :=
  if negb (output_dir_valid inp)
  then Ok (exclaimError MsgInvalidOutputDirectory r)
  else
    let '(r, ownerships) := fold_left (scan_file inp) (files r) (r, []) in
    r ← match doxygenStripFromPath inp with
        | Some strip => for_each (strip_location strip) (files r) r
        | None => Ok r
        end;
    let r :=
      fold_left
        (fun r f => fold_left (reparent_to_file f)
                      (default [] (dict_get f ownerships)) r)
        (files r) r in
    let r :=
      fold_left
        (fun r f => fold_left (adopt_orphan f) (potential_orphans r f) r)
        (files r) r in
    Ok (check_file_children r).

(** ** File post-processing *)

(** The [while] loop of [filePostProcess] for the file [f]; [fuel] bounds
    the number of directories popped. *)
Fixpoint find_directory (fuel : nat) (dir_path : string) (f : nat)
    (nodes_remaining : list nat) (r : ExhaleRoot) : ExhaleRoot :=
  match fuel with
  | O => r
  | S fuel' =>
      match List.rev nodes_remaining with
      | [] => r
      | d :: rest =>
          if Str.contains (name (node r d)) dir_path then
            if name (node r d) =? dir_path then attach d f r
            else
              find_directory fuel' dir_path f
                (List.filter (fun child => kind (node r child) =? "dir")
                   (children (node r d))) r
          else find_directory fuel' dir_path f (List.rev rest) r
      end
  end.

(** The body of the loop of [filePostProcess]. *)
Definition post_process_file (fuel : nat) (r : ExhaleRoot) (f : nat)
    : ExhaleRoot :=
  let dir_loc_parts := drop_last 1 (Str.split "/" (location (node r f))) in
  if (length dir_loc_parts =? 0)%nat then r
  else find_directory fuel (Str.join "/" dir_loc_parts) f (dirs r) r.

(** [ExhaleRoot.filePostProcess] *)
Definition filePostProcess (fuel : nat) (r : ExhaleRoot) : ExhaleRoot :=
  fold_left (post_process_file fuel) (files r) r.

(** ** Sorting the lists *)

(** [l.sort()] on a list of nodes. *)
Definition sort_nodes (r : ExhaleRoot) (l : list nat) : list nat :=
  py_sort (fun a b => node_lt (node r a) (node r b)) l.

(** [ExhaleNode.typeSort]; [fuel] bounds the depth of the recursion.  The
    source recurses without a bound of its own, and ends in Python's
    [RecursionError] when the children form a cycle; here the recursion
    stops when [fuel] runs out, and the root is returned as it then is.
    The properties of the sort below are stated for every [fuel] and hold
    of what the recursion has done so far; none of them states that the
    sort of the source returns. *)
Fixpoint typeSort (fuel : nat) (r : ExhaleRoot) (n : nat) : ExhaleRoot :=
  match fuel with
  | O => r
  | S fuel' =>
      let r :=
        upd n (fun nd => set_children (sort_nodes r (children nd)) nd) r in
      fold_left (typeSort fuel') (children (node r n)) r
  end.

(** [lst.sort()] on the list of the root that [get] reads and [set]
    assigns. *)
Definition sort_list (get : ExhaleRoot -> list nat)
    (set : list nat -> ExhaleRoot -> ExhaleRoot) (r : ExhaleRoot)
    : ExhaleRoot :=
  set (sort_nodes r (get r)) r.

(** [ExhaleRoot.deepSortList] on that list. *)
Definition deepSortList (fuel : nat) (get : ExhaleRoot -> list nat)
    (set : list nat -> ExhaleRoot -> ExhaleRoot) (r : ExhaleRoot)
    : ExhaleRoot :=
  let r := sort_list get set r in
  fold_left (typeSort fuel) (get r) r.

(** [ExhaleRoot.sortInternals] *)
Definition sortInternals (fuel : nat) (r : ExhaleRoot) : ExhaleRoot :=
  let r := sort_list defines with_defines r in
  let r := sort_list enums with_enums r in
  let r := sort_list enum_values with_enum_values r in
  let r := sort_list functions with_functions r in
  let r := sort_list groups with_groups r in
  let r := sort_list typedefs with_typedefs r in
  let r := sort_list variables with_variables r in
  let r := deepSortList fuel class_like with_class_like r in
  let r := deepSortList fuel namespaces with_namespaces r in
  let r := deepSortList fuel unions with_unions r in
  let r := deepSortList fuel files with_files r in
  deepSortList fuel dirs with_dirs r.

(** ** The pipeline *)

(** The roots that the passes of [parse] leave, in order, as far as the
    passes return: discovery, the five passes of [reparentAll] and its
    de-duplication of the children, the filling of [node_by_refid], file
    reference discovery, file post-processing, sorting. *)
Definition parse_stages (inp : Input) (fuel : nat) : list ExhaleRoot :=
  match discoverAllNodes inp init_root with
  | Raise _ => []
  | Ok r1 =>
      let r2 := reparentUnions r1 in
      let r3 := reparentClassLike r2 in
      let r4 := reparentDirectories r3 in
      let r5 := renameToNamespaceScopes r4 in
      let r6 := reparentNamespaces r5 in
      let r7 := dedup_children r6 in
      let r8 := index_nodes r7 in
      [r1; r2; r3; r4; r5; r6; r7; r8] ++
      match fileRefDiscovery inp r8 with
      | Raise _ => []
      | Ok r9 =>
          let r10 := filePostProcess fuel r9 in
          [r9; r10; sortInternals fuel r10]
      end
  end.

(** [ExhaleRoot.parse] on a new root.  An exception of discovery or of
    file reference discovery ends the run; [fuel] bounds the loop of
    [filePostProcess] and the recursion of [typeSort], which raise nothing
    here. *)
Definition parse (inp : Input) (fuel : nat) : result ExhaleRoot :=
  r ← discoverAllNodes inp init_root;
  let r := reparentAll r in
  let r := index_nodes r in
  r ← fileRefDiscovery inp r;
  let r := filePostProcess fuel r in
  Ok (sortInternals fuel r).

(** ** Example inputs *)

Definition compound (nm kd rid : string) (members : list Member) : Compound :=
  mkCompound (Some nm) (Some kd) (Some rid) members.

Definition member (nm kd rid : string) : Member :=
  mkMember (Some nm) (Some kd) (Some rid).

Definition empty_compounddef : CompoundDef :=
  mkCompoundDef [] [] [] [] None None.

(** An index alone: no detail record can be read. *)
Definition index_only (compounds : list Compound) : Input :=
  mkInput (Some compounds) (fun _ => NoContents) true (fun _ => None) None.

(** The function [f] of the namespace [n], declared in [a.hpp]: the index
    lists it among the members of the namespace and among those of the
    file, under one refid. *)
Definition shared_member_input : Input :=
  mkInput
    (Some [compound "n" "namespace" "namespacen"
             [member "f" "function" "namespacen_1a0f"];
           compound "a.hpp" "file" "a_8hpp"
             [member "f" "function" "namespacen_1a0f"]])
    (fun rid => if rid =? "a_8hpp" then Parsed (Some empty_compounddef)
                else NoContents)
    true (fun _ => None) None.

(** The union [U] of the class [A::B] of the namespace [A]. *)
Definition nested_union_input : Input :=
  index_only
    [compound "A" "namespace" "namespaceA" [];
     compound "A::B" "class" "classA_1_1B" [];
     compound "A::B::U" "union" "unionA_1_1B_1_1U" []].


(** The namespace [util] with a function whose name holds, but does not
    begin with, the text [util::]. *)
Definition inner_scope_input : Input :=
  index_only
    [compound "util" "namespace" "namespaceutil"
       [member "str_util::trim" "function" "namespaceutil_1a2b"]].

(** The namespace [external] with the variable [MAX_DEPTH]. *)
Definition max_depth_input : Input :=
  index_only
    [compound "external" "namespace" "namespaceexternal"
       [member "MAX_DEPTH" "variable" "namespaceexternal_1a3c"]].

(** A namespace with a function, a class with a nested class, a union of
    the namespace, and a directory with a subdirectory. *)
Definition library_input : Input :=
  index_only
    [compound "n" "namespace" "namespacen"
       [member "f" "function" "namespacen_1a0f"];
     compound "n::C" "class" "classn_1_1C" [];
     compound "n::C::D" "struct" "structn_1_1C_1_1D" [];
     compound "n::V" "union" "unionn_1_1V" [];
     compound "inc" "dir" "dir_inc" [];
     compound "inc/sub" "dir" "dir_inc_sub" []].


(** ** Notions used by the properties *)

(** The name that [renameToNamespaceScopes] gives to a child named [nm] of
    a namespace, [namespace_name] being the name of the namespace followed
    by [::]. *)
Definition scoped_name (namespace_name nm : string) : string :=
  if Str.contains namespace_name nm then nm else namespace_name +:+ nm.

(** The children that [renameToNamespaceScopes] visits, in order. *)
Definition renamed_children (r : ExhaleRoot) (ns : list nat) : list nat :=
  flat_map (fun n => children (node r n)) ns.

(** [f] is the first of [self.files] that lists [c] among its children. *)
Definition first_listing_file (r : ExhaleRoot) (c f : nat) : Prop :=
  exists before after,
    files r = before ++ f :: after /\
    c ∈ children (node r f) /\
    forall x, x ∈ before -> c ∉ children (node r x).

(** The files [a.hpp] and [b.hpp] and the class [C], which both files list
    among their children. *)
Definition two_owners : ExhaleRoot :=
  let r := fold_left discover_compound
             [compound "a.hpp" "file" "a_8hpp" [];
              compound "b.hpp" "file" "b_8hpp" [];
              compound "C" "class" "classC" []] init_root in
  append_child 1 2 (append_child 0 2 r).

(** The [<ref>] is a member reference to [rid]. *)
Definition ref_matches (ref : Ref) (rid : string) : bool :=
  bool_decide (r_refid ref = Some rid)
  && bool_decide (r_kindref ref = Some "member").

(** A [<ref>] of kind [member] to [rid] occurs in [refs]. *)
Definition refers (refs : list Ref) (rid : string) : bool :=
  existsb (fun ref => ref_matches ref rid) refs.

(** The program listing of the file [f] holds a member reference to
    [rid]. *)
Definition file_refers (r : ExhaleRoot) (f : nat) (rid : string) : bool :=
  match soup (node r f) with
  | Some (Some cdef) =>
      match cd_programlisting cdef with
      | Some refs => refers refs rid
      | None => false
      end
  | _ => false
  end.


(** The candidate files of [rid], [l] being those found so far. *)
Definition add_candidates (r : ExhaleRoot) (rid : string) (fs l : list nat)
    : list nat :=
  fold_left
    (fun l f => if file_refers r f rid && negb (mem f l) then l ++ [f] else l)
    fs l.


(** The detail record of every file was parsed and has its
    [compounddef]. *)
Definition files_parsed (r : ExhaleRoot) : Prop :=
  forall f, f ∈ files r -> exists cdef, soup (node r f) = Some (Some cdef).

(** The function [f] of the namespace [n], and the files [a.hpp], whose
    listing refers to [f], and [b.hpp], whose listing does not. *)
Definition one_listing_input : Input :=
  mkInput
    (Some [compound "n" "namespace" "namespacen"
             [member "f" "function" "namespacen_1a0f"];
           compound "a.hpp" "file" "a_8hpp" [];
           compound "b.hpp" "file" "b_8hpp" []])
    (fun rid =>
       if rid =? "a_8hpp" then
         Parsed (Some (mkCompoundDef [] [] [] [] None
                         (Some [mkRef (Some "namespacen_1a0f") (Some "member")])))
       else if rid =? "b_8hpp" then
         Parsed (Some (mkCompoundDef [] [] [] [] None (Some [])))
       else NoContents)
    true (fun _ => None) None.

(** Every node whose [parent] is set is among the children of that
    parent. *)
Definition edge_consistent (r : ExhaleRoot) : Prop :=
  forall n p, parent (node r n) = Some p -> n ∈ children (node r p).

(** Every parent is an object that was created. *)
Definition parents_allocated (r : ExhaleRoot) : Prop :=
  forall n p, parent (node r n) = Some p -> p < next_id r.

(** The namespaces [A::B] and [A], the second holding the first, and the
    union [A::B::U]; the index lists the inner namespace first. *)
Definition inner_namespace_first_input : Input :=
  mkInput
    (Some [compound "A::B" "namespace" "namespaceA_1_1B" [];
           compound "A" "namespace" "namespaceA" [];
           compound "A::B::U" "union" "unionA_1_1B_1_1U" []])
    (fun rid =>
       if rid =? "namespaceA" then
         Parsed (Some (mkCompoundDef [] [Some "namespaceA_1_1B"] [] [] None None))
       else NoContents)
    true (fun _ => None) None.



(** The parent that [reparentUnions] finds for the union [u]: a class or
    struct (with [true]), or else a namespace (with [false]). *)
Definition find_union_parent (r : ExhaleRoot) (u : nat) : option (nat * bool) :=
  let parts := Str.split "::" (name (node r u)) in
  let num_parts := length parts in
  if (1 <? num_parts)%nat then
    if (2 <? num_parts)%nat then
      let namespace_name := Str.join "::" (drop_last 2 parts) in
      let potential_class := default EmptyString (nth_from_end 2 parts) in
      match List.find (fun cl => name (node r cl) =? potential_class)
              (class_like r) with
      | Some cl => Some (cl, true)
      | None =>
          let alt_namespace_name :=
            namespace_name +:+ "::" +:+ potential_class in
          match List.find
                  (fun n => (namespace_name =? name (node r n))
                            || (alt_namespace_name =? name (node r n)))
                  (namespaces r) with
          | Some n => Some (n, false)
          | None => None
          end
      end
    else
      let name_or_class_name := Str.join "::" (drop_last 1 parts) in
      match List.find (fun cl => name (node r cl) =? name_or_class_name)
              (class_like r) with
      | Some cl => Some (cl, true)
      | None =>
          match List.find (fun n => name (node r n) =? name_or_class_name)
                  (namespaces r) with
          | Some n => Some (n, false)
          | None => None
          end
      end
  else None.

(** The parent that [reparentClassLike] finds for [cl]. *)
Definition find_class_parent (r : ExhaleRoot) (cl : nat) : option nat :=
  let parts := Str.split "::" (name (node r cl)) in
  if (1 <? length parts)%nat then
    List.find
      (fun parent_cl =>
         name (node r parent_cl) =? Str.join "::" (drop_last 1 parts))
      (class_like r)
  else None.

Definition dir_rank (r : ExhaleRoot) (d : nat) : nat :=
  length (Str.split "/" (name (node r d))).

Definition dir_parent_path (r : ExhaleRoot) (d : nat) : string :=
  Str.join "/" (drop_last 1 (Str.split "/" (name (node r d)))).


(** [reparentClassLike] finds no parent for [cl]. *)
Definition class_settled (r : ExhaleRoot) (cl : nat) : bool :=
  match find_class_parent r cl with None => true | Some _ => false end.

(** [reparentDirectories] finds no parent for [d]. *)
Definition dir_settled (r : ExhaleRoot) (d : nat) : bool :=
  (dir_rank r d <? 2)%nat
  || forallb
       (fun p => negb ((dir_rank r p =? dir_rank r d - 1)%nat
                       && (name (node r p) =? dir_parent_path r d)))
       (dirs r).





(** The nodes of the list [l] are registered and their kind is one of
    [ks]. *)
Definition listed_as (r : ExhaleRoot) (l : list nat) (ks : list string)
    : Prop :=
  forall n, n ∈ l -> n ∈ all_nodes r /\ kind (node r n) ∈ ks.

(** Every list of the root holds registered nodes of its kind only. *)
Definition kind_lists_pure (r : ExhaleRoot) : Prop :=
  listed_as r (class_like r) ["class"; "struct"] /\
  listed_as r (defines r) ["define"] /\
  listed_as r (enums r) ["enum"] /\
  listed_as r (enum_values r) ["enumvalue"] /\
  listed_as r (functions r) ["function"] /\
  listed_as r (dirs r) ["dir"] /\
  listed_as r (files r) ["file"] /\
  listed_as r (groups r) ["group"] /\
  listed_as r (namespaces r) ["namespace"] /\
  listed_as r (typedefs r) ["typedef"] /\
  listed_as r (unions r) ["union"] /\
  listed_as r (variables r) ["variable"].

(** No list of the root holds a node twice. *)
Definition lists_nodup (r : ExhaleRoot) : Prop :=
  NoDup (class_like r) /\ NoDup (defines r) /\ NoDup (enums r) /\
  NoDup (enum_values r) /\ NoDup (functions r) /\ NoDup (dirs r) /\
  NoDup (files r) /\ NoDup (groups r) /\ NoDup (namespaces r) /\
  NoDup (typedefs r) /\ NoDup (unions r) /\ NoDup (variables r).

(** The kinds of the nodes that a pass makes the parent of a node. *)
Definition parent_kinds : list string := ["namespace"; "class"; "struct"; "dir"].

(** The links of the nodes lead to registered nodes of the expected kind: a
    parent is a namespace, a class, a struct or a directory, a defining
    file is a file, the namespaces that a file uses are namespaces, and an
    entry of [node_by_refid] is a node with the refid of its key. *)
Definition links_kinded (r : ExhaleRoot) : Prop :=
  (forall n p, parent (node r n) = Some p ->
               p ∈ all_nodes r /\ kind (node r p) ∈ parent_kinds) /\
  (forall n f, def_in_file (node r n) = Some f ->
               f ∈ all_nodes r /\ kind (node r f) = "file") /\
  (forall f n, n ∈ namespaces_used (node r f) ->
               n ∈ all_nodes r /\ kind (node r n) = "namespace") /\
  (forall rid n, dict_get rid (node_by_refid r) = Some n ->
                 n ∈ all_nodes r /\ refid (node r n) = rid).

(** A node of kind [pk] may have a child of kind [ck]: namespaces and files
    take children of every kind, classes and structs take classes, structs
    and unions, directories take directories and files, and the nodes of
    the other kinds take no child. *)
Definition child_ok (pk ck : string) : bool :=
  if (pk =? "namespace") || (pk =? "file") then true
  else if is_class_like pk then
    (ck =? "class") || (ck =? "struct") || (ck =? "union")
  else if pk =? "dir" then (ck =? "dir") || (ck =? "file")
  else false.

(** The children of every node are registered nodes of a kind that the
    node may have as a child. *)
Definition children_kinded (r : ExhaleRoot) : Prop :=
  forall p c,
    c ∈ children (node r p) ->
    c ∈ all_nodes r /\ child_ok (kind (node r p)) (kind (node r c)) = true.

(** The state of the root inside the loop over the index: the nodes
    registered are the objects created, in the order of their creation. *)
Definition indexed (r : ExhaleRoot) : Prop :=
  all_nodes r = seq 0 (next_id r) /\
  kind_lists_pure r /\ lists_nodup r /\ links_kinded r /\ children_kinded r.

(** The list [l'] is [l], or [l] followed by the node [n], whose kind [k] is
    one of [ks]. *)
Definition grown (k : string) (ks : list string) (n : nat) (l l' : list nat)
    : Prop :=
  l' = l \/ (l' = l ++ [n] /\ k ∈ ks).

(** [r'] has the registered nodes of [r], with their kinds and refids. *)
Definition frozen (r r' : ExhaleRoot) : Prop :=
  all_nodes r' = all_nodes r /\ next_id r' = next_id r /\
  forall n,
    kind (node r' n) = kind (node r n) /\ refid (node r' n) = refid (node r n).

(** Every list of [r'] holds nodes of the same list of [r] only. *)
Definition lists_within (r r' : ExhaleRoot) : Prop :=
  class_like r' ⊆ class_like r /\
  defines r' ⊆ defines r /\
  enums r' ⊆ enums r /\
  enum_values r' ⊆ enum_values r /\
  functions r' ⊆ functions r /\
  dirs r' ⊆ dirs r /\
  files r' ⊆ files r /\
  groups r' ⊆ groups r /\
  namespaces r' ⊆ namespaces r /\
  typedefs r' ⊆ typedefs r /\
  unions r' ⊆ unions r /\
  variables r' ⊆ variables r.

(** What the passes that follow the loop over the index keep of the root
    [r0] that the loop leaves. *)
Definition evolved (r0 s : ExhaleRoot) : Prop :=
  frozen r0 s /\ lists_within r0 s /\ lists_nodup s /\
  links_kinded s /\ children_kinded s.

(** The number of objects that the loop over the index creates for a
    compound: one for a compound with its name, kind and refid, and one for
    each such member of a namespace or file. *)
Definition complete_member (m : Member) : bool :=
  match m_name m, m_kind m, m_refid m with
  | Some _, Some _, Some _ => true
  | _, _, _ => false
  end.

Definition registered_by (c : Compound) : nat :=
  match c_name c, c_kind c, c_refid c with
  | Some _, Some k, Some _ =>
      if (k =? "namespace") || (k =? "file")
      then S (length (List.filter complete_member (c_members c)))
      else 1
  | _, _, _ => 0
  end.

Definition registered_count (compounds : list Compound) : nat :=
  list_sum (map registered_by compounds).

(** The candidate files of every refid are among [fs]. *)
Definition candidates_within (fs : list nat) (cands : list (string * list nat))
    : Prop :=
  forall rid l x, dict_get rid cands = Some l -> x ∈ l -> x ∈ fs.

(** [reparentUnions] finds a class or struct for the union [u]. *)
Definition union_in_class (r : ExhaleRoot) (u : nat) : bool :=
  match find_union_parent r u with
  | Some (_, true) => true
  | _ => false
  end.

(** The body of a reparenting loop that attaches [x] to the parent that
    [found] gives for it, and records [x] for removal when the parent comes
    with [true]. *)
Definition attach_found (found : nat -> option (nat * bool))
    (acc : ExhaleRoot * list nat) (x : nat) : ExhaleRoot * list nat :=
  match found x with
  | Some (p, true) => (attach p x (fst acc), snd acc ++ [x])
  | Some (p, false) => (attach p x (fst acc), snd acc)
  | None => acc
  end.

(** [s] has the names of the nodes of [r], and its lists of classes,
    namespaces, unions and directories. *)
Definition same_names (r s : ExhaleRoot) : Prop :=
  class_like s = class_like r /\ namespaces s = namespaces r /\
  unions s = unions r /\ dirs s = dirs r /\
  forall n, name (node s n) = name (node r n).

(** The search [found] gives [n] as the parent of [c]. *)
Definition found_for (found : nat -> option (nat * bool)) (n c : nat) : bool :=
  match found c with
  | Some (p, _) => bool_decide (p = n)
  | None => false
  end.

(** The search records [x] for removal. *)
Definition found_removed (found : nat -> option (nat * bool)) (x : nat)
    : bool :=
  match found x with
  | Some (_, true) => true
  | _ => false
  end.

(** What a reparenting loop over the list [l] makes of the root [s0]: every
    node of [l] for which [found] gives a parent has that parent and is
    appended to its children, in the order of [l], and nothing else
    changes. *)
Definition reparented (found : nat -> option (nat * bool)) (l : list nat)
    (s0 s' : ExhaleRoot) : Prop :=
  s' = with_heap (heap s') s0 /\
  forall n,
    node s' n =
    set_parent
      (if decide (n ∈ l) then
         match found n with
         | Some (p, _) => Some p
         | None => parent (node s0 n)
         end
       else parent (node s0 n))
      (set_children
         (children (node s0 n) ++ List.filter (found_for found n) l)
         (node s0 n)).

(** The search of [reparentClassLike], as a search of [attach_found]. *)
Definition class_parent_found (r : ExhaleRoot) (cl : nat)
    : option (nat * bool) :=
  match find_class_parent r cl with
  | Some p => Some (p, true)
  | None => None
  end.

(** The traversal of [reparentDirectories], reversed: the directories with
    their ranks, the deepest first. *)
Definition dir_traversal (r : ExhaleRoot) : list (nat * nat) :=
  List.rev (py_sort (rank_lt r) (dir_ranks r)).

(** The search of [reparentDirectories] for the directory [d], as a search
    of [attach_found]: the first directory of the traversal that is one
    level above [d] and has the path of [d] without its last segment as its
    name. *)
Definition find_dir_parent (r : ExhaleRoot) (d : nat) : option (nat * bool) :=
  if (dir_rank r d <? 2)%nat then None
  else
    match List.find
            (fun p => (fst p =? dir_rank r d - 1)%nat
                      && (name (node r (snd p)) =? dir_parent_path r d))
            (dir_traversal r) with
    | Some (_, p_directory) => Some (p_directory, true)
    | None => None
    end.

(** [s] is the root [r] with prefixes added to the names of some nodes:
    nothing else differs. *)
Definition renamed (r s : ExhaleRoot) : Prop :=
  s = with_heap (heap s) r /\
  (forall x, node s x = set_name (name (node s x)) (node r x)) /\
  (forall x, exists q, name (node s x) = q +:+ name (node r x)).

(** [s] is the root [r] with the children of some nodes in another order:
    the lists of the root apart, nothing else differs. *)
Definition reordered (r s : ExhaleRoot) : Prop :=
  next_id s = next_id r /\ all_nodes s = all_nodes r /\
  node_by_refid s = node_by_refid r /\ diagnostics s = diagnostics r /\
  forall x,
    node s x = set_children (children (node s x)) (node r x) /\
    Permutation (children (node s x)) (children (node r x)).

(** The names of [a] and [b], lower-cased, are in order. *)
Definition name_le (r : ExhaleRoot) (a b : nat) : Prop :=
  String.leb (Str.lower (name (node r a))) (Str.lower (name (node r b)))
  = true.

(** The classes and structs [a] and [b] are in order: a struct comes before
    a class, and two nodes of one kind are in the order of their names. *)
Definition class_le (r : ExhaleRoot) (a b : nat) : Prop :=
  (kind (node r a) = "struct" /\ kind (node r b) = "class") \/
  (kind (node r a) = kind (node r b) /\ name_le r a b).

(** What [fileRefDiscovery] keeps of the root [r]: the lists and the
    registry; of every node the name, the kind, the refid, the parent and
    what discovery read of its detail record; of the nodes that are not
    files everything but the defining file; a defining file that is set;
    and the children that a node has, in their order. *)
Definition file_refs_frame (r s : ExhaleRoot) : Prop :=
  with_diagnostics (diagnostics r) (with_heap (heap r) s) = r /\
  (exists added, diagnostics s = diagnostics r ++ added) /\
  (forall n,
     name (node s n) = name (node r n) /\ kind (node s n) = kind (node r n) /\
     refid (node s n) = refid (node r n) /\
     parent (node s n) = parent (node r n) /\
     soup (node s n) = soup (node r n) /\
     def_in_file_location (node s n) = def_in_file_location (node r n)) /\
  (forall n,
     n ∉ files r ->
     location (node s n) = location (node r n) /\
     includes (node s n) = includes (node r n) /\
     included_by (node s n) = included_by (node r n) /\
     program_listing (node s n) = program_listing (node r n) /\
     namespaces_used (node s n) = namespaces_used (node r n) /\
     children (node s n) = children (node r n)) /\
  (forall n g,
     def_in_file (node r n) = Some g -> def_in_file (node s n) = Some g) /\
  (forall n, exists added, children (node s n) = children (node r n) ++ added).

(** The root once [fileRefDiscovery] has read the lines of the detail
    record of every file. *)
Definition scanned (inp : Input) (r : ExhaleRoot) : ExhaleRoot :=
  fst (fold_left (scan_file inp) (files r) (r, [])).

(** The location of [f] without the occurrences of
    [doxygenStripFromPath]. *)
Definition stripped_location (strip : string) (r : ExhaleRoot) (f : nat)
    : string :=
  Str.replace strip EmptyString (location (node r f)).

(** No stripped location of a file begins with the path separator. *)
Definition strips_clean (strip : string) (r : ExhaleRoot) (fs : list nat)
    : bool :=
  forallb (fun f => negb (Str.startswith "/" (stripped_location strip r f)))
    fs.

(** The nodes of [s] are located as those of [r]. *)
Definition same_locations (r s : ExhaleRoot) : Prop :=
  forall n, location (node s n) = location (node r n).

(** The detail record of the file [f] parses and has its [compounddef]. *)
Definition record_of_file (inp : Input) (r : ExhaleRoot) (f : nat) : bool :=
  match node_xml inp (refid (node r f)) with
  | Parsed (Some _) => true
  | _ => false
  end.

(** The detail record of the namespace [n], when it parses, has its
    [compounddef]. *)
Definition record_of_namespace (inp : Input) (r : ExhaleRoot) (n : nat)
    : bool :=
  match node_xml inp (refid (node r n)) with
  | Parsed None => false
  | _ => true
  end.

(** The detail records of the files and the namespaces of [r] can be
    read. *)
Definition records_readable (inp : Input) (r : ExhaleRoot) : bool :=
  forallb (record_of_file inp r) (files r)
  && forallb (record_of_namespace inp r) (namespaces r).

(** The file [f] holds its detail record and the location that the record
    gives. *)
Definition file_read (inp : Input) (r : ExhaleRoot) (f : nat) : Prop :=
  exists cdef,
    node_xml inp (refid (node r f)) = Parsed (Some cdef) /\
    soup (node r f) = Some (Some cdef) /\
    def_in_file_location (node r f) = Some (cd_location_file cdef).

(** The document that a node holds is the detail record under its
    refid. *)
Definition records_held (inp : Input) (r : ExhaleRoot) : Prop :=
  forall n doc,
    soup (node r n) = Some doc -> node_xml inp (refid (node r n)) = Parsed doc.

(** [s] has the files and the namespaces of [r], and the refids of its
    nodes. *)
Definition keeps_files (r s : ExhaleRoot) : Prop :=
  files s = files r /\ namespaces s = namespaces r /\
  forall n, refid (node s n) = refid (node r n).

(** [s] has, moreover, what the nodes of [r] hold of their detail
    records. *)
Definition keeps_records (r s : ExhaleRoot) : Prop :=
  keeps_files r s /\
  forall n,
    soup (node s n) = soup (node r n) /\
    def_in_file_location (node s n) = def_in_file_location (node r n).

(** The exception that a call raised, if it raised one. *)
Definition raised {A} (m : result A) : option Exception :=
  match m with
  | Ok _ => None
  | Raise e => Some e
  end.

(** The function [f] of the namespace [n], declared in [inc/a.hpp], with
    the lines of the detail record of the file; Doxygen was given the path
    [/src/] to strip. *)
Definition scanned_file_input : Input :=
  mkInput
    (Some [compound "n" "namespace" "namespacen"
             [member "f" "function" "a_8hpp_1a0f"];
           compound "inc" "dir" "dir_inc" [];
           compound "a.hpp" "file" "a_8hpp" []])
    (fun rid => if rid =? "a_8hpp" then Parsed (Some empty_compounddef)
                else NoContents)
    true
    (fun rid =>
       if rid =? "a_8hpp" then
         Some [mkXmlLine "<includes>vector</includes>" None None
                 (Some "vector") None;
               mkXmlLine "<innernamespace>n</innernamespace>" None None None
                 (Some "namespacen");
               mkXmlLine "<location/>" (Some "/src/inc/a.hpp") None None None;
               mkXmlLine "<programlisting>" None None None None;
               mkXmlLine "void f();" None None None None;
               mkXmlLine "</programlisting>" None None None None]
       else None)
    (Some "/src/").

(** The root that [parse] hands to [fileRefDiscovery]. *)
Definition before_file_refs (inp : Input) : ExhaleRoot :=
  index_nodes (reparentAll (get_or init_root (discoverAllNodes inp init_root))).

(** [dir_path] in [filePostProcess]: the directory part of the location of
    the file [f], when the location has one. *)
Definition dir_path_of (r : ExhaleRoot) (f : nat) : option string :=
  let dir_loc_parts := drop_last 1 (Str.split "/" (location (node r f))) in
  if (length dir_loc_parts =? 0)%nat then None
  else Some (Str.join "/" dir_loc_parts).

(** The node [d] is listed in [dirs], or is of kind [dir]. *)
Definition directory (r : ExhaleRoot) (d : nat) : Prop :=
  d ∈ dirs r \/ kind (node r d) = "dir".

(** The directory [d] is named as the directory part of the location of
    the file [f] of [r]. *)
Definition directory_of (r : ExhaleRoot) (f d : nat) : Prop :=
  f ∈ files r /\ directory r d /\ dir_path_of r f = Some (name (node r d)).

(** What [filePostProcess] makes of [r]: the lists stay, and every
    attribute of a node but the parent and the children; the parent that a
    node gets is a directory named as the directory part of its location,
    and the node is then among the children of that directory; children
    are appended only, to such a directory. *)
Definition files_placed (r s : ExhaleRoot) : Prop :=
  s = with_heap (heap s) r /\
  (forall n,
     set_parent (parent (node r n)) (set_children (children (node r n))
                                       (node s n)) = node r n) /\
  (forall f,
     parent (node s f) = parent (node r f) \/
     exists d,
       parent (node s f) = Some d /\ directory_of r f d /\
       f ∈ children (node s d)) /\
  (forall d,
     exists added,
       children (node s d) = children (node r d) ++ added /\
       forall f, f ∈ added -> directory_of r f d).

(** ** Finding nested nodes *)

(** The five methods [findNestedNamespaces], [findNestedDirectories],
    [findNestedClassLike], [findNestedEnums] and [findNestedUnions] differ
    in the test of the kind only: the node is appended to [lst] when its
    kind is [wanted], and every child is visited with the same list.
    [fuel] bounds the depth of the recursion; the result is [None] when
    the bound is exceeded. *)
Fixpoint find_nested (wanted : string -> bool) (fuel : nat) (r : ExhaleRoot)
    (n : nat) (lst : list nat) : option (list nat) :=
  match fuel with
  | O => None
  | S fuel' =>
      let lst := if wanted (kind (node r n)) then lst ++ [n] else lst in
      fold_left
        (fun acc c =>
           match acc with
           | Some lst => find_nested wanted fuel' r c lst
           | None => None
           end)
        (children (node r n)) (Some lst)
  end.

(** [ExhaleNode.findNestedNamespaces] *)
Definition findNestedNamespaces :=
  find_nested (fun k => k =? "namespace").

(** [ExhaleNode.findNestedDirectories] *)
Definition findNestedDirectories :=
  find_nested (fun k => k =? "dir").

(** [ExhaleNode.findNestedClassLike] *)
Definition findNestedClassLike :=
  find_nested (fun k => (k =? "class") || (k =? "struct")).

(** [ExhaleNode.findNestedEnums] *)
Definition findNestedEnums :=
  find_nested (fun k => k =? "enum").

(** [ExhaleNode.findNestedUnions] *)
Definition findNestedUnions :=
  find_nested (fun k => k =? "union").

(** The loop of [generateNodeDocuments] over [self.class_like], for one of
    the three lists that it fills. *)
Definition nested_in_classes
    (find : nat -> ExhaleRoot -> nat -> list nat -> option (list nat))
    (fuel : nat) (r : ExhaleRoot) : option (list nat) :=
  fold_left
    (fun acc cl =>
       match acc with
       | Some lst => find fuel r cl lst
       | None => None
       end)
    (class_like r) (Some []).

(** The node [x] is [n], or a child of [n], or a child of a child, and so
    on. *)
Inductive descendant (r : ExhaleRoot) (n : nat) : nat -> Prop :=
  | descendant_self : descendant r n n
  | descendant_child c x :
      c ∈ children (node r n) -> descendant r c x -> descendant r n x.


(** The namespace [n] with the variable [MAX], and the namespace [n::k]
    with the function [c]; the detail record of [n] lists the union [n::V]
    and the namespace [n::k], that of [n::k] the union [n::k::W]. *)
Definition scoped_children_input : Input :=
  mkInput
    (Some [compound "n" "namespace" "namespacen"
             [member "MAX" "variable" "namespacen_1a3c"];
           compound "n::V" "union" "unionn_1_1V" [];
           compound "n::k" "namespace" "namespacen_1_1k"
             [member "c" "function" "namespacen_1_1k_1a0c"];
           compound "n::k::W" "union" "unionn_1_1k_1_1W" []])
    (fun rid =>
       if rid =? "namespacen" then
         Parsed (Some (mkCompoundDef [Some "unionn_1_1V"]
                         [Some "namespacen_1_1k"] [] [] None None))
       else if rid =? "namespacen_1_1k" then
         Parsed (Some (mkCompoundDef [Some "unionn_1_1k_1_1W"] [] [] [] None
                         None))
       else NoContents)
    true (fun _ => None) None.

(** The root that [reparentAll] hands to [renameToNamespaceScopes]. *)
Definition before_renaming (inp : Input) : ExhaleRoot :=
  reparentDirectories
    (reparentClassLike
       (reparentUnions (get_or init_root (discoverAllNodes inp init_root)))).

(** The namespace [m], whose detail record lists the namespace [k], and
    the namespace [k] with the function [c]. *)
Definition renamed_namespace_input : Input :=
  mkInput
    (Some [compound "m" "namespace" "namespacem" [];
           compound "k" "namespace" "namespacek"
             [member "c" "function" "namespacek_1a0c"]])
    (fun rid =>
       if rid =? "namespacem" then
         Parsed (Some (mkCompoundDef [] [Some "namespacek"] [] [] None None))
       else NoContents)
    true (fun _ => None) None.

(** The namespaces [a] and [b], whose detail records both list the class
    [C]. *)
Definition two_namespaces_input : Input :=
  mkInput
    (Some [compound "a" "namespace" "namespacea" [];
           compound "b" "namespace" "namespaceb" [];
           compound "C" "class" "classC" []])
    (fun rid =>
       if (rid =? "namespacea") || (rid =? "namespaceb") then
         Parsed (Some (mkCompoundDef [Some "classC"] [] [] [] None None))
       else NoContents)
    true (fun _ => None) None.


(** * Properties *)

(** ** Sorting permutes *)

Section SortingFacts.
Context {A : Type} (lt : A -> A -> bool).

Lemma insert_back_perm x rl : Permutation (insert_back lt x rl) (x :: rl).
Proof.
  induction rl as [|y rl IH]; simpl; [reflexivity|].
  destruct (lt x y); [|reflexivity].
  rewrite IH. apply perm_swap.
Qed.

Lemma fold_insert_back_perm l acc :
  Permutation (fold_left (fun acc x => insert_back lt x acc) l acc) (l ++ acc).
Proof.
  revert acc. induction l as [|x l IH]; intros acc; simpl; [reflexivity|].
  rewrite IH, insert_back_perm. symmetry. apply Permutation_middle.
Qed.

Lemma py_sort_perm l : Permutation (py_sort lt l) l.
Proof.
  unfold py_sort. rewrite <- Permutation_rev, fold_insert_back_perm.
  now rewrite app_nil_r.
Qed.

Lemma py_sort_elem_of l x : x ∈ py_sort lt l <-> x ∈ l.
Proof. now rewrite (py_sort_perm l). Qed.
End SortingFacts.

(** ** The order on nodes *)

Lemma ltb_irrefl s : Str.ltb s s = false.
Proof.
  unfold Str.ltb, String.ltb. pose proof (String.compare_antisym s s) as H.
  destruct (String.compare s s); simpl in H; congruence.
Qed.

Lemma ltb_asym s t : Str.ltb s t = true -> Str.ltb t s = false.
Proof.
  unfold Str.ltb, String.ltb. rewrite (String.compare_antisym s t).
  destruct (String.compare t s); simpl; congruence.
Qed.

Lemma is_class_like_false k :
  is_class_like k = false -> (k =? "struct") = false /\ (k =? "class") = false.
Proof. unfold is_class_like. apply orb_false_elim. Qed.

Lemma is_class_like_true k :
  is_class_like k = true -> k = "struct" \/ k = "class".
Proof.
  unfold is_class_like. intros [H|H]%orb_true_iff;
    apply String.eqb_eq in H; auto.
Qed.

Lemma node_lt_same_kind a b :
  kind a = kind b ->
  node_lt a b = Str.ltb (Str.lower (name a)) (Str.lower (name b)).
Proof. intros E. unfold node_lt. now rewrite E, String.eqb_refl. Qed.

Lemma node_lt_struct_class s c :
  kind s = "struct" -> kind c = "class" ->
  node_lt s c = true /\ node_lt c s = false.
Proof. intros Hs Hc. unfold node_lt. now rewrite Hs, Hc. Qed.

Lemma node_lt_other_kinds a b :
  kind a <> kind b -> is_class_like (kind a) = false ->
  node_lt a b = Str.ltb (kind a) (kind b).
Proof.
  intros Hne [Hs Hc]%is_class_like_false. unfold node_lt.
  apply String.eqb_neq in Hne. now rewrite Hne, Hs, Hc.
Qed.

Lemma node_lt_class_like_first a b :
  is_class_like (kind a) = true -> is_class_like (kind b) = false ->
  node_lt a b = true.
Proof.
  intros Ha Hb. pose proof Hb as [Hs Hc]%is_class_like_false.
  assert (Hne : (kind a =? kind b) = false).
  { apply String.eqb_neq. intros E. rewrite E in Ha. congruence. }
  unfold node_lt. rewrite Hne, Hs, Hc.
  unfold is_class_like in Ha. now rewrite Ha.
Qed.

(** C2, as stated, fails: a struct is smaller than a function because it is
    a struct, and the function is smaller than the struct because
    ["function"] sorts before ["struct"]; the comparison is not asymmetric,
    and the struct is smaller although its kind tag is larger. *)
Lemma node_lt_not_asymmetric :
  let a := init_node "Point" "struct" "structPoint" in
  let b := init_node "distance" "function" "namespacen_1a5d" in
  kind a <> kind b /\
  ~ (is_class_like (kind a) = true /\ is_class_like (kind b) = true) /\
  node_lt a b = true /\ node_lt b a = true /\
  Str.ltb (kind a) (kind b) = false.
Proof.
  simpl. repeat split; try reflexivity; [discriminate|].
  intros [_ H]. vm_compute in H. discriminate.
Qed.

(** C2 (amended): the comparison of nodes is irreflexive; it is asymmetric on
    two nodes that are both structs or classes, or neither; when the kinds
    differ and neither node is a struct or a class, [a < b] holds exactly
    when the kind tag of [a] is lexicographically smaller than that of [b];
    and a struct or class is smaller than every node of another family. *)
Theorem node_lt_contract (a b : ExhaleNode) :
  node_lt a a = false /\
  (is_class_like (kind a) = is_class_like (kind b) ->
   node_lt a b = true -> node_lt b a = false) /\
  (kind a <> kind b ->
   is_class_like (kind a) = false -> is_class_like (kind b) = false ->
   (node_lt a b = true <-> Str.ltb (kind a) (kind b) = true)) /\
  (is_class_like (kind a) = true -> is_class_like (kind b) = false ->
   node_lt a b = true).
Proof.
  split; [|split; [|split]].
  - rewrite node_lt_same_kind by reflexivity. apply ltb_irrefl.
  - intros Hfam Hlt.
    destruct (decide (kind a = kind b)) as [E|Hne].
    + rewrite node_lt_same_kind in * by congruence. now apply ltb_asym.
    + destruct (is_class_like (kind a)) eqn:Ha; symmetry in Hfam.
      * destruct (is_class_like_true _ Ha) as [Ea|Ea],
                 (is_class_like_true _ Hfam) as [Eb|Eb]; try congruence.
        -- now apply node_lt_struct_class.
        -- destruct (node_lt_struct_class b a Eb Ea). congruence.
      * rewrite node_lt_other_kinds in * by (congruence || auto).
        now apply ltb_asym.
  - intros Hne Ha Hb. now rewrite node_lt_other_kinds.
  - apply node_lt_class_like_first.
Qed.

Lemma node_lt_contract_witness :
  let a := init_node "MAX_DEPTH" "variable" "v1" in
  let b := init_node "Mode" "enum" "e1" in
  let c := init_node "Camera" "class" "c1" in
  node_lt a a = false /\ node_lt a b = false /\
  (node_lt b a = true <-> Str.ltb (kind b) (kind a) = true) /\
  node_lt c a = true.
Proof.
  intros a b c.
  destruct (node_lt_contract b a) as (_ & Hasym & Hkind & _).
  destruct (node_lt_contract c a) as (_ & _ & _ & Hfirst).
  destruct (node_lt_contract a a) as (Hirr & _).
  split; [exact Hirr|].
  split; [apply Hasym; reflexivity|].
  split; [apply Hkind; [discriminate|reflexivity|reflexivity]|].
  apply Hfirst; reflexivity.
Defined.

(** C3, as stated, fails: for a class and a struct with different names the
    struct still comes first, whatever the names. *)
Lemma node_lt_ignores_names_across_struct_class :
  let c := init_node "Alpha" "class" "classAlpha" in
  let s := init_node "Zeta" "struct" "structZeta" in
  Str.ltb (Str.lower (name c)) (Str.lower (name s)) = true /\
  node_lt c s = false /\ node_lt s c = true.
Proof. repeat split; reflexivity. Qed.

(** C3 (amended): a struct sorts before a class, whatever their names are;
    sorting a class followed by a struct yields the struct followed by the
    class, as for [[Class("Foo"), Struct("Foo")]]. *)
Theorem struct_sorts_before_class (s c : ExhaleNode) :
  kind s = "struct" -> kind c = "class" ->
  node_lt s c = true /\ node_lt c s = false /\
  py_sort node_lt [c; s] = [s; c].
Proof.
  intros Hs Hc. destruct (node_lt_struct_class s c Hs Hc) as [H1 H2].
  repeat split; try assumption.
  unfold py_sort. simpl. now rewrite H1.
Qed.

Lemma struct_sorts_before_class_witness :
  let s := init_node "Foo" "struct" "structFoo" in
  let c := init_node "Foo" "class" "classFoo" in
  node_lt s c = true /\ node_lt c s = false /\
  py_sort node_lt [c; s] = [s; c].
Proof.
  intros s c. apply (struct_sorts_before_class s c); reflexivity.
Defined.

(** ** Registration *)

Lemma is_ok_get_or {A} (d : A) (m : result A) :
  is_ok m = true -> m = Ok (get_or d m).
Proof. destruct m; [reflexivity|discriminate]. Qed.

(** Evaluate a run that returns, and the facts stated about its result. *)
Ltac run_ok m :=
  exists (get_or init_root m);
  split; [apply is_ok_get_or; vm_compute; reflexivity
         |vm_compute; repeat split].

(** C1: the function [f] of the namespace [n], declared in [a.hpp], is listed
    under one refid by both compounds of the index; discovery registers two
    objects for it, both in [all_nodes], and [node_by_refid] keeps the second
    one only. *)
Theorem discovery_registers_a_refid_twice :
  exists r,
    discoverAllNodes shared_member_input init_root = Ok r /\
    all_nodes r = [0; 1; 2; 3] /\
    refid (node r 1) = "namespacen_1a0f" /\
    refid (node r 3) = "namespacen_1a0f" /\
    functions r = [1; 3] /\
    dict_get "namespacen_1a0f" (node_by_refid r) = Some 3.
Proof. run_ok (discoverAllNodes shared_member_input init_root). Qed.

(** C4: with the namespace [A], its class [A::B] and the union [A::B::U],
    [reparentUnions] compares the class names with the segment [B] alone:
    the union becomes a child of the namespace and stays in [unions], and
    the class gets no child. *)
Theorem nested_union_goes_to_the_namespace :
  exists r0,
    discoverAllNodes nested_union_input init_root = Ok r0 /\
    let r := reparentUnions r0 in
    kind (node r 0) = "namespace" /\ name (node r 0) = "A" /\
    kind (node r 1) = "class" /\ name (node r 1) = "A::B" /\
    kind (node r 2) = "union" /\ name (node r 2) = "A::B::U" /\
    class_like r = [1] /\
    parent (node r 2) = Some 0 /\ children (node r 0) = [2] /\
    children (node r 1) = [] /\ unions r = [2].
Proof. run_ok (discoverAllNodes nested_union_input init_root). Qed.


(** ** The heap under assignments *)

Lemma node_upd r n f m :
  node (upd n f r) m = if decide (m = n) then f (node r m) else node r m.
Proof. reflexivity. Qed.

Lemma node_upd_eq r n f : node (upd n f r) n = f (node r n).
Proof. rewrite node_upd. now destruct (decide (n = n)). Qed.

Lemma node_upd_ne r n f m : m <> n -> node (upd n f r) m = node r m.
Proof. intros H. rewrite node_upd. now destruct (decide (m = n)). Qed.

(** An assignment that keeps a field of the object keeps it on the heap. *)
Lemma node_upd_field {B} (proj : ExhaleNode -> B) r n f m :
  (forall nd, proj (f nd) = proj nd) ->
  proj (node (upd n f r) m) = proj (node r m).
Proof. intros H. rewrite node_upd. destruct (decide (m = n)); auto. Qed.

(** A loop whose body keeps a property keeps it. *)
Lemma fold_left_invariant {S A} (P : S -> Prop) (body : S -> A -> S) l s :
  (forall s x, P s -> P (body s x)) -> P s -> P (fold_left body l s).
Proof. intros Hbody. revert s. induction l; simpl; auto. Qed.

(** ** Renaming to namespace scopes *)

Lemma rename_child_name p r c x :
  name (node (rename_child p r c) x) =
  if decide (x = c) then scoped_name p (name (node r c)) else name (node r x).
Proof.
  unfold rename_child, scoped_name.
  destruct (Str.contains p (name (node r c))) eqn:E.
  - destruct (decide (x = c)); congruence.
  - rewrite node_upd. destruct (decide (x = c)); [subst|]; reflexivity.
Qed.

Lemma rename_child_children p r c x :
  children (node (rename_child p r c) x) = children (node r x).
Proof.
  unfold rename_child. destruct (Str.contains _ _); [reflexivity|].
  now apply (node_upd_field children).
Qed.

Lemma rename_children_children p cs r x :
  children (node (fold_left (rename_child p) cs r) x) = children (node r x).
Proof.
  revert r. induction cs as [|c cs IH]; intros r; simpl; [reflexivity|].
  now rewrite IH, rename_child_children.
Qed.

Lemma rename_children_name_other p cs r x :
  x ∉ cs ->
  name (node (fold_left (rename_child p) cs r) x) = name (node r x).
Proof.
  revert r. induction cs as [|c cs IH]; intros r Hx; simpl; [reflexivity|].
  apply not_elem_of_cons in Hx as [Hne Hx].
  rewrite IH, rename_child_name by assumption.
  now destruct (decide (x = c)).
Qed.

Lemma rename_namespace_children r n x :
  children (node (rename_namespace r n) x) = children (node r x).
Proof. apply rename_children_children. Qed.

Lemma renamed_children_rename_namespace r n ns :
  renamed_children (rename_namespace r n) ns = renamed_children r ns.
Proof.
  unfold renamed_children. induction ns as [|m ns IH]; simpl; [reflexivity|].
  now rewrite IH, rename_namespace_children.
Qed.

Lemma rename_namespaces_name_other ns r x :
  x ∉ renamed_children r ns ->
  name (node (fold_left rename_namespace ns r) x) = name (node r x).
Proof.
  revert r. induction ns as [|m ns IH]; intros r Hx; simpl; [reflexivity|].
  simpl in Hx. apply not_elem_of_app in Hx as [Hm Hx].
  rewrite IH by now rewrite renamed_children_rename_namespace.
  now apply rename_children_name_other.
Qed.

(** C6, as stated, fails: the function [str_util::trim] of the namespace
    [util] does not begin with [util::], and keeps its name, because the
    text [util::] occurs inside it. *)
Lemma rename_skips_names_holding_the_prefix :
  exists r0,
    discoverAllNodes inner_scope_input init_root = Ok r0 /\
    let r := renameToNamespaceScopes r0 in
    namespaces r0 = [0] /\ children (node r0 0) = [1] /\
    name (node r0 0) = "util" /\ name (node r0 1) = "str_util::trim" /\
    Str.startswith "util::" (name (node r0 1)) = false /\
    name (node r 1) = "str_util::trim".
Proof. run_ok (discoverAllNodes inner_scope_input init_root). Qed.

(** ** The check of the children of the files *)

Lemma check_file_child_def f r c x :
  def_in_file (node (check_file_child f r c) x) =
  if decide (x = c) then
    match def_in_file (node r c) with Some g => Some g | None => Some f end
  else def_in_file (node r x).
Proof.
  unfold check_file_child.
  destruct (def_in_file (node r c)) as [g|] eqn:E.
  - destruct (decide (g = f)), (decide (x = c)); subst; auto.
  - rewrite node_upd. destruct (decide (x = c)); subst; auto.
Qed.

Lemma check_file_child_name f r c x :
  name (node (check_file_child f r c) x) = name (node r x).
Proof.
  unfold check_file_child. destruct (def_in_file (node r c)) as [g|].
  - now destruct (decide (g = f)).
  - now apply (node_upd_field name).
Qed.

Lemma check_file_child_children f r c x :
  children (node (check_file_child f r c) x) = children (node r x).
Proof.
  unfold check_file_child. destruct (def_in_file (node r c)) as [g|].
  - now destruct (decide (g = f)).
  - now apply (node_upd_field children).
Qed.

Lemma check_file_child_diagnostics f r c m :
  m ∈ diagnostics r -> m ∈ diagnostics (check_file_child f r c).
Proof.
  unfold check_file_child. destruct (def_in_file (node r c)) as [g|]; auto.
  destruct (decide (g = f)); auto.
  intros H. simpl. apply elem_of_app. now left.
Qed.

Lemma check_file_child_conflict f r c g :
  def_in_file (node r c) = Some g -> g <> f ->
  MsgConflictingFileChild (name (node r c)) (name (node r g)) (name (node r f))
  ∈ diagnostics (check_file_child f r c).
Proof.
  intros E Hne. unfold check_file_child. rewrite E.
  destruct (decide (g = f)); [contradiction|].
  simpl. apply elem_of_app. right. now apply list_elem_of_singleton.
Qed.

(** The inner loop, over the children [cs] of the file [f]. *)
Section CheckChildren.
Variable f : nat.

Lemma check_children_name cs r x :
  name (node (fold_left (check_file_child f) cs r) x) = name (node r x).
Proof.
  revert r. induction cs as [|c cs IH]; intros r; simpl; [reflexivity|].
  simpl. now rewrite IH, check_file_child_name.
Qed.

Lemma check_children_children cs r x :
  children (node (fold_left (check_file_child f) cs r) x) = children (node r x).
Proof.
  revert r. induction cs as [|c cs IH]; intros r; simpl; [reflexivity|].
  simpl. now rewrite IH, check_file_child_children.
Qed.

Lemma check_children_files cs r :
  files (fold_left (check_file_child f) cs r) = files r.
Proof.
  revert r. induction cs as [|c cs IH]; intros r; [reflexivity|].
  simpl. rewrite IH. unfold check_file_child.
  destruct (def_in_file (node r c)) as [g|]; [|reflexivity].
  now destruct (decide (g = f)).
Qed.

Lemma check_children_diagnostics cs r m :
  m ∈ diagnostics r -> m ∈ diagnostics (fold_left (check_file_child f) cs r).
Proof.
  revert r. induction cs as [|c cs IH]; intros r H; [assumption|].
  simpl. now apply IH, check_file_child_diagnostics.
Qed.

Lemma check_children_def_some cs r x g :
  def_in_file (node r x) = Some g ->
  def_in_file (node (fold_left (check_file_child f) cs r) x) = Some g.
Proof.
  revert r. induction cs as [|c cs IH]; intros r H; [assumption|].
  simpl. apply IH. rewrite check_file_child_def.
  destruct (decide (x = c)); [subst; now rewrite H|assumption].
Qed.

Lemma check_children_def_other cs r x :
  x ∉ cs ->
  def_in_file (node (fold_left (check_file_child f) cs r) x) =
  def_in_file (node r x).
Proof.
  revert r. induction cs as [|c cs IH]; intros r H; [reflexivity|].
  apply not_elem_of_cons in H as [Hne H].
  simpl. rewrite IH, check_file_child_def by assumption.
  now destruct (decide (x = c)).
Qed.

Lemma check_children_def_none cs r x :
  x ∈ cs -> def_in_file (node r x) = None ->
  def_in_file (node (fold_left (check_file_child f) cs r) x) = Some f.
Proof.
  revert r. induction cs as [|c cs IH]; intros r Hin E.
  - now apply elem_of_nil in Hin.
  - simpl. destruct (decide (x = c)) as [->|Hne].
    + apply check_children_def_some. rewrite check_file_child_def.
      destruct (decide (c = c)); [now rewrite E|contradiction].
    + apply elem_of_cons in Hin as [?|Hin]; [contradiction|].
      apply IH; [assumption|]. rewrite check_file_child_def.
      now destruct (decide (x = c)).
Qed.

Lemma check_children_conflict cs r x g :
  x ∈ cs -> def_in_file (node r x) = Some g -> g <> f ->
  MsgConflictingFileChild (name (node r x)) (name (node r g)) (name (node r f))
  ∈ diagnostics (fold_left (check_file_child f) cs r).
Proof.
  revert r. induction cs as [|c cs IH]; intros r Hin E Hne.
  - now apply elem_of_nil in Hin.
  - simpl. destruct (decide (x = c)) as [->|Hxc].
    + apply check_children_diagnostics. now apply check_file_child_conflict.
    + apply elem_of_cons in Hin as [?|Hin]; [contradiction|].
      rewrite <- !(check_file_child_name f r c).
      apply IH; [assumption| |assumption].
      rewrite check_file_child_def. now destruct (decide (x = c)).
Qed.
End CheckChildren.

(** The loop over the files [fs]. *)
Lemma check_files_name fs r x :
  name (node (fold_left check_children_of fs r) x) = name (node r x).
Proof.
  revert r. induction fs as [|f fs IH]; intros r; simpl; [reflexivity|].
  rewrite IH. apply check_children_name.
Qed.

Lemma check_files_children fs r x :
  children (node (fold_left check_children_of fs r) x) = children (node r x).
Proof.
  revert r. induction fs as [|f fs IH]; intros r; simpl; [reflexivity|].
  rewrite IH. apply check_children_children.
Qed.

Lemma check_files_diagnostics fs r m :
  m ∈ diagnostics r -> m ∈ diagnostics (fold_left check_children_of fs r).
Proof.
  revert r. induction fs as [|f fs IH]; intros r H; simpl; [assumption|].
  now apply IH, check_children_diagnostics.
Qed.

Lemma check_files_def_some fs r x g :
  def_in_file (node r x) = Some g ->
  def_in_file (node (fold_left check_children_of fs r) x) = Some g.
Proof.
  revert r. induction fs as [|f fs IH]; intros r H; simpl; [assumption|].
  now apply IH, check_children_def_some.
Qed.

Lemma check_files_conflict fs r f c g :
  f ∈ fs -> c ∈ children (node r f) ->
  def_in_file (node r c) = Some g -> g <> f ->
  MsgConflictingFileChild (name (node r c)) (name (node r g)) (name (node r f))
  ∈ diagnostics (fold_left check_children_of fs r).
Proof.
  revert r. induction fs as [|f0 fs IH]; intros r Hf Hc E Hne; simpl.
  - now apply elem_of_nil in Hf.
  - destruct (decide (f = f0)) as [->|Hff].
    + apply check_files_diagnostics.
      now apply check_children_conflict.
    + apply elem_of_cons in Hf as [?|Hf]; [contradiction|].
      rewrite <- !(check_children_name f0 (children (node r f0)) r).
      apply IH; [assumption| | |assumption].
      * unfold check_children_of. now rewrite check_children_children.
      * now apply check_children_def_some.
Qed.

Lemma check_files_unset fs r f c :
  f ∈ fs -> c ∈ children (node r f) -> def_in_file (node r c) = None ->
  exists before f' after,
    fs = before ++ f' :: after /\
    c ∈ children (node r f') /\
    (forall x, x ∈ before -> c ∉ children (node r x)) /\
    def_in_file (node (fold_left check_children_of fs r) c) = Some f' /\
    (f' <> f ->
     MsgConflictingFileChild (name (node r c)) (name (node r f'))
       (name (node r f))
     ∈ diagnostics (fold_left check_children_of fs r)).
Proof.
  revert r. induction fs as [|f0 fs IH]; intros r Hf Hc E; simpl.
  - now apply elem_of_nil in Hf.
  - destruct (decide (c ∈ children (node r f0))) as [Hc0|Hc0].
    + exists [], f0, fs.
      assert (E1 : def_in_file (node (check_children_of r f0) c) = Some f0)
        by now apply check_children_def_none.
      split; [reflexivity|]. split; [assumption|].
      split; [intros x Hx; now apply elem_of_nil in Hx|].
      split; [now apply check_files_def_some|].
      intros Hne. apply elem_of_cons in Hf as [?|Hf]; [congruence|].
      rewrite <- !(check_children_name f0 (children (node r f0)) r).
      apply check_files_conflict; [assumption| |assumption|assumption].
      unfold check_children_of. now rewrite check_children_children.
    + apply elem_of_cons in Hf as [->|Hf]; [contradiction|].
      destruct (IH (check_children_of r f0) Hf) as
        (before & f' & after & -> & Hc' & Hbefore & Hdef & Hmsg).
      * unfold check_children_of. now rewrite check_children_children.
      * unfold check_children_of.
        now rewrite check_children_def_other.
      * unfold check_children_of in Hc', Hbefore, Hmsg.
        rewrite check_children_children in Hc'.
        rewrite !check_children_name in Hmsg.
        exists (f0 :: before), f', after.
        split; [reflexivity|]. split; [assumption|].
        split; [|split; assumption].
        intros x [->|Hx]%elem_of_cons; [assumption|].
        specialize (Hbefore x Hx).
        now rewrite check_children_children in Hbefore.
Qed.

(** C9: in the check of the children of the files, for a file [f] and a
    child [c] of [f]: when the defining file of [c] is unset, it is set to
    the first file that lists [c], which is [f] unless an earlier file lists
    [c] too; when it is already set to a file [g], it stays [g]; in both
    cases, when the file it has differs from [f], the diagnostic of the
    conflict between that file and [f] is emitted.  The check is a total
    function on roots: nothing is raised and the pipeline goes on. *)
Theorem file_children_know_their_file (r : ExhaleRoot) (f c : nat) :
  f ∈ files r -> c ∈ children (node r f) ->
  let r' := check_file_children r in
  let conflict_with g :=
    MsgConflictingFileChild (name (node r c)) (name (node r g))
      (name (node r f)) in
  match def_in_file (node r c) with
  | None =>
      exists f', first_listing_file r c f' /\
                 def_in_file (node r' c) = Some f' /\
                 (f' <> f -> conflict_with f' ∈ diagnostics r')
  | Some g =>
      def_in_file (node r' c) = Some g /\
      (g <> f -> conflict_with g ∈ diagnostics r')
  end.
Proof.
  intros Hf Hc. simpl. unfold check_file_children.
  destruct (def_in_file (node r c)) as [g|] eqn:E.
  - split; [now apply check_files_def_some|].
    intros Hne. now apply check_files_conflict.
  - destruct (check_files_unset (files r) r f c Hf Hc E)
      as (before & f' & after & Hfs & Hc' & Hbefore & Hdef & Hmsg).
    exists f'. split; [|split; assumption].
    exists before, after. auto.
Qed.

Lemma file_children_know_their_file_witness :
  (1 ∈ files two_owners /\ 2 ∈ children (node two_owners 1)) /\
  def_in_file (node two_owners 2) = None /\
  def_in_file (node (check_file_children two_owners) 2) = Some 0 /\
  MsgConflictingFileChild "C" "a.hpp" "b.hpp"
  ∈ diagnostics (check_file_children two_owners).
Proof.
  assert (H : 1 ∈ files two_owners /\ 2 ∈ children (node two_owners 1))
    by (split; compute_done).
  split; [exact H|]. destruct H as [H1 H2].
  pose proof (file_children_know_their_file two_owners 1 2 H1 H2) as T.
  cbv zeta in T.
  assert (E : def_in_file (node two_owners 2) = None) by reflexivity.
  rewrite E in T. split; [exact E|].
  destruct T as (f' & _ & Hdef & Hmsg).
  assert (E' : def_in_file (node (check_file_children two_owners) 2) = Some 0)
    by (vm_compute; reflexivity).
  split; [exact E'|].
  assert (f' = 0) by congruence. subst f'.
  apply Hmsg. discriminate.
Defined.

(** ** Dictionaries *)

Section DictFacts.
Context {K V : Type} `{EqDecision K}.
Implicit Types (d : list (K * V)) (k : K) (v : V).

Lemma dict_get_set_eq k v d : dict_get k (dict_set k v d) = Some v.
Proof.
  induction d as [|[k' v'] d IH]; simpl.
  - now destruct (decide (k = k)).
  - destruct (decide (k = k')); simpl.
    + now destruct (decide (k = k)).
    + now destruct (decide (k = k')).
Qed.

Lemma dict_get_set_ne k k' v d :
  k <> k' -> dict_get k' (dict_set k v d) = dict_get k' d.
Proof.
  intros Hne. induction d as [|[k0 v0] d IH]; simpl.
  - destruct (decide (k' = k)); congruence.
  - destruct (decide (k = k0)); simpl.
    + subst. destruct (decide (k' = k0)); congruence.
    + destruct (decide (k' = k0)); congruence.
Qed.

Lemma dict_get_set k k' v d :
  dict_get k' (dict_set k v d) =
  if decide (k' = k) then Some v else dict_get k' d.
Proof.
  destruct (decide (k' = k)) as [->|Hne].
  - apply dict_get_set_eq.
  - apply dict_get_set_ne. congruence.
Qed.

Lemma dict_get_keys k v d : dict_get k d = Some v -> k ∈ dict_keys d.
Proof.
  induction d as [|[k' v'] d IH]; simpl; [discriminate|].
  destruct (decide (k = k')) as [->|Hne]; intros H.
  - apply elem_of_cons. now left.
  - apply elem_of_cons. right. auto.
Qed.

Lemma dict_keys_get k d : k ∈ dict_keys d -> is_Some (dict_get k d).
Proof.
  induction d as [|[k' v'] d IH]; simpl.
  - intros H. now apply elem_of_nil in H.
  - destruct (decide (k = k')); [eauto|].
    intros [?|?]%elem_of_cons; [contradiction|auto].
Qed.

(** A dictionary filled by a loop over keys [ks] that assigns [g k] to the
    keys [k] for which there is a value. *)
Lemma dict_get_fold_set (g : K -> option V)
    (step : list (K * V) -> K -> list (K * V)) ks d k :
  (forall d k, step d k = match g k with Some v => dict_set k v d | None => d end) ->
  dict_get k (fold_left step ks d) =
  if decide (k ∈ ks) then
    match g k with Some v => Some v | None => dict_get k d end
  else dict_get k d.
Proof.
  intros Hstep. revert d. induction ks as [|k0 ks IH]; intros d; simpl.
  - destruct (decide (k ∈ [])) as [H|_]; [|reflexivity].
    now apply elem_of_nil in H.
  - rewrite IH, Hstep.
    destruct (decide (k = k0)) as [->|Hne].
    + destruct (decide (k0 ∈ k0 :: ks)) as [_|H];
        [|exfalso; apply H, elem_of_cons; now left].
      destruct (g k0) as [v|].
      * rewrite dict_get_set_eq. now destruct (decide (k0 ∈ ks)).
      * now destruct (decide (k0 ∈ ks)).
    + assert (Hd : dict_get k
                     match g k0 with Some v => dict_set k0 v d | None => d end
                   = dict_get k d).
      { destruct (g k0); [|reflexivity]. apply dict_get_set_ne. congruence. }
      rewrite Hd.
      destruct (decide (k ∈ ks)) as [H|H], (decide (k ∈ k0 :: ks)) as [H'|H'];
        try reflexivity; exfalso.
      * apply H', elem_of_cons. now right.
      * apply elem_of_cons in H' as [?|?]; contradiction.
Qed.
End DictFacts.

(** ** The files that may define a node *)


Lemma no_candidates_get (missing : list (string * nat)) rid :
  dict_get rid (no_candidates missing) =
  if dict_mem rid missing then Some [] else None.
Proof.
  unfold no_candidates.
  rewrite (dict_get_fold_set (fun _ => Some [])) by reflexivity.
  unfold dict_mem. destruct (dict_get rid missing) as [nd|] eqn:E.
  - destruct (decide _) as [_|H]; [reflexivity|].
    exfalso. apply H. eapply dict_get_keys, E.
  - destruct (decide _) as [H|_]; [|reflexivity].
    apply dict_keys_get in H as [v H]. congruence.
Qed.

Lemma mem_true x l : mem x l = true <-> x ∈ l.
Proof. unfold mem. apply bool_decide_eq_true. Qed.

Lemma mem_false x l : mem x l = false <-> x ∉ l.
Proof. unfold mem. apply bool_decide_eq_false. Qed.

Lemma mem_app_self x l : mem x (l ++ [x]) = true.
Proof. apply mem_true, elem_of_app. right. now apply list_elem_of_singleton. Qed.

Lemma listing_ref_get missing f cands ref rid l :
  dict_mem rid missing = true -> dict_get rid cands = Some l ->
  dict_get rid (listing_ref missing f cands ref) =
  Some (if ref_matches ref rid && negb (mem f l) then l ++ [f] else l).
Proof.
  intros Hmiss Hl. unfold listing_ref, ref_matches.
  destruct (r_refid ref) as [rid'|]; [|now rewrite Hl].
  destruct (decide (rid' = rid)) as [->|Hne].
  - rewrite (bool_decide_eq_true_2 (Some rid = Some rid) eq_refl). simpl.
    destruct (bool_decide (r_kindref ref = Some "member")); [|now rewrite Hl].
    rewrite Hmiss, Hl. simpl.
    destruct (mem f l); simpl; [assumption|apply dict_get_set_eq].
  - rewrite (bool_decide_eq_false_2 (Some rid' = Some rid)) by congruence.
    simpl.
    destruct (bool_decide (r_kindref ref = Some "member")); [|assumption].
    destruct (dict_mem rid' missing); [|assumption].
    destruct (mem f _); [assumption|].
    now rewrite dict_get_set_ne.
Qed.

Lemma listing_refs_get missing f refs cands rid l :
  dict_mem rid missing = true -> dict_get rid cands = Some l ->
  dict_get rid (fold_left (listing_ref missing f) refs cands) =
  Some (if refers refs rid && negb (mem f l) then l ++ [f] else l).
Proof.
  intros Hmiss. revert cands l.
  induction refs as [|ref refs IH]; intros cands l Hl; simpl; [assumption|].
  rewrite (IH _ _ (listing_ref_get missing f cands ref rid l Hmiss Hl)).
  destruct (ref_matches ref rid); simpl.
  - destruct (mem f l) eqn:E; simpl.
    + rewrite E. now rewrite andb_false_r.
    + rewrite mem_app_self. now rewrite andb_false_r.
  - reflexivity.
Qed.

Lemma listing_candidates_get r missing cands f cdef :
  soup (node r f) = Some (Some cdef) ->
  exists cands',
    listing_candidates r missing cands f = Ok cands' /\
    forall rid l,
      dict_mem rid missing = true -> dict_get rid cands = Some l ->
      dict_get rid cands' =
      Some (if file_refers r f rid && negb (mem f l) then l ++ [f] else l).
Proof.
  intros Hsoup. unfold listing_candidates, file_refers. rewrite Hsoup.
  destruct (cd_programlisting cdef) as [refs|].
  - eexists. split; [reflexivity|]. intros rid l. apply listing_refs_get.
  - exists cands. split; [reflexivity|]. now intros rid l _ Hl.
Qed.

Lemma listing_loop_get r missing fs cands :
  (forall f, f ∈ fs -> exists cdef, soup (node r f) = Some (Some cdef)) ->
  exists cands',
    for_each (listing_candidates r missing) fs cands = Ok cands' /\
    forall rid l,
      dict_mem rid missing = true -> dict_get rid cands = Some l ->
      dict_get rid cands' = Some (add_candidates r rid fs l).
Proof.
  revert cands. induction fs as [|f fs IH]; intros cands Hsoup; simpl.
  - exists cands. split; [reflexivity|]. now intros rid l _ Hl.
  - destruct (Hsoup f) as [cdef Hf]; [apply elem_of_cons; now left|].
    destruct (listing_candidates_get r missing cands f cdef Hf)
      as (cands1 & -> & H1).
    destruct (IH cands1) as (cands' & Hrun & H').
    { intros g Hg. apply Hsoup, elem_of_cons. now right. }
    exists cands'. split; [exact Hrun|].
    intros rid l Hmiss Hl. apply H'; [assumption|]. now apply H1.
Qed.








(** The same run through [discoverAllNodes]. *)
Lemma discovery_assigns_the_single_candidate :
  exists r,
    discoverAllNodes one_listing_input init_root = Ok r /\
    files r = [2; 3] /\ kind (node r 1) = "function" /\
    def_in_file (node r 1) = Some 2.
Proof. run_ok (discoverAllNodes one_listing_input init_root). Qed.

(** ** Parents and children *)

Lemma edge_consistent_mono r r' :
  (forall n, parent (node r' n) = parent (node r n)) ->
  (forall n x, x ∈ children (node r n) -> x ∈ children (node r' n)) ->
  edge_consistent r -> edge_consistent r'.
Proof.
  intros Hp Hc H n p E. rewrite Hp in E. apply Hc, H, E.
Qed.

Lemma edge_upd r n f :
  (forall nd, parent (f nd) = parent nd) ->
  (forall nd x, x ∈ children nd -> x ∈ children (f nd)) ->
  edge_consistent r -> edge_consistent (upd n f r).
Proof.
  intros Hp Hc. apply edge_consistent_mono.
  - intros m. now apply (node_upd_field parent).
  - intros m x. rewrite node_upd. destruct (decide (m = n)); auto.
Qed.

Lemma edge_append_child r p c :
  edge_consistent r -> edge_consistent (append_child p c r).
Proof.
  apply edge_upd; [reflexivity|].
  intros nd x H. simpl. apply elem_of_app. now left.
Qed.

Lemma append_child_children r p c :
  children (node (append_child p c r) p) = children (node r p) ++ [c].
Proof. unfold append_child. now rewrite node_upd_eq. Qed.

Lemma edge_attach r p c :
  edge_consistent r -> edge_consistent (attach p c r).
Proof.
  intros H n q E. unfold attach in *.
  rewrite (node_upd_field children) by reflexivity.
  rewrite node_upd in E. destruct (decide (n = c)) as [->|Hne].
  - injection E as <-. rewrite append_child_children.
    apply elem_of_app. right. now apply list_elem_of_singleton.
  - now apply edge_append_child.
Qed.

Lemma append_child_children_at r p c q :
  children (node (append_child p c r) q) =
  if decide (q = p) then children (node r q) ++ [c] else children (node r q).
Proof. unfold append_child. rewrite node_upd. now destruct (decide (q = p)). Qed.

(** The two assignments of [attach], the parent first. *)
Lemma edge_append_after_parent r p c :
  edge_consistent r ->
  edge_consistent (append_child p c (upd c (set_parent (Some p)) r)).
Proof.
  intros H n q E. rewrite append_child_children_at.
  rewrite (node_upd_field children) by reflexivity.
  unfold append_child in E.
  rewrite (node_upd_field parent) in E by reflexivity.
  rewrite node_upd in E. destruct (decide (n = c)) as [->|Hne].
  - injection E as <-. destruct (decide (p = p)); [|contradiction].
    apply elem_of_app. right. now apply list_elem_of_singleton.
  - specialize (H n q E). destruct (decide (q = p)); [|assumption].
    apply elem_of_app. now left.
Qed.

(** One step of a proof that a pass keeps the edges consistent. *)
Ltac edge_step :=
  match goal with
  | H : edge_consistent ?r |- edge_consistent ?r => exact H
  | |- edge_consistent (fst (_, _)) => simpl
  | |- edge_consistent (attach _ _ _) => apply edge_attach
  | |- edge_consistent (append_child _ _ (upd _ (set_parent _) _)) =>
      apply edge_append_after_parent
  | |- edge_consistent (append_child _ _ _) => apply edge_append_child
  | |- edge_consistent (upd _ _ _) =>
      apply edge_upd; [reflexivity|intros ? ? ?; assumption|]
  | |- edge_consistent (fold_left _ _ _) =>
      apply fold_left_invariant; [intros ? ? ?|]
  | |- edge_consistent (if ?b then _ else _) => destruct b
  | |- edge_consistent (match ?x with _ => _ end) => destruct x eqn:?
  | |- edge_consistent (?setter ?v ?r) => change (edge_consistent r)
  end.

Ltac edges := repeat edge_step.

Lemma edge_consistent_init : edge_consistent init_root.
Proof. intros n p E. discriminate. Qed.

Lemma trackNodeIfUnseen_heap n r : heap (trackNodeIfUnseen n r) = heap r.
Proof.
  unfold trackNodeIfUnseen.
  repeat match goal with
         | |- context [if ?b then _ else _] => destruct b
         end; reflexivity.
Qed.

Lemma trackNodeIfUnseen_next_id n r :
  next_id (trackNodeIfUnseen n r) = next_id r.
Proof.
  unfold trackNodeIfUnseen.
  repeat match goal with
         | |- context [if ?b then _ else _] => destruct b
         end; reflexivity.
Qed.

Lemma edge_trackNodeIfUnseen n r :
  edge_consistent r -> edge_consistent (trackNodeIfUnseen n r).
Proof.
  apply edge_consistent_mono; intros m; unfold node;
    now rewrite trackNodeIfUnseen_heap.
Qed.

(** *** The loop over the index *)

Lemma parents_allocated_mono r r' :
  (forall n, parent (node r' n) = parent (node r n)) ->
  next_id r <= next_id r' ->
  parents_allocated r -> parents_allocated r'.
Proof.
  intros Hp Hn H n p E. rewrite Hp in E. specialize (H n p E). lia.
Qed.

Lemma new_node_node nm kd rid r m :
  node (snd (new_node nm kd rid r)) m =
  if decide (m = next_id r) then init_node nm kd rid else node r m.
Proof. reflexivity. Qed.

Lemma edge_new_node nm kd rid r :
  edge_consistent r -> parents_allocated r ->
  edge_consistent (snd (new_node nm kd rid r)).
Proof.
  intros He Ha n p E. rewrite new_node_node in *.
  destruct (decide (n = next_id r)); [discriminate|].
  specialize (Ha n p E). destruct (decide (p = next_id r)); [lia|].
  now apply He.
Qed.

Lemma parents_allocated_new_node nm kd rid r :
  parents_allocated r -> parents_allocated (snd (new_node nm kd rid r)).
Proof.
  intros Ha n p E. rewrite new_node_node in E.
  destruct (decide (n = next_id r)); [discriminate|].
  specialize (Ha n p E). simpl. lia.
Qed.

Lemma parents_allocated_track n r :
  parents_allocated r -> parents_allocated (trackNodeIfUnseen n r).
Proof.
  apply parents_allocated_mono.
  - intros m. unfold node. now rewrite trackNodeIfUnseen_heap.
  - now rewrite trackNodeIfUnseen_next_id.
Qed.

Lemma discover_member_inv curr k r m :
  edge_consistent r -> parents_allocated r -> curr < next_id r ->
  edge_consistent (discover_member curr k r m) /\
  parents_allocated (discover_member curr k r m) /\
  curr < next_id (discover_member curr k r m).
Proof.
  intros He Ha Hc. unfold discover_member.
  destruct (m_name m) as [nm|]; [|auto].
  destruct (m_kind m) as [kd|]; [|auto].
  destruct (m_refid m) as [rid|]; [|auto].
  pose proof (edge_new_node nm kd rid r He Ha) as He1.
  pose proof (parents_allocated_new_node nm kd rid r Ha) as Ha1.
  destruct (new_node nm kd rid r) as [child r1] eqn:En.
  assert (Hn1 : next_id r1 = S (next_id r))
    by (unfold new_node in En; now injection En as <- <-).
  simpl in He1, Ha1.
  pose proof (edge_trackNodeIfUnseen child r1 He1) as He2.
  pose proof (parents_allocated_track child r1 Ha1) as Ha2.
  pose proof (trackNodeIfUnseen_next_id child r1) as Hn2.
  set (r2 := trackNodeIfUnseen child r1) in *.
  destruct (k =? "namespace").
  - split; [now apply edge_append_after_parent|]. split.
    + intros n p E. unfold append_child in E.
      rewrite (node_upd_field parent) in E by reflexivity.
      rewrite node_upd in E. simpl.
      destruct (decide (n = child)).
      * injection E as <-. lia.
      * specialize (Ha2 n p E). lia.
    + simpl. lia.
  - split; [edges|]. split.
    + eapply parents_allocated_mono; [| |exact Ha2]; [|reflexivity].
      intros n. unfold append_child.
      now rewrite !(node_upd_field parent) by reflexivity.
    + simpl. lia.
Qed.

Lemma discover_members_inv curr k ms r :
  edge_consistent r -> parents_allocated r -> curr < next_id r ->
  edge_consistent (fold_left (discover_member curr k) ms r) /\
  parents_allocated (fold_left (discover_member curr k) ms r).
Proof.
  revert r. induction ms as [|m ms IH]; intros r He Ha Hc; simpl; [auto|].
  destruct (discover_member_inv curr k r m He Ha Hc) as (He' & Ha' & Hc').
  now apply IH.
Qed.

Lemma discover_compound_inv r c :
  edge_consistent r -> parents_allocated r ->
  edge_consistent (discover_compound r c) /\
  parents_allocated (discover_compound r c).
Proof.
  intros He Ha. unfold discover_compound.
  destruct (c_name c) as [nm|]; [|auto].
  destruct (c_kind c) as [kd|]; [|auto].
  destruct (c_refid c) as [rid|]; [|auto].
  pose proof (edge_new_node nm kd rid r He Ha) as He1.
  pose proof (parents_allocated_new_node nm kd rid r Ha) as Ha1.
  destruct (new_node nm kd rid r) as [curr r1] eqn:En.
  assert (Hn1 : curr < next_id r1)
    by (unfold new_node in En; injection En as <- <-; simpl; lia).
  simpl in He1, Ha1.
  pose proof (edge_trackNodeIfUnseen curr r1 He1) as He2.
  pose proof (parents_allocated_track curr r1 Ha1) as Ha2.
  pose proof (trackNodeIfUnseen_next_id curr r1) as Hn2.
  destruct (_ || _); [|auto].
  apply discover_members_inv; auto. lia.
Qed.

Lemma discover_index_edge compounds :
  edge_consistent (fold_left discover_compound compounds init_root).
Proof.
  enough (H : forall r, edge_consistent r -> parents_allocated r ->
              edge_consistent (fold_left discover_compound compounds r)).
  { apply H; [apply edge_consistent_init|]. intros n p E. discriminate. }
  induction compounds as [|c cs IH]; intros r He Ha; simpl; [assumption|].
  destruct (discover_compound_inv r c He Ha). now apply IH.
Qed.

(** *** The detail records *)

Lemma for_each_invariant {S A} (P : S -> Prop) (body : S -> A -> result S) l s s' :
  (forall s x s', P s -> body s x = Ok s' -> P s') ->
  P s -> for_each body l s = Ok s' -> P s'.
Proof.
  intros Hbody. revert s. induction l as [|x l IH]; intros s Hs; simpl.
  - now intros [= <-].
  - destruct (body s x) as [s1|e] eqn:E; simpl; [|discriminate].
    apply IH. eapply Hbody; eauto.
Qed.

Lemma edge_file_innerclass f r attr :
  edge_consistent r -> edge_consistent (file_innerclass f r attr).
Proof. intros H. unfold file_innerclass. edges. Qed.

Lemma edge_file_memberdef f r member :
  edge_consistent r -> edge_consistent (file_memberdef f r member).
Proof. intros H. unfold file_memberdef. edges. Qed.

Lemma edge_file_compounddef f cdef r :
  edge_consistent r -> edge_consistent (file_compounddef f cdef r).
Proof.
  intros H. unfold file_compounddef. edges.
  - now apply edge_file_memberdef.
  - now apply edge_file_innerclass.
Qed.

Lemma edge_discover_file_xml inp fs r :
  edge_consistent r -> edge_consistent (discover_file_xml inp fs r).
Proof.
  revert r. induction fs as [|f fs IH]; intros r H; simpl; [assumption|].
  destruct (node_xml inp (refid (node r f))) as [| |[cdef|]].
  - now apply IH.
  - edges.
  - apply IH, edge_file_compounddef. edges.
  - apply IH. edges.
Qed.

Lemma edge_namespace_inner nspace r attr :
  edge_consistent r -> edge_consistent (namespace_inner nspace r attr).
Proof.
  intros H. unfold namespace_inner. edges.
  now apply (edge_attach r nspace).
Qed.

Lemma edge_assign_file_by_location filedef nd fs r r' :
  edge_consistent r ->
  assign_file_by_location filedef nd fs r = Ok r' -> edge_consistent r'.
Proof.
  revert r. induction fs as [|f fs IH]; intros r H; simpl.
  - now intros [= <-].
  - destruct (def_in_file_location (node r f)) as [loc|]; [|discriminate].
    destruct (decide (loc = Some filedef)); [|now apply IH].
    intros [= <-]. edges.
Qed.

Lemma edge_namespace_memberdef r memberdef r' :
  edge_consistent r ->
  namespace_memberdef r memberdef = Ok r' -> edge_consistent r'.
Proof.
  intros H. unfold namespace_memberdef.
  destruct (md_id memberdef) as [rid|]; [|now intros [= <-]].
  destruct (dict_get rid (node_by_refid r)) as [nd|]; [|now intros [= <-]].
  destruct (md_location_file memberdef) as [filedef|]; [|now intros [= <-]].
  now apply edge_assign_file_by_location.
Qed.

Lemma edge_discover_namespace_xml inp r nspace r' :
  edge_consistent r ->
  discover_namespace_xml inp r nspace = Ok r' -> edge_consistent r'.
Proof.
  intros H. unfold discover_namespace_xml.
  destruct (node_xml inp (refid (node r nspace))) as [| |[cdef|]];
    try (now intros [= <-]); try discriminate.
  apply (for_each_invariant edge_consistent).
  - intros s sectiondef s' Hs.
    apply (for_each_invariant edge_consistent); [|assumption].
    intros s0 md s0' Hs0. now apply edge_namespace_memberdef.
  - apply fold_left_invariant; [intros; now apply edge_namespace_inner|].
    apply fold_left_invariant; [intros; now apply edge_namespace_inner|].
    assumption.
Qed.

Lemma edge_resolve_missing_file_defs r r' :
  edge_consistent r ->
  resolve_missing_file_defs r = Ok r' -> edge_consistent r'.
Proof.
  intros H. unfold resolve_missing_file_defs.
  destruct (for_each _ _ _) as [cands|]; simpl; [|discriminate].
  intros [= <-]. apply fold_left_invariant; [|assumption].
  intros s rid Hs. unfold resolve_candidate. edges.
Qed.

Lemma edge_discoverAllNodes inp r :
  discoverAllNodes inp init_root = Ok r -> edge_consistent r.
Proof.
  unfold discoverAllNodes, discover_relationships.
  destruct (index inp) as [compounds|]; [|discriminate].
  destruct (for_each _ _ _) as [r1|] eqn:E; simpl; [|discriminate].
  apply edge_resolve_missing_file_defs.
  revert E. apply (for_each_invariant edge_consistent).
  - intros s n s' Hs. now apply edge_discover_namespace_xml.
  - apply edge_discover_file_xml, discover_index_edge.
Qed.

(** *** Reparenting *)

Lemma edge_reparent_union acc u :
  edge_consistent (fst acc) -> edge_consistent (fst (reparent_union acc u)).
Proof.
  destruct acc as [r removals]. simpl. intros H.
  repeat match goal with
         | |- context [if ?b then _ else _] => destruct b
         | |- context [match List.find ?f ?l with _ => _ end] =>
             destruct (List.find f l)
         end; simpl; edges.
Qed.

Lemma edge_reparentUnions r :
  edge_consistent r -> edge_consistent (reparentUnions r).
Proof.
  intros H. unfold reparentUnions.
  assert (H' : edge_consistent (fst (fold_left reparent_union (unions r) (r, []))))
    by (apply (fold_left_invariant (fun acc => edge_consistent (fst acc)));
        [intros; now apply edge_reparent_union|assumption]).
  destruct (fold_left reparent_union (unions r) (r, [])) as [r' removals].
  exact H'.
Qed.

Lemma edge_reparent_class_like acc cl :
  edge_consistent (fst acc) ->
  edge_consistent (fst (reparent_class_like acc cl)).
Proof.
  destruct acc as [r removals]. simpl. intros H.
  repeat match goal with
         | |- context [if ?b then _ else _] => destruct b
         | |- context [match List.find ?f ?l with _ => _ end] =>
             destruct (List.find f l)
         end; simpl; edges.
Qed.

Lemma edge_reparentClassLike r :
  edge_consistent r -> edge_consistent (reparentClassLike r).
Proof.
  intros H. unfold reparentClassLike.
  assert (H' : edge_consistent
                 (fst (fold_left reparent_class_like (class_like r) (r, []))))
    by (apply (fold_left_invariant (fun acc => edge_consistent (fst acc)));
        [intros; now apply edge_reparent_class_like|assumption]).
  destruct (fold_left reparent_class_like (class_like r) (r, [])) as [r' removals].
  exact H'.
Qed.

Lemma edge_reparent_directories_loop rtraversal todo acc :
  edge_consistent (fst acc) ->
  edge_consistent (fst (reparent_directories_loop rtraversal todo acc)).
Proof.
  revert acc. induction todo as [|[rank directory] todo IH]; intros acc H;
    simpl; [assumption|].
  destruct (rank <? 2)%nat; [assumption|].
  destruct acc as [r removals].
  destruct (List.find _ rtraversal) as [[p_rank p_directory]|]; apply IH;
    [|assumption].
  simpl in *. now apply edge_attach.
Qed.

Lemma edge_reparentDirectories r :
  edge_consistent r -> edge_consistent (reparentDirectories r).
Proof.
  intros H. unfold reparentDirectories.
  pose proof (edge_reparent_directories_loop
                (List.rev (py_sort (rank_lt r) (dir_ranks r)))
                (List.rev (py_sort (rank_lt r) (dir_ranks r))) (r, []) H) as H'.
  destruct (reparent_directories_loop _ _ _) as [r' removals].
  exact H'.
Qed.

Lemma edge_renameToNamespaceScopes r :
  edge_consistent r -> edge_consistent (renameToNamespaceScopes r).
Proof.
  intros H. unfold renameToNamespaceScopes.
  apply fold_left_invariant; [|assumption].
  intros s n Hs. unfold rename_namespace.
  apply fold_left_invariant; [|assumption].
  intros s' c Hs'. unfold rename_child. edges.
Qed.

Lemma edge_reparentNamespaces r :
  edge_consistent r -> edge_consistent (reparentNamespaces r).
Proof. intros H. exact H. Qed.

Lemma edge_upd_children r n (g : list nat -> list nat) :
  (forall l x, x ∈ l -> x ∈ g l) ->
  edge_consistent r ->
  edge_consistent (upd n (fun nd => set_children (g (children nd)) nd) r).
Proof.
  intros Hg. apply edge_upd; [reflexivity|].
  intros nd x Hx. simpl. now apply Hg.
Qed.

Lemma edge_dedup_children r :
  edge_consistent r -> edge_consistent (dedup_children r).
Proof.
  intros H. unfold dedup_children. apply fold_left_invariant; [|assumption].
  intros s n Hs. apply (edge_upd_children s n list_set); [|assumption].
  intros l x Hx. now apply elem_of_remove_dups.
Qed.

Lemma edge_index_nodes r :
  edge_consistent r -> edge_consistent (index_nodes r).
Proof.
  intros H. unfold index_nodes. apply fold_left_invariant; [|assumption].
  intros s n Hs. exact Hs.
Qed.

(** *** File reference discovery and file post-processing *)

Lemma edge_scan_line f st line :
  edge_consistent (fst (fst st)) ->
  edge_consistent (fst (fst (scan_line f st line))).
Proof.
  destruct st as [[r owned] processing]. simpl. intros H.
  repeat match goal with
         | |- context [if ?b then _ else _] => destruct b
         | |- context [match ?x with Some _ => _ | None => _ end] => destruct x
         end; simpl; edges.
Qed.

Lemma edge_scan_file inp acc f :
  edge_consistent (fst acc) -> edge_consistent (fst (scan_file inp acc f)).
Proof.
  destruct acc as [r ownerships]. simpl. intros H.
  destruct (file_lines inp (refid (node r f))) as [lines|]; [|exact H].
  assert (H' : edge_consistent
                 (fst (fst (fold_left (scan_line f) lines (r, [], false)))))
    by (apply (fold_left_invariant (fun st => edge_consistent (fst (fst st))));
        [intros; now apply edge_scan_line|assumption]).
  destruct (fold_left (scan_line f) lines (r, [], false)) as [[r' owned] p].
  exact H'.
Qed.

Lemma edge_strip_location strip r f r' :
  edge_consistent r -> strip_location strip r f = Ok r' -> edge_consistent r'.
Proof.
  intros H. unfold strip_location.
  destruct (Str.startswith _ _); [discriminate|]. intros [= <-]. edges.
Qed.

Lemma edge_reparent_to_file f r match_refid :
  edge_consistent r -> edge_consistent (reparent_to_file f r match_refid).
Proof. intros H. unfold reparent_to_file. edges. Qed.

Lemma edge_adopt_orphan f r orphan :
  edge_consistent r -> edge_consistent (adopt_orphan f r orphan).
Proof. intros H. unfold adopt_orphan. edges. Qed.

Lemma edge_check_file_children r :
  edge_consistent r -> edge_consistent (check_file_children r).
Proof.
  intros H. unfold check_file_children, check_children_of.
  apply fold_left_invariant; [|assumption].
  intros s f Hs. apply fold_left_invariant; [|assumption].
  intros s' c Hs'. unfold check_file_child. edges.
Qed.

Lemma edge_fileRefDiscovery inp r r' :
  edge_consistent r -> fileRefDiscovery inp r = Ok r' -> edge_consistent r'.
Proof.
  intros H. unfold fileRefDiscovery.
  destruct (negb (output_dir_valid inp)); [now intros [= <-]|].
  assert (H1 : edge_consistent (fst (fold_left (scan_file inp) (files r) (r, []))))
    by (apply (fold_left_invariant (fun acc => edge_consistent (fst acc)));
        [intros; now apply edge_scan_file|assumption]).
  destruct (fold_left (scan_file inp) (files r) (r, [])) as [r1 ownerships].
  simpl in H1.
  assert (H2 : forall r2,
             match doxygenStripFromPath inp with
             | Some strip => for_each (strip_location strip) (files r1) r1
             | None => Ok r1
             end = Ok r2 -> edge_consistent r2).
  { intros r2. destruct (doxygenStripFromPath inp) as [strip|].
    - apply (for_each_invariant edge_consistent); [|assumption].
      intros s f s' Hs. now apply edge_strip_location.
    - now intros [= <-]. }
  destruct (match doxygenStripFromPath inp with
            | Some strip => for_each (strip_location strip) (files r1) r1
            | None => Ok r1
            end) as [r2|]; simpl; [|discriminate].
  specialize (H2 r2 eq_refl). intros [= <-].
  apply edge_check_file_children.
  apply fold_left_invariant.
  { intros s f Hs. apply fold_left_invariant; [|assumption].
    intros; now apply edge_adopt_orphan. }
  apply fold_left_invariant; [|assumption].
  intros s f Hs. apply fold_left_invariant; [|assumption].
  intros; now apply edge_reparent_to_file.
Qed.

Lemma edge_find_directory fuel dir_path f nodes_remaining r :
  edge_consistent r ->
  edge_consistent (find_directory fuel dir_path f nodes_remaining r).
Proof.
  revert nodes_remaining. induction fuel as [|fuel IH];
    intros nodes_remaining H; simpl; [assumption|].
  destruct (List.rev nodes_remaining) as [|d rest]; [assumption|].
  destruct (Str.contains _ _); [|apply IH, H].
  destruct (_ =? _); [now apply edge_attach|apply IH, H].
Qed.

Lemma edge_filePostProcess fuel r :
  edge_consistent r -> edge_consistent (filePostProcess fuel r).
Proof.
  intros H. unfold filePostProcess. apply fold_left_invariant; [|assumption].
  intros s f Hs. unfold post_process_file.
  destruct (_ =? _)%nat; [assumption|]. now apply edge_find_directory.
Qed.

(** *** Sorting *)

Lemma edge_typeSort fuel r n :
  edge_consistent r -> edge_consistent (typeSort fuel r n).
Proof.
  revert r n. induction fuel as [|fuel IH]; intros r n H; simpl; [assumption|].
  apply fold_left_invariant; [intros; now apply IH|].
  apply (edge_upd_children r n (sort_nodes r)); [|assumption].
  intros l x Hx. now apply py_sort_elem_of.
Qed.

Lemma edge_sort_list get set r :
  (forall l s, heap (set l s) = heap s) ->
  edge_consistent r -> edge_consistent (sort_list get set r).
Proof.
  intros Hset. unfold sort_list.
  apply edge_consistent_mono; intros n; unfold node; now rewrite Hset.
Qed.

Lemma edge_deepSortList fuel get set r :
  (forall l s, heap (set l s) = heap s) ->
  edge_consistent r -> edge_consistent (deepSortList fuel get set r).
Proof.
  intros Hset H. unfold deepSortList.
  apply fold_left_invariant; [intros; now apply edge_typeSort|].
  now apply edge_sort_list.
Qed.

Lemma edge_sortInternals fuel r :
  edge_consistent r -> edge_consistent (sortInternals fuel r).
Proof.
  intros H. unfold sortInternals.
  repeat first [apply edge_deepSortList; [reflexivity|]
               |apply edge_sort_list; [reflexivity|]].
  exact H.
Qed.

(** *** The pipeline *)

Lemma parse_stages_last inp fuel r :
  parse inp fuel = Ok r -> last (parse_stages inp fuel) = Some r.
Proof.
  unfold parse, parse_stages, reparentAll.
  destruct (discoverAllNodes inp init_root) as [r1|]; simpl; [|discriminate].
  destruct (fileRefDiscovery inp _) as [r9|]; simpl; [|discriminate].
  now intros [= <-].
Qed.

Lemma dedup_children_elem_of r n x :
  x ∈ children (node (dedup_children r) n) <-> x ∈ children (node r n).
Proof.
  unfold dedup_children.
  apply (fold_left_invariant
           (fun s => x ∈ children (node s n) <-> x ∈ children (node r n)));
    [|reflexivity].
  intros s m Hs. rewrite <- Hs, node_upd.
  destruct (decide (n = m)) as [->|]; [|reflexivity].
  simpl. apply elem_of_remove_dups.
Qed.

(** C10: after every pass of the pipeline (discovery, each of the five
    reparenting passes, the de-duplication of the children, the filling of
    [node_by_refid], file reference discovery, file post-processing and
    sorting), every node whose parent is set is among the children of that
    parent; an operation that sets the parent of a node to [p] leaves the
    node among the children of [p], and the de-duplication keeps the members
    of every list of children. *)
Theorem edges_consistent_after_every_pass (inp : Input) (fuel : nat) :
  Forall edge_consistent (parse_stages inp fuel) /\
  (forall r p c,
     parent (node (attach p c r) c) = Some p /\
     c ∈ children (node (attach p c r) p)) /\
  (forall r n x,
     x ∈ children (node (dedup_children r) n) <-> x ∈ children (node r n)).
Proof.
  split; [|split].
  - unfold parse_stages.
    destruct (discoverAllNodes inp init_root) as [r1|] eqn:E1; [|constructor].
    pose proof (edge_discoverAllNodes inp r1 E1) as H1.
    pose proof (edge_reparentUnions _ H1) as H2.
    pose proof (edge_reparentClassLike _ H2) as H3.
    pose proof (edge_reparentDirectories _ H3) as H4.
    pose proof (edge_renameToNamespaceScopes _ H4) as H5.
    pose proof (edge_reparentNamespaces _ H5) as H6.
    pose proof (edge_dedup_children _ H6) as H7.
    pose proof (edge_index_nodes _ H7) as H8.
    cbv zeta. repeat (apply Forall_cons; split; [assumption|]).
    destruct (fileRefDiscovery inp _) as [r9|] eqn:E9; [|constructor].
    pose proof (edge_fileRefDiscovery inp _ r9 H8 E9) as H9.
    pose proof (edge_filePostProcess fuel _ H9) as H10.
    pose proof (edge_sortInternals fuel _ H10) as H11.
    repeat (apply Forall_cons; split; [assumption|]). constructor.
  - intros r p c. unfold attach. split.
    + now rewrite node_upd_eq.
    + rewrite (node_upd_field children) by reflexivity.
      rewrite append_child_children. apply elem_of_app. right.
      now apply list_elem_of_singleton.
  - apply dedup_children_elem_of.
Qed.

(** A run through every pass: the function [f] of the namespace [n] keeps
    [n] as its parent, under its new name. *)
Lemma parse_stages_shared_member :
  length (parse_stages shared_member_input 8) = 11 /\
  exists r,
    parse shared_member_input 8 = Ok r /\
    name (node r 1) = "n::f" /\ parent (node r 1) = Some 0 /\
    children (node r 0) = [1].
Proof.
  split; [vm_compute; reflexivity|].
  run_ok (parse shared_member_input 8).
Qed.

(** ** Running the reparenting again *)









Lemma find_pointwise {A} (f g : A -> bool) l :
  (forall x, f x = g x) -> List.find f l = List.find g l.
Proof.
  intros H. induction l as [|a l IH]; simpl; [reflexivity|].
  now rewrite H, IH.
Qed.


Lemma forallb_elem_of {A} (f : A -> bool) l :
  forallb f l = true <-> forall x, x ∈ l -> f x = true.
Proof.
  rewrite forallb_forall. split; intros H x Hx; apply H.
  - now apply list_elem_of_In.
  - now apply list_elem_of_In.
Qed.

Lemma fold_left_invariant_in {S A} (P : S -> Prop) (body : S -> A -> S) l s :
  (forall s x, x ∈ l -> P s -> P (body s x)) -> P s -> P (fold_left body l s).
Proof.
  revert s. induction l as [|a l IH]; intros s Hbody Hs; simpl; [assumption|].
  apply IH.
  - intros s' x Hx. apply Hbody, elem_of_cons. now right.
  - apply Hbody; [apply elem_of_cons; now left|assumption].
Qed.

Lemma reparent_union_find r removals u :
  reparent_union (r, removals) u =
  match find_union_parent r u with
  | Some (p, true) => (attach p u r, removals ++ [u])
  | Some (p, false) => (attach p u r, removals)
  | None => (r, removals)
  end.
Proof.
  unfold reparent_union, find_union_parent. cbv zeta.
  repeat match goal with
         | |- context [if ?b then _ else _] => destruct b
         | |- context [match List.find ?f ?l with _ => _ end] =>
             destruct (List.find f l)
         end; reflexivity.
Qed.

Lemma reparent_class_like_find r removals cl :
  reparent_class_like (r, removals) cl =
  match find_class_parent r cl with
  | Some p => (attach p cl r, removals ++ [cl])
  | None => (r, removals)
  end.
Proof.
  unfold reparent_class_like, find_class_parent. cbv zeta.
  now destruct (_ <? _)%nat.
Qed.







Lemma elem_of_rev_sort {A} (lt : A -> A -> bool) l x :
  x ∈ List.rev (py_sort lt l) <-> x ∈ l.
Proof.
  now rewrite list_elem_of_In, <- in_rev, <- list_elem_of_In, py_sort_elem_of.
Qed.

Lemma elem_of_dir_ranks s rank d :
  (rank, d) ∈ dir_ranks s <-> rank = dir_rank s d /\ d ∈ dirs s.
Proof.
  unfold dir_ranks, dir_rank. rewrite list_elem_of_In, in_map_iff. split.
  - intros (d' & [= <- <-] & Hin). split; [reflexivity|].
    now apply list_elem_of_In.
  - intros [-> Hin]. exists d. split; [reflexivity|].
    now apply list_elem_of_In.
Qed.










(** ** The members of a compound *)




(** ** The registry after discovery *)












(** The last loops return only when every file has its parsed detail
    record. *)
Lemma listing_loop_parsed r missing fs cands cands' :
  for_each (listing_candidates r missing) fs cands = Ok cands' ->
  forall f, f ∈ fs -> exists cdef, soup (node r f) = Some (Some cdef).
Proof.
  revert cands. induction fs as [|f fs IH]; intros cands H g Hg.
  - now apply elem_of_nil in Hg.
  - simpl in H.
    destruct (listing_candidates r missing cands f) as [cands1|] eqn:E;
      simpl in H; [|discriminate].
    apply elem_of_cons in Hg as [->|Hg]; [|eapply IH; eauto].
    unfold listing_candidates in E.
    destruct (soup (node r f)) as [[cdef|]|]; try discriminate.
    now exists cdef.
Qed.

Lemma files_parsed_when_resolved r r' :
  resolve_missing_file_defs r = Ok r' -> files_parsed r.
Proof.
  unfold resolve_missing_file_defs, files_parsed.
  destruct (for_each _ _ _) as [cands|] eqn:E; simpl; [|discriminate].
  intros _. eapply listing_loop_parsed, E.
Qed.




(** ** Conflicts do not stop the pipeline *)

(** The same policy in the loop of [discoverAllNodes] over the
    [<innerclass>]es of a file: a node that has another defining file keeps
    it, and the diagnostic is emitted. *)
Lemma file_innerclass_keeps_file f r rid nd g :
  dict_get rid (node_by_refid r) = Some nd ->
  def_in_file (node r nd) = Some g -> g <> f ->
  def_in_file (node (file_innerclass f r (Some rid)) nd) = Some g /\
  MsgConflictingFileDefinition (name (node r nd)) (name (node r g))
    (name (node r f))
  ∈ diagnostics (file_innerclass f r (Some rid)).
Proof.
  intros Hget Hdef Hne. unfold file_innerclass. rewrite Hget.
  change (def_in_file (node (exclaimError (MsgNodeName (name (node r nd))) r) nd))
    with (def_in_file (node r nd)).
  rewrite Hdef. destruct (decide (g = f)); [contradiction|].
  split; [exact Hdef|].
  simpl. apply elem_of_app. right. now apply list_elem_of_singleton.
Qed.

(** Without [doxygenStripFromPath], [fileRefDiscovery] returns on every
    root, and when the output directory is valid its result is what the
    check of the children of the files returns. *)
Lemma fileRefDiscovery_returns inp r :
  doxygenStripFromPath inp = None ->
  exists r', fileRefDiscovery inp r = Ok r' /\
             (output_dir_valid inp = true ->
              exists r0, r' = check_file_children r0).
Proof.
  intros Hstrip. unfold fileRefDiscovery.
  destruct (output_dir_valid inp); simpl.
  - destruct (fold_left (scan_file inp) (files r) (r, [])) as [r1 ownerships].
    rewrite Hstrip. simpl. eexists. split; [reflexivity|].
    intros _. eexists. reflexivity.
  - eexists. split; [reflexivity|discriminate].
Qed.

(** ** A new object is never seen *)

(** The test of [trackNodeIfUnseen] never finds the object that was just
    created, whatever its refid is and whether or not [node_by_refid] holds
    that refid. *)
Lemma new_object_is_always_tracked nm kd rid r :
  next_id r ∉ all_nodes r ->
  all_nodes (trackNodeIfUnseen (next_id r) (snd (new_node nm kd rid r))) =
  all_nodes r ++ [next_id r].
Proof.
  intros Hfresh. unfold trackNodeIfUnseen.
  change (all_nodes (snd (new_node nm kd rid r))) with (all_nodes r).
  rewrite (proj2 (mem_false _ _) Hfresh). cbv zeta.
  repeat match goal with
         | |- context [if ?b then _ else _] => destruct b
         end; reflexivity.
Qed.

From Stdlib Require Import Sorted.

(** ** The kinds of the listed and of the linked nodes *)

Lemma track_fresh n r :
  n ∉ all_nodes r ->
  heap (trackNodeIfUnseen n r) = heap r /\
  next_id (trackNodeIfUnseen n r) = next_id r /\
  all_nodes (trackNodeIfUnseen n r) = all_nodes r ++ [n] /\
  node_by_refid (trackNodeIfUnseen n r) =
    dict_set (refid (node r n)) n (node_by_refid r) /\
  let k := kind (node r n) in
  let r' := trackNodeIfUnseen n r in
  grown k ["class"; "struct"] n (class_like r) (class_like r') /\
  grown k ["define"] n (defines r) (defines r') /\
  grown k ["enum"] n (enums r) (enums r') /\
  grown k ["enumvalue"] n (enum_values r) (enum_values r') /\
  grown k ["function"] n (functions r) (functions r') /\
  grown k ["dir"] n (dirs r) (dirs r') /\
  grown k ["file"] n (files r) (files r') /\
  grown k ["group"] n (groups r) (groups r') /\
  grown k ["namespace"] n (namespaces r) (namespaces r') /\
  grown k ["typedef"] n (typedefs r) (typedefs r') /\
  grown k ["union"] n (unions r) (unions r') /\
  grown k ["variable"] n (variables r) (variables r').
Proof.
  intros Hn. apply mem_false in Hn. unfold trackNodeIfUnseen. rewrite Hn.
  cbv zeta.
  change (kind (node (with_all_nodes (all_nodes r ++ [n]) r) n))
    with (kind (node r n)).
  destruct (kind (node r n) =? "class") eqn:E1;
    [|destruct (kind (node r n) =? "struct") eqn:E2]; simpl;
  repeat match goal with
         | |- context [if ?b then _ else _] => destruct b eqn:?
         end;
  repeat match goal with
         | H : (_ =? _) = true |- _ => apply String.eqb_eq in H; rewrite H
         end;
  do 4 (split; [reflexivity|]);
  repeat split;
  first [left; reflexivity
        |right; split; [reflexivity|repeat constructor]].
Qed.

Lemma listed_as_grown r r2 n kd ks l l' :
  (forall m, m <> n -> kind (node r2 m) = kind (node r m)) ->
  kind (node r2 n) = kd ->
  all_nodes r2 = all_nodes r ++ [n] ->
  n ∉ all_nodes r ->
  listed_as r l ks -> grown kd ks n l l' -> listed_as r2 l' ks.
Proof.
  intros Hother Hn Hall Hfresh Hl Hg x Hx. rewrite Hall, elem_of_app.
  assert (Hold : x ∈ l -> (x ∈ all_nodes r \/ x ∈ [n]) /\ kind (node r2 x) ∈ ks).
  { intros Hxl. destruct (Hl x Hxl) as [Hxa Hk]. split; [now left|].
    rewrite Hother; [assumption|]. intros ->. contradiction. }
  destruct Hg as [->|[-> Hkd]]; [now apply Hold|].
  apply elem_of_app in Hx as [Hx|Hx]; [now apply Hold|].
  apply list_elem_of_singleton in Hx as ->. split.
  - right. now apply list_elem_of_singleton.
  - now rewrite Hn.
Qed.

Lemma NoDup_grown r n kd ks l l' :
  n ∉ all_nodes r -> listed_as r l ks -> NoDup l -> grown kd ks n l l' ->
  NoDup l'.
Proof.
  intros Hfresh Hl Hnd [->|[-> _]]; [assumption|].
  apply NoDup_app. split; [assumption|]. split; [|apply NoDup_singleton].
  intros x Hx ->%list_elem_of_singleton. apply Hfresh. now apply Hl.
Qed.

Lemma child_ok_namespace ck : child_ok "namespace" ck = true.
Proof. reflexivity. Qed.

Lemma child_ok_file ck : child_ok "file" ck = true.
Proof. reflexivity. Qed.

Lemma child_ok_class_like pk ck :
  pk ∈ ["class"; "struct"] -> ck ∈ ["class"; "struct"; "union"] ->
  child_ok pk ck = true.
Proof.
  intros Hp Hc.
  repeat match goal with
         | H : _ ∈ _ :: _ |- _ => apply elem_of_cons in H as [->|H]
         | H : _ ∈ [] |- _ => now apply elem_of_nil in H
         end; reflexivity.
Qed.

Lemma child_ok_dir ck : ck ∈ ["dir"; "file"] -> child_ok "dir" ck = true.
Proof.
  intros Hc.
  repeat match goal with
         | H : _ ∈ _ :: _ |- _ => apply elem_of_cons in H as [->|H]
         | H : _ ∈ [] |- _ => now apply elem_of_nil in H
         end; reflexivity.
Qed.

(** [ExhaleNode(...)] followed by [trackNodeIfUnseen]. *)
Lemma indexed_register nm kd rid r :
  indexed r ->
  let r2 := trackNodeIfUnseen (next_id r) (snd (new_node nm kd rid r)) in
  indexed r2 /\ next_id r2 = S (next_id r) /\
  node r2 (next_id r) = init_node nm kd rid /\
  (forall m, m <> next_id r -> node r2 m = node r m) /\
  all_nodes r2 = all_nodes r ++ [next_id r].
Proof.
  intros (Hall & Hpure & Hnd & (Hpk & Hdk & Huk & Hrk) & Hck).
  set (n := next_id r). set (r1 := snd (new_node nm kd rid r)).
  assert (Hfresh : n ∉ all_nodes r).
  { rewrite Hall. intros H%elem_of_seq. lia. }
  destruct (track_fresh n r1 Hfresh) as (Hh & Hn & Ha & Hreg & Hg).
  cbv zeta in Hg. set (r2 := trackNodeIfUnseen n r1) in *.
  change (all_nodes r1) with (all_nodes r) in Ha.
  assert (Hnode : forall m, node r2 m =
                    if decide (m = n) then init_node nm kd rid else node r m).
  { intros m. unfold node. rewrite Hh. reflexivity. }
  assert (Hself : node r2 n = init_node nm kd rid).
  { rewrite Hnode. now destruct (decide (n = n)). }
  assert (Hother : forall m, m <> n -> node r2 m = node r m).
  { intros m Hm. rewrite Hnode. now destruct (decide (m = n)). }
  assert (Hk1 : kind (node r1 n) = kd).
  { unfold r1. rewrite new_node_node.
    destruct (decide _); [reflexivity|contradiction]. }
  assert (Hr1 : refid (node r1 n) = rid).
  { unfold r1. rewrite new_node_node.
    destruct (decide _); [reflexivity|contradiction]. }
  rewrite Hk1 in Hg. rewrite Hr1 in Hreg.
  change (node_by_refid r1) with (node_by_refid r) in Hreg.
  assert (Hn2 : next_id r2 = S n) by (rewrite Hn; reflexivity).
  assert (Hold : forall x, x ∈ all_nodes r ->
                   x ∈ all_nodes r2 /\ node r2 x = node r x).
  { intros x Hx. split; [rewrite Ha; apply elem_of_app; now left|].
    apply Hother. intros ->. contradiction. }
  split; [|auto].
  split; [|split; [|split; [|split]]].
  - rewrite Ha, Hn2, seq_S. now rewrite Hall.
  - assert (Hgrow : forall ks l l',
               listed_as r l ks -> grown kd ks n l l' -> listed_as r2 l' ks).
    { intros ks l l'. apply (listed_as_grown r r2 n kd); try assumption.
      - intros m Hm. now rewrite Hother.
      - now rewrite Hself. }
    unfold kind_lists_pure in *.
    repeat match goal with
           | H : _ /\ _ |- _ => destruct H
           end.
    repeat apply conj;
      (eapply Hgrow; [eassumption|]);
      match goal with
      | H : grown _ ?ks _ _ ?l' |- grown _ ?ks _ _ ?l' => exact H
      end.
  - unfold kind_lists_pure, lists_nodup in *.
    repeat match goal with
           | H : _ /\ _ |- _ => destruct H
           end.
    repeat apply conj;
      match goal with
      | H : grown _ ?ks _ ?l ?l', H1 : listed_as r ?l1 ?ks |- NoDup ?l' =>
          apply (NoDup_grown r n kd ks l1 l' Hfresh H1); [assumption|exact H]
      end.
  - split; [|split; [|split]].
    + intros m p E. rewrite Hnode in E.
      destruct (decide (m = n)); [discriminate|].
      destruct (Hpk m p E) as [Hp Hk]. destruct (Hold p Hp) as [Hp2 ->].
      now split.
    + intros m f E. rewrite Hnode in E.
      destruct (decide (m = n)); [discriminate|].
      destruct (Hdk m f E) as [Hf Hk]. destruct (Hold f Hf) as [Hf2 ->].
      now split.
    + intros f m E. rewrite Hnode in E.
      destruct (decide (f = n)); [now apply elem_of_nil in E|].
      destruct (Huk f m E) as [Hm Hk]. destruct (Hold m Hm) as [Hm2 ->].
      now split.
    + intros rid' m. rewrite Hreg, dict_get_set.
      destruct (decide (rid' = rid)) as [->|].
      * intros [= <-]. rewrite Hself. split; [|reflexivity].
        rewrite Ha. apply elem_of_app. right. now apply list_elem_of_singleton.
      * intros E. destruct (Hrk rid' m E) as [Hm Hk].
        destruct (Hold m Hm) as [Hm2 ->]. now split.
  - intros p c E. rewrite Hnode in E.
    destruct (decide (p = n)) as [->|Hp]; [now apply elem_of_nil in E|].
    destruct (Hck p c E) as [Hc Hk]. destruct (Hold c Hc) as [Hc2 Hc3].
    split; [assumption|]. now rewrite Hc3, (Hother p Hp).
Qed.

Lemma listed_as_upd r n f l ks :
  (forall nd, kind (f nd) = kind nd) ->
  listed_as r l ks -> listed_as (upd n f r) l ks.
Proof.
  intros Hk Hl x Hx. rewrite (node_upd_field kind) by assumption.
  now apply Hl.
Qed.

Lemma kind_lists_pure_upd r n f :
  (forall nd, kind (f nd) = kind nd) ->
  kind_lists_pure r -> kind_lists_pure (upd n f r).
Proof.
  intros Hk H. unfold kind_lists_pure in *.
  repeat match goal with
         | H : _ /\ _ |- _ => destruct H
         end.
  repeat apply conj;
    match goal with
    | |- listed_as _ (?get _) _ =>
        change (get (upd n f r)) with (get r)
    end; now apply listed_as_upd.
Qed.

(** An assignment to the object [n] that keeps its kind and refid, and adds
    links to registered objects of the expected kind only. *)
Lemma links_kinded_upd n f r :
  (forall nd, kind (f nd) = kind nd) ->
  (forall nd, refid (f nd) = refid nd) ->
  (forall p, parent (f (node r n)) = Some p ->
             parent (node r n) = Some p \/
             (p ∈ all_nodes r /\ kind (node r p) ∈ parent_kinds)) ->
  (forall g, def_in_file (f (node r n)) = Some g ->
             def_in_file (node r n) = Some g \/
             (g ∈ all_nodes r /\ kind (node r g) = "file")) ->
  (forall x, x ∈ namespaces_used (f (node r n)) ->
             x ∈ namespaces_used (node r n) \/
             (x ∈ all_nodes r /\ kind (node r x) = "namespace")) ->
  links_kinded r -> links_kinded (upd n f r).
Proof.
  intros Hk Hr Hp Hd Hu (Hpk & Hdk & Huk & Hrk).
  split; [|split; [|split]].
  - intros m p E. rewrite (node_upd_field kind) by assumption.
    rewrite node_upd in E. destruct (decide (m = n)) as [->|]; [|eauto].
    destruct (Hp p E); eauto.
  - intros m g E. rewrite (node_upd_field kind) by assumption.
    rewrite node_upd in E. destruct (decide (m = n)) as [->|]; [|eauto].
    destruct (Hd g E); eauto.
  - intros m x E. rewrite (node_upd_field kind) by assumption.
    rewrite node_upd in E. destruct (decide (m = n)) as [->|]; [|eauto].
    destruct (Hu x E); eauto.
  - intros rid m E. rewrite (node_upd_field refid) by assumption.
    now apply Hrk.
Qed.

Lemma children_kinded_upd n f r :
  (forall nd, kind (f nd) = kind nd) ->
  (forall x, x ∈ children (f (node r n)) ->
             x ∈ children (node r n) \/
             (x ∈ all_nodes r /\
              child_ok (kind (node r n)) (kind (node r x)) = true)) ->
  children_kinded r -> children_kinded (upd n f r).
Proof.
  intros Hk Hc Hck p c E. rewrite !(node_upd_field kind) by assumption.
  rewrite node_upd in E. destruct (decide (p = n)) as [->|]; [|eauto].
  destruct (Hc c E); eauto.
Qed.

Lemma indexed_upd n f r :
  (forall nd, kind (f nd) = kind nd) ->
  (forall nd, refid (f nd) = refid nd) ->
  (forall p, parent (f (node r n)) = Some p ->
             parent (node r n) = Some p \/
             (p ∈ all_nodes r /\ kind (node r p) ∈ parent_kinds)) ->
  (forall g, def_in_file (f (node r n)) = Some g ->
             def_in_file (node r n) = Some g \/
             (g ∈ all_nodes r /\ kind (node r g) = "file")) ->
  (forall x, x ∈ namespaces_used (f (node r n)) ->
             x ∈ namespaces_used (node r n) \/
             (x ∈ all_nodes r /\ kind (node r x) = "namespace")) ->
  (forall x, x ∈ children (f (node r n)) ->
             x ∈ children (node r n) \/
             (x ∈ all_nodes r /\
              child_ok (kind (node r n)) (kind (node r x)) = true)) ->
  indexed r -> indexed (upd n f r).
Proof.
  intros Hk Hr Hp Hd Hu Hc (Hall & Hpure & Hnd & Hl & Hck).
  split; [exact Hall|]. split; [now apply kind_lists_pure_upd|].
  split; [exact Hnd|].
  split; [now apply links_kinded_upd|now apply children_kinded_upd].
Qed.

Lemma indexed_discover_member curr curr_kind r m :
  indexed r -> curr < next_id r -> kind (node r curr) = curr_kind ->
  curr_kind = "namespace" \/ curr_kind = "file" ->
  let r' := discover_member curr curr_kind r m in
  indexed r' /\ curr < next_id r' /\ kind (node r' curr) = curr_kind /\
  next_id r' = next_id r + (if complete_member m then 1 else 0).
Proof.
  intros Hi Hc Hk Hkind. unfold discover_member, complete_member. cbv zeta.
  destruct (m_name m) as [nm|]; [|do 3 (split; [assumption|]); lia].
  destruct (m_kind m) as [kd|]; [|do 3 (split; [assumption|]); lia].
  destruct (m_refid m) as [rid|]; [|do 3 (split; [assumption|]); lia].
  destruct (indexed_register nm kd rid r Hi)
    as (Hi2 & Hn2 & Hself & Hother & Hall2).
  change (new_node nm kd rid r) with (next_id r, snd (new_node nm kd rid r)).
  cbv beta iota zeta in Hi2, Hn2, Hself, Hother, Hall2 |- *.
  set (child := next_id r) in *.
  set (r2 := trackNodeIfUnseen child _) in *.
  assert (Hne : curr <> child) by (unfold child; lia).
  assert (Hk2 : kind (node r2 curr) = curr_kind) by now rewrite Hother.
  assert (Hc2 : curr < next_id r2) by (rewrite Hn2; unfold child; lia).
  assert (Hcurr : curr ∈ all_nodes r2).
  { destruct Hi2 as (-> & _). apply elem_of_seq. lia. }
  assert (Hchild : child ∈ all_nodes r2).
  { rewrite Hall2. apply elem_of_app. right. now apply list_elem_of_singleton. }
  assert (Hok : forall ck, child_ok curr_kind ck = true)
    by (intros ck; now destruct Hkind as [->| ->]).
  assert (Happend : forall s,
             indexed s -> all_nodes s = all_nodes r2 ->
             kind (node s curr) = curr_kind ->
             indexed (append_child curr child s)).
  { intros s Hs Ha Hks. unfold append_child.
    apply indexed_upd; try reflexivity; try (now left); [|assumption].
    intros x [Hx|Hx]%elem_of_app; [now left|].
    apply list_elem_of_singleton in Hx as ->. right. rewrite Ha, Hks.
    now split. }
  destruct (curr_kind =? "namespace") eqn:Ens.
  - apply String.eqb_eq in Ens.
    split; [|split; [|split]].
    + apply Happend; [|reflexivity|now rewrite (node_upd_field kind)].
      apply indexed_upd; try reflexivity; try (now left); [|assumption].
      intros p [= <-]. right. split; [assumption|]. rewrite Hk2, Ens.
      repeat constructor.
    + simpl. lia.
    + unfold append_child. now rewrite !(node_upd_field kind) by reflexivity.
    + simpl. lia.
  - destruct Hkind as [E|E]; [rewrite E in Ens; discriminate|].
    split; [|split; [|split]].
    + apply Happend; [|reflexivity|now rewrite (node_upd_field kind)].
      apply indexed_upd; try reflexivity; try (now left); [|assumption].
      intros g [= <-]. right. split; [assumption|]. now rewrite Hk2.
    + simpl. lia.
    + unfold append_child. now rewrite !(node_upd_field kind) by reflexivity.
    + simpl. lia.
Qed.

Lemma indexed_discover_members curr curr_kind ms r :
  indexed r -> curr < next_id r -> kind (node r curr) = curr_kind ->
  curr_kind = "namespace" \/ curr_kind = "file" ->
  let r' := fold_left (discover_member curr curr_kind) ms r in
  indexed r' /\
  next_id r' = next_id r + length (List.filter complete_member ms).
Proof.
  revert r. induction ms as [|m ms IH]; intros r Hi Hc Hk Hkind; simpl.
  - split; [assumption|lia].
  - destruct (indexed_discover_member curr curr_kind r m Hi Hc Hk Hkind)
      as (Hi' & Hc' & Hk' & Hn').
    destruct (IH _ Hi' Hc' Hk' Hkind) as [Hi2 Hn2]. split; [exact Hi2|].
    rewrite Hn2, Hn'. destruct (complete_member m); simpl; lia.
Qed.

Lemma indexed_discover_compound r c :
  indexed r ->
  indexed (discover_compound r c) /\
  next_id (discover_compound r c) = next_id r + registered_by c.
Proof.
  intros Hi. unfold discover_compound, registered_by.
  destruct (c_name c) as [nm|]; [|split; [assumption|lia]].
  destruct (c_kind c) as [kd|]; [|split; [assumption|lia]].
  destruct (c_refid c) as [rid|]; [|split; [assumption|lia]].
  destruct (indexed_register nm kd rid r Hi)
    as (Hi2 & Hn2 & Hself & Hother & _).
  change (new_node nm kd rid r) with (next_id r, snd (new_node nm kd rid r)).
  cbv beta iota zeta in Hi2, Hn2, Hself, Hother |- *.
  set (curr := next_id r) in *.
  set (r2 := trackNodeIfUnseen curr _) in *.
  destruct ((kd =? "namespace") || (kd =? "file")) eqn:E.
  - destruct (indexed_discover_members curr kd (c_members c) r2)
      as [Hi3 Hn3]; try assumption.
    + rewrite Hn2. lia.
    + now rewrite Hself.
    + apply orb_true_iff in E as [E|E]; apply String.eqb_eq in E; auto.
    + split; [exact Hi3|]. rewrite Hn3, Hn2. lia.
  - split; [assumption|]. rewrite Hn2. lia.
Qed.

Lemma indexed_init : indexed init_root.
Proof.
  split; [reflexivity|]. split; [|split; [|split]].
  - unfold kind_lists_pure. repeat apply conj; intros n H;
      now apply elem_of_nil in H.
  - unfold lists_nodup. repeat apply conj; apply NoDup_nil_2.
  - split; [|split; [|split]]; try discriminate.
    intros f n H. now apply elem_of_nil in H.
  - intros p c H. now apply elem_of_nil in H.
Qed.

Lemma indexed_discover_index compounds r :
  indexed r ->
  indexed (fold_left discover_compound compounds r) /\
  next_id (fold_left discover_compound compounds r) =
  next_id r + registered_count compounds.
Proof.
  revert r. induction compounds as [|c cs IH]; intros r Hi; simpl.
  - split; [assumption|]. unfold registered_count. simpl. lia.
  - destruct (indexed_discover_compound r c Hi) as [Hi1 Hn1].
    destruct (IH _ Hi1) as [Hi2 Hn2]. split; [assumption|].
    rewrite Hn2, Hn1. unfold registered_count. simpl. lia.
Qed.

(** *** The passes that follow the loop over the index *)

Lemma for_each_invariant_in {S A} (P : S -> Prop) (body : S -> A -> result S)
    l s s' :
  (forall s x s', x ∈ l -> P s -> body s x = Ok s' -> P s') ->
  P s -> for_each body l s = Ok s' -> P s'.
Proof.
  revert s. induction l as [|x l IH]; intros s Hbody Hs; simpl.
  - now intros [= <-].
  - destruct (body s x) as [s1|e] eqn:E; simpl; [|discriminate].
    apply IH.
    + intros s2 y s3 Hy. apply Hbody, elem_of_cons. now right.
    + eapply Hbody; eauto. apply elem_of_cons. now left.
Qed.

Lemma lists_within_refl r : lists_within r r.
Proof. unfold lists_within. repeat apply conj; intros x H; exact H. Qed.

Lemma evolved_refl r :
  lists_nodup r -> links_kinded r -> children_kinded r -> evolved r r.
Proof.
  intros Hnd Hl Hc. split; [repeat split|].
  split; [apply lists_within_refl|]. auto.
Qed.

Lemma evolved_all_nodes r0 s : evolved r0 s -> all_nodes s = all_nodes r0.
Proof. now intros ((H & _) & _). Qed.

Lemma evolved_kind r0 s n : evolved r0 s -> kind (node s n) = kind (node r0 n).
Proof. intros ((_ & _ & H) & _). apply H. Qed.

Lemma evolved_refid r0 s n :
  evolved r0 s -> refid (node s n) = refid (node r0 n).
Proof. intros ((_ & _ & H) & _). apply H. Qed.

Lemma listed_as_evolved r0 s l0 l ks :
  evolved r0 s -> l ⊆ l0 -> listed_as r0 l0 ks -> listed_as s l ks.
Proof.
  intros ((Hall & _ & Hk) & _) Hsub Hl x Hx.
  rewrite Hall, (proj1 (Hk x)). apply Hl, Hsub, Hx.
Qed.

Lemma evolved_pure r0 s : kind_lists_pure r0 -> evolved r0 s -> kind_lists_pure s.
Proof.
  intros Hpure He. pose proof He as (_ & Hw & _).
  unfold kind_lists_pure, lists_within in *.
  repeat match goal with
         | H : _ /\ _ |- _ => destruct H
         end.
  repeat apply conj; eapply (listed_as_evolved r0 s); eassumption.
Qed.

(** An assignment to the object [n] that keeps its kind and refid, and adds
    links to registered objects of the expected kind only. *)
Lemma evolved_upd_links r0 n f s :
  (forall nd, kind (f nd) = kind nd) ->
  (forall nd, refid (f nd) = refid nd) ->
  (forall p, parent (f (node s n)) = Some p ->
             parent (node s n) = Some p \/
             (p ∈ all_nodes s /\ kind (node s p) ∈ parent_kinds)) ->
  (forall g, def_in_file (f (node s n)) = Some g ->
             def_in_file (node s n) = Some g \/
             (g ∈ all_nodes s /\ kind (node s g) = "file")) ->
  (forall x, x ∈ namespaces_used (f (node s n)) ->
             x ∈ namespaces_used (node s n) \/
             (x ∈ all_nodes s /\ kind (node s x) = "namespace")) ->
  (forall x, x ∈ children (f (node s n)) ->
             x ∈ children (node s n) \/
             (x ∈ all_nodes s /\
              child_ok (kind (node s n)) (kind (node s x)) = true)) ->
  evolved r0 s -> evolved r0 (upd n f s).
Proof.
  intros Hk Hr Hp Hd Hu Hc ((Hall & Hnext & Hkr) & Hw & Hnd & Hl & Hck).
  split; [|split; [exact Hw|split; [exact Hnd|split]]].
  - split; [exact Hall|]. split; [exact Hnext|]. intros m.
    rewrite (node_upd_field kind), (node_upd_field refid) by assumption.
    apply Hkr.
  - now apply links_kinded_upd.
  - now apply children_kinded_upd.
Qed.

Lemma evolved_upd r0 n f s :
  (forall nd, kind (f nd) = kind nd) ->
  (forall nd, refid (f nd) = refid nd) ->
  (forall nd, parent (f nd) = parent nd) ->
  (forall nd, def_in_file (f nd) = def_in_file nd) ->
  (forall nd, namespaces_used (f nd) = namespaces_used nd) ->
  (forall nd, children (f nd) = children nd) ->
  evolved r0 s -> evolved r0 (upd n f s).
Proof.
  intros Hk Hr Hp Hd Hu Hc. apply evolved_upd_links; try assumption.
  - intros p E. left. now rewrite Hp in E.
  - intros g E. left. now rewrite Hd in E.
  - intros x E. left. now rewrite Hu in E.
  - intros x E. left. now rewrite Hc in E.
Qed.

(** An assignment to the children of [n] that adds no child. *)
Lemma evolved_upd_children r0 n (g : list nat -> list nat) s :
  (forall l x, x ∈ g l -> x ∈ l) ->
  evolved r0 s ->
  evolved r0 (upd n (fun nd => set_children (g (children nd)) nd) s).
Proof.
  intros Hg. apply evolved_upd_links; try reflexivity; try (now left).
  intros x Hx. left. now apply Hg.
Qed.

Lemma evolved_set_parent r0 c p s :
  p ∈ all_nodes s -> kind (node s p) ∈ parent_kinds ->
  evolved r0 s -> evolved r0 (upd c (set_parent (Some p)) s).
Proof.
  intros Hp Hk. apply evolved_upd_links; try reflexivity; try (now left).
  intros q [= <-]. now right.
Qed.

Lemma evolved_set_def_in_file r0 n f s :
  f ∈ all_nodes s -> kind (node s f) = "file" ->
  evolved r0 s -> evolved r0 (upd n (set_def_in_file (Some f)) s).
Proof.
  intros Hf Hk. apply evolved_upd_links; try reflexivity; try (now left).
  intros q [= <-]. now right.
Qed.

Lemma evolved_append_child r0 p c s :
  c ∈ all_nodes s -> child_ok (kind (node s p)) (kind (node s c)) = true ->
  evolved r0 s -> evolved r0 (append_child p c s).
Proof.
  intros Hc Hk. apply evolved_upd_links; try reflexivity; try (now left).
  intros x [Hx|Hx]%elem_of_app; [now left|].
  apply list_elem_of_singleton in Hx as ->. now right.
Qed.

Lemma evolved_attach r0 p c s :
  p ∈ all_nodes s -> kind (node s p) ∈ parent_kinds ->
  c ∈ all_nodes s -> child_ok (kind (node s p)) (kind (node s c)) = true ->
  evolved r0 s -> evolved r0 (attach p c s).
Proof.
  intros Hp Hk Hc Hok He. unfold attach. apply evolved_set_parent.
  - exact Hp.
  - unfold append_child. now rewrite (node_upd_field kind) by reflexivity.
  - now apply evolved_append_child.
Qed.

(** A change of the lists that adds no node to any of them. *)
Lemma evolved_lists r0 s s' :
  heap s' = heap s -> all_nodes s' = all_nodes s -> next_id s' = next_id s ->
  node_by_refid s' = node_by_refid s ->
  lists_within s s' -> lists_nodup s' -> evolved r0 s -> evolved r0 s'.
Proof.
  intros Hh Ha Hn Hr Hw Hnd' ((Hall & Hnext & Hkr) & Hw0 & Hnd & Hl & Hck).
  unfold evolved, frozen, links_kinded, children_kinded, node in *.
  rewrite Hh, Ha, Hr.
  split; [|split; [|split; [exact Hnd'|split; [exact Hl|exact Hck]]]].
  - split; [congruence|]. split; [congruence|]. exact Hkr.
  - unfold lists_within in *.
    repeat match goal with
           | H : _ /\ _ |- _ => destruct H
           end.
    repeat apply conj; intros x Hx; eauto.
Qed.

(** [self.node_by_refid[n.refid] = n] for a registered node. *)
Lemma evolved_register r0 n s :
  n ∈ all_nodes s -> evolved r0 s ->
  evolved r0
    (with_node_by_refid (dict_set (refid (node s n)) n (node_by_refid s)) s).
Proof.
  intros Hn (Hf & Hw & Hnd & (Hpk & Hdk & Huk & Hrk) & Hck).
  split; [exact Hf|]. split; [exact Hw|]. split; [exact Hnd|].
  split; [|exact Hck]. split; [exact Hpk|]. split; [exact Hdk|].
  split; [exact Huk|].
  intros rid m. simpl. rewrite dict_get_set.
  destruct (decide (rid = refid (node s n))) as [->|]; [|apply Hrk].
  intros [= <-]. now split.
Qed.

(** One step of a proof that a pass keeps what [evolved] states. *)
Ltac evolve_step :=
  match goal with
  | H : evolved ?r0 ?r |- evolved ?r0 ?r => exact H
  | |- evolved _ (fst (_, _)) => simpl
  | |- evolved _ (upd _ _ _) => apply evolved_upd; [reflexivity..|]
  | |- evolved _ (fold_left _ _ _) =>
      apply fold_left_invariant; [intros ? ? ?|]
  | |- evolved _ (if ?b then _ else _) => destruct b eqn:?
  | |- evolved _ (match ?x with _ => _ end) => destruct x eqn:?
  | |- evolved ?r0 (exclaimError _ ?r) => change (evolved r0 r)
  | |- evolved ?r0 (with_diagnostics _ ?r) => change (evolved r0 r)
  end.

Ltac evolve := repeat evolve_step.

(** The nodes of the lists of a root that evolved from [r0]. *)
Lemma evolved_listed r0 s :
  kind_lists_pure r0 -> evolved r0 s ->
  (forall n, n ∈ class_like s ->
             n ∈ all_nodes s /\ kind (node s n) ∈ ["class"; "struct"] /\
             kind (node s n) ∈ parent_kinds) /\
  (forall n, n ∈ namespaces s ->
             n ∈ all_nodes s /\ kind (node s n) = "namespace" /\
             kind (node s n) ∈ parent_kinds) /\
  (forall n, n ∈ dirs s ->
             n ∈ all_nodes s /\ kind (node s n) = "dir" /\
             kind (node s n) ∈ parent_kinds) /\
  (forall n, n ∈ files s -> n ∈ all_nodes s /\ kind (node s n) = "file") /\
  (forall n, n ∈ unions s -> n ∈ all_nodes s /\ kind (node s n) = "union").
Proof.
  intros Hpure He. pose proof (evolved_pure r0 s Hpure He) as H.
  unfold kind_lists_pure in H.
  destruct H as (Hcl & _ & _ & _ & _ & Hd & Hf & _ & Hn & _ & Hu & _).
  unfold parent_kinds.
  repeat apply conj; intros n Hn';
    match goal with
    | H : listed_as s ?l _, Hn : _ ∈ ?l |- _ =>
        destruct (H n Hn) as [Hreg Hk]
    end;
    (split; [exact Hreg|]);
    repeat match goal with
           | H : _ ∈ _ :: _ |- _ => apply elem_of_cons in H as [H|H]
           | H : _ ∈ [] |- _ => now apply elem_of_nil in H
           end;
    rewrite ?Hk; try split; try reflexivity; repeat constructor.
Qed.

(** The nodes of the lists of [r0], in a root that evolved from it. *)
Lemma evolved_listed0 r0 s l ks n :
  evolved r0 s -> listed_as r0 l ks -> n ∈ l ->
  n ∈ all_nodes s /\ kind (node s n) ∈ ks.
Proof.
  intros He Hl Hn. rewrite (evolved_all_nodes r0 s He), (evolved_kind r0 s n He).
  now apply Hl.
Qed.

Lemma evolved_registry r0 s rid nd :
  evolved r0 s -> dict_get rid (node_by_refid s) = Some nd ->
  nd ∈ all_nodes s.
Proof. intros (_ & _ & _ & (_ & _ & _ & H) & _) E. now apply (H rid nd). Qed.

Lemma evolved_file_innerclass r0 f s attr :
  f ∈ all_nodes r0 -> kind (node r0 f) = "file" ->
  evolved r0 s -> evolved r0 (file_innerclass f s attr).
Proof.
  intros Hf Hk H. unfold file_innerclass. evolve.
  apply evolved_set_def_in_file; [| |evolve].
  - change (f ∈ all_nodes s). now rewrite (evolved_all_nodes r0).
  - change (kind (node s f) = "file"). now rewrite (evolved_kind r0).
Qed.

Lemma evolved_file_memberdef r0 f s member :
  f ∈ all_nodes r0 -> kind (node r0 f) = "file" ->
  evolved r0 s -> evolved r0 (file_memberdef f s member).
Proof.
  intros Hf Hk H. unfold file_memberdef. evolve.
  apply evolved_set_def_in_file; [| |evolve].
  - change (f ∈ all_nodes s). now rewrite (evolved_all_nodes r0).
  - change (kind (node s f) = "file"). now rewrite (evolved_kind r0).
Qed.

Lemma evolved_file_compounddef r0 f cdef s :
  f ∈ all_nodes r0 -> kind (node r0 f) = "file" ->
  evolved r0 s -> evolved r0 (file_compounddef f cdef s).
Proof.
  intros Hf Hk H. unfold file_compounddef. evolve.
  - now apply evolved_file_memberdef.
  - now apply evolved_file_innerclass.
Qed.

Lemma evolved_discover_file_xml r0 inp fs s :
  (forall f, f ∈ fs -> f ∈ all_nodes r0 /\ kind (node r0 f) = "file") ->
  evolved r0 s -> evolved r0 (discover_file_xml inp fs s).
Proof.
  revert s. induction fs as [|f fs IH]; intros s Hfs H; simpl; [assumption|].
  destruct (Hfs f) as [Hf Hk]; [apply elem_of_cons; now left|].
  assert (Hfs' : forall g, g ∈ fs ->
                   g ∈ all_nodes r0 /\ kind (node r0 g) = "file")
    by (intros g Hg; apply Hfs, elem_of_cons; now right).
  destruct (node_xml inp (refid (node s f))) as [| |[cdef|]].
  - now apply IH.
  - evolve.
  - apply IH; [assumption|]. apply evolved_file_compounddef; try assumption.
    evolve.
  - apply IH; [assumption|]. evolve.
Qed.

Lemma evolved_namespace_inner r0 nspace s attr :
  nspace ∈ all_nodes r0 -> kind (node r0 nspace) = "namespace" ->
  evolved r0 s -> evolved r0 (namespace_inner nspace s attr).
Proof.
  intros Hn Hk H. unfold namespace_inner.
  destruct attr as [rid|]; [|assumption].
  destruct (dict_get rid (node_by_refid s)) as [nd|] eqn:E; [|assumption].
  destruct (mem nd _); [assumption|].
  apply (evolved_attach r0 nspace nd); try assumption.
  - now rewrite (evolved_all_nodes r0).
  - rewrite (evolved_kind r0), Hk by assumption. repeat constructor.
  - eapply evolved_registry; eassumption.
  - now rewrite (evolved_kind r0 s nspace), Hk by assumption.
Qed.

Lemma evolved_assign_file_by_location r0 filedef nd fs s s' :
  (forall f, f ∈ fs -> f ∈ all_nodes r0 /\ kind (node r0 f) = "file") ->
  nd ∈ all_nodes r0 ->
  evolved r0 s ->
  assign_file_by_location filedef nd fs s = Ok s' -> evolved r0 s'.
Proof.
  intros Hfs Hnd. revert s Hfs.
  induction fs as [|f fs IH]; intros s Hfs H; simpl.
  - now intros [= <-].
  - destruct (def_in_file_location (node s f)) as [loc|]; [|discriminate].
    destruct (decide (loc = Some filedef)).
    + intros [= <-].
      destruct (Hfs f) as [Hf Hk]; [apply elem_of_cons; now left|].
      assert (He : evolved r0 (upd nd (set_def_in_file (Some f)) s)).
      { apply evolved_set_def_in_file; [| |assumption].
        - now rewrite (evolved_all_nodes r0).
        - now rewrite (evolved_kind r0). }
      destruct (mem nd _); [assumption|].
      apply evolved_append_child; [| |assumption].
      * now rewrite (evolved_all_nodes r0 _ He).
      * now rewrite (evolved_kind r0 _ f He), Hk.
    + apply IH; [|assumption]. intros g Hg. apply Hfs, elem_of_cons. now right.
Qed.

Lemma evolved_files0 r0 s :
  kind_lists_pure r0 -> evolved r0 s ->
  forall f, f ∈ files s -> f ∈ all_nodes r0 /\ kind (node r0 f) = "file".
Proof.
  intros Hpure H f Hf.
  rewrite <- (evolved_kind r0 s) , <- (evolved_all_nodes r0 s) by assumption.
  now apply (evolved_listed r0 s Hpure H).
Qed.

Lemma evolved_namespace_memberdef r0 s memberdef s' :
  kind_lists_pure r0 -> evolved r0 s ->
  namespace_memberdef s memberdef = Ok s' -> evolved r0 s'.
Proof.
  intros Hpure H. unfold namespace_memberdef.
  destruct (md_id memberdef) as [rid|]; [|now intros [= <-]].
  destruct (dict_get rid (node_by_refid s)) as [nd|] eqn:E;
    [|now intros [= <-]].
  destruct (md_location_file memberdef) as [filedef|]; [|now intros [= <-]].
  apply evolved_assign_file_by_location; [| |assumption].
  - now apply evolved_files0.
  - rewrite <- (evolved_all_nodes r0 s) by assumption.
    eapply evolved_registry; eassumption.
Qed.

Lemma evolved_discover_namespace_xml r0 inp s nspace s' :
  kind_lists_pure r0 ->
  nspace ∈ all_nodes r0 -> kind (node r0 nspace) = "namespace" ->
  evolved r0 s ->
  discover_namespace_xml inp s nspace = Ok s' -> evolved r0 s'.
Proof.
  intros Hpure Hn Hk H. unfold discover_namespace_xml.
  destruct (node_xml inp (refid (node s nspace))) as [| |[cdef|]];
    try (now intros [= <-]); try discriminate.
  apply (for_each_invariant (evolved r0)).
  - intros s1 sectiondef s2 Hs.
    apply (for_each_invariant (evolved r0)); [|assumption].
    intros s3 md s4 Hs3. now apply evolved_namespace_memberdef.
  - apply fold_left_invariant; [intros; now apply evolved_namespace_inner|].
    apply fold_left_invariant; [intros; now apply evolved_namespace_inner|].
    assumption.
Qed.

Lemma candidates_within_listing_ref fs missing f cands ref :
  f ∈ fs -> candidates_within fs cands ->
  candidates_within fs (listing_ref missing f cands ref).
Proof.
  intros Hf Hc. unfold listing_ref.
  destruct (r_refid ref) as [rid|]; [|assumption].
  destruct (bool_decide _); [|assumption].
  destruct (dict_mem rid missing); [|assumption].
  destruct (mem f _); [assumption|].
  intros rid' l x. rewrite dict_get_set.
  destruct (decide (rid' = rid)) as [->|]; [|apply Hc].
  intros [= <-] [Hx|Hx]%elem_of_app.
  - destruct (dict_get rid cands) as [l0|] eqn:E; simpl in Hx.
    + eapply Hc; eassumption.
    + now apply elem_of_nil in Hx.
  - now apply list_elem_of_singleton in Hx as ->.
Qed.

Lemma candidates_within_listing_candidates fs r missing cands f cands' :
  f ∈ fs -> candidates_within fs cands ->
  listing_candidates r missing cands f = Ok cands' ->
  candidates_within fs cands'.
Proof.
  intros Hf Hc. unfold listing_candidates.
  destruct (soup (node r f)) as [[cdef|]|]; try discriminate.
  destruct (cd_programlisting cdef) as [refs|]; intros [= <-]; [|assumption].
  apply fold_left_invariant; [|assumption].
  intros; now apply candidates_within_listing_ref.
Qed.

Lemma candidates_within_no_candidates fs missing :
  candidates_within fs (no_candidates missing).
Proof.
  intros rid l x. rewrite no_candidates_get.
  destruct (dict_mem rid missing); [|discriminate].
  intros [= <-] H. now apply elem_of_nil in H.
Qed.

Lemma evolved_resolve_missing_file_defs r0 s s' :
  kind_lists_pure r0 -> evolved r0 s ->
  resolve_missing_file_defs s = Ok s' -> evolved r0 s'.
Proof.
  intros Hpure H. unfold resolve_missing_file_defs.
  destruct (for_each _ _ _) as [cands|] eqn:E; simpl; [|discriminate].
  intros [= <-].
  assert (Hc : candidates_within (files s) cands).
  { revert E. apply (for_each_invariant_in (candidates_within (files s))).
    - intros c f c' Hf Hcw. now apply candidates_within_listing_candidates.
    - apply candidates_within_no_candidates. }
  pose proof (evolved_files0 r0 s Hpure H) as Hfile.
  apply fold_left_invariant; [|assumption].
  intros s1 rid Hs1. unfold resolve_candidate.
  destruct (dict_get rid (missing_file_def s)) as [nd|]; [|assumption].
  destruct (dict_get rid cands) as [[|f [|]]|] eqn:Ec; try assumption.
  destruct (Hfile f) as [Hf Hk].
  { apply (Hc rid [f] f Ec). now apply list_elem_of_singleton. }
  apply evolved_set_def_in_file; [| |assumption].
  - now rewrite (evolved_all_nodes r0).
  - now rewrite (evolved_kind r0).
Qed.

Lemma indexed_pure r : indexed r -> kind_lists_pure r.
Proof. now intros (_ & H & _). Qed.

Lemma indexed_evolved r : indexed r -> evolved r r.
Proof. intros (_ & _ & Hnd & Hl & Hc). now apply evolved_refl. Qed.

(** Discovery: the loop over the index leaves a root [r0], and the rest of
    [discoverAllNodes] keeps its nodes and lists. *)
Lemma evolved_discoverAllNodes inp r :
  discoverAllNodes inp init_root = Ok r ->
  exists compounds,
    index inp = Some compounds /\
    let r0 := fold_left discover_compound compounds init_root in
    indexed r0 /\ next_id r0 = registered_count compounds /\ evolved r0 r.
Proof.
  unfold discoverAllNodes, discover_relationships.
  destruct (index inp) as [compounds|]; [|discriminate].
  intros H. exists compounds. split; [reflexivity|]. cbv zeta.
  destruct (indexed_discover_index compounds init_root indexed_init)
    as [Hi Hn].
  set (r0 := fold_left discover_compound compounds init_root) in *.
  split; [exact Hi|]. split; [exact Hn|].
  pose proof (indexed_pure r0 Hi) as Hpure.
  pose proof (indexed_evolved r0 Hi) as H0.
  pose proof (evolved_discover_file_xml r0 inp (files r0) r0
                (evolved_files0 r0 r0 Hpure H0) H0) as H1.
  set (r1 := discover_file_xml inp (files r0) r0) in *.
  destruct (for_each _ _ _) as [r2|] eqn:E; simpl in H; [|discriminate].
  apply (evolved_resolve_missing_file_defs r0 r2 r Hpure); [|exact H].
  revert E. apply (for_each_invariant_in (evolved r0)); [|exact H1].
  intros s n s' Hn' Hs.
  destruct (evolved_listed r0 r1 Hpure H1) as (_ & Hns & _).
  destruct (Hns n Hn') as (Hreg & Hk & _).
  apply evolved_discover_namespace_xml; try assumption.
  - now rewrite <- (evolved_all_nodes r0 r1).
  - now rewrite <- (evolved_kind r0 r1).
Qed.

Lemma find_elem_of {A} (f : A -> bool) l x :
  List.find f l = Some x -> x ∈ l /\ f x = true.
Proof.
  intros [H1 H2]%find_some. split; [now apply list_elem_of_In|assumption].
Qed.

Lemma find_union_parent_elem_of r u p is_class :
  find_union_parent r u = Some (p, is_class) ->
  if is_class then p ∈ class_like r else p ∈ namespaces r.
Proof.
  unfold find_union_parent. cbv zeta. intros E. destruct is_class; revert E;
  repeat match goal with
         | |- context [if ?b then _ else _] => destruct b
         | |- context [match List.find ?f ?l with _ => _ end] =>
             destruct (List.find f l) eqn:?
         end; intros [= <-];
    match goal with
    | E : List.find _ ?l = Some ?p |- ?p ∈ ?l =>
        apply (find_elem_of _ _ _ E)
    end.
Qed.

Lemma find_class_parent_elem_of r cl p :
  find_class_parent r cl = Some p -> p ∈ class_like r.
Proof.
  unfold find_class_parent. destruct (_ <? _)%nat; [|discriminate].
  intros E. apply (find_elem_of _ _ _ E).
Qed.

Lemma list_remove_subseteq x l : list_remove x l ⊆ l.
Proof.
  induction l as [|y l IH]; simpl; [easy|].
  destruct (decide (x = y)); intros z Hz.
  - apply elem_of_cons. now right.
  - apply elem_of_cons in Hz as [->|Hz]; apply elem_of_cons; auto.
Qed.

Lemma NoDup_list_remove x l : NoDup l -> NoDup (list_remove x l).
Proof.
  induction l as [|y l IH]; simpl; [easy|].
  intros [Hy Hl]%NoDup_cons. destruct (decide (x = y)); [assumption|].
  apply NoDup_cons. split; [|auto].
  intros H. apply Hy. now apply (list_remove_subseteq x).
Qed.

Lemma fold_list_remove_subseteq removals l :
  fold_left (fun l rm => list_remove rm l) removals l ⊆ l.
Proof.
  revert l. induction removals as [|rm rms IH]; intros l; simpl; [easy|].
  intros x Hx. apply (list_remove_subseteq rm), IH, Hx.
Qed.

Lemma NoDup_fold_list_remove removals l :
  NoDup l -> NoDup (fold_left (fun l rm => list_remove rm l) removals l).
Proof.
  revert l. induction removals as [|rm rms IH]; intros l H; simpl; [easy|].
  now apply IH, NoDup_list_remove.
Qed.

Lemma fold_list_remove_mem_subseteq removals l :
  fold_left (fun l rm => if mem rm l then list_remove rm l else l) removals l
  ⊆ l.
Proof.
  revert l. induction removals as [|rm rms IH]; intros l; simpl; [easy|].
  intros x Hx. apply IH in Hx. destruct (mem rm l); [|assumption].
  now apply (list_remove_subseteq rm).
Qed.

Lemma NoDup_fold_list_remove_mem removals l :
  NoDup l ->
  NoDup (fold_left (fun l rm => if mem rm l then list_remove rm l else l)
           removals l).
Proof.
  revert l. induction removals as [|rm rms IH]; intros l H; simpl; [easy|].
  apply IH. destruct (mem rm l); [now apply NoDup_list_remove|assumption].
Qed.

(** An assignment to one list of the root [s] that adds no node to it and
    leaves it without duplicates. *)
Ltac evolve_list He Hsub Hnd :=
  match goal with
  | |- evolved ?r0 (_ _ ?s) =>
      apply (evolved_lists r0 s);
      [reflexivity|reflexivity|reflexivity|reflexivity
      |unfold lists_within; repeat apply conj;
       first [exact Hsub|intros ? Hx; exact Hx]
      |let H := fresh in
       pose proof He as (_ & _ & H & _); unfold lists_nodup in H |- *;
       repeat match goal with
              | H : _ /\ _ |- _ => destruct H
              end;
       repeat apply conj; first [exact Hnd|assumption]
      |exact He]
  end.

Lemma evolved_lists_nodup r0 s : evolved r0 s -> lists_nodup s.
Proof. now intros (_ & _ & H & _). Qed.

Lemma evolved_reparent_union r0 acc u :
  kind_lists_pure r0 ->
  u ∈ all_nodes r0 -> kind (node r0 u) = "union" ->
  evolved r0 (fst acc) -> evolved r0 (fst (reparent_union acc u)).
Proof.
  intros Hpure Hu Hk. destruct acc as [s removals]. simpl fst at 1. intros H.
  destruct (evolved_listed r0 s Hpure H) as (Hcl & Hns & _).
  assert (Hu' : u ∈ all_nodes s) by now rewrite (evolved_all_nodes r0).
  assert (Hk' : kind (node s u) = "union") by now rewrite (evolved_kind r0).
  rewrite reparent_union_find.
  destruct (find_union_parent s u) as [[p [|]]|] eqn:E; simpl;
    [| |assumption].
  - destruct (Hcl p (find_union_parent_elem_of s u p true E))
      as (Hp & Hpk & Hpk').
    apply evolved_attach; try assumption.
    apply child_ok_class_like; [assumption|]. rewrite Hk'. repeat constructor.
  - destruct (Hns p (find_union_parent_elem_of s u p false E))
      as (Hp & Hpk & Hpk').
    apply evolved_attach; try assumption. now rewrite Hpk.
Qed.

Lemma reparent_union_lists acc u :
  unions (fst (reparent_union acc u)) = unions (fst acc).
Proof.
  destruct acc as [s removals]. rewrite reparent_union_find.
  now destruct (find_union_parent s u) as [[p [|]]|].
Qed.

Lemma evolved_reparentUnions r0 r :
  kind_lists_pure r0 -> evolved r0 r -> evolved r0 (reparentUnions r).
Proof.
  intros Hpure H. unfold reparentUnions.
  assert (H' : evolved r0 (fst (fold_left reparent_union (unions r) (r, [])))).
  { apply (fold_left_invariant_in (fun acc => evolved r0 (fst acc)));
      [|assumption].
    intros acc u Hu Hacc.
    destruct (evolved_listed r0 r Hpure H) as (_ & _ & _ & _ & Hun).
    destruct (Hun u Hu) as [Hreg Hk].
    apply evolved_reparent_union; try assumption.
    - now rewrite <- (evolved_all_nodes r0 r).
    - now rewrite <- (evolved_kind r0 r). }
  destruct (fold_left reparent_union (unions r) (r, [])) as [r' removals].
  simpl in H'.
  pose proof (fold_list_remove_subseteq removals (unions r')) as Hsub.
  pose proof (NoDup_fold_list_remove removals (unions r')) as Hnd.
  assert (Hnd' : NoDup (unions r'))
    by (now destruct (evolved_lists_nodup r0 r' H')
          as (_&_&_&_&_&_&_&_&_&_&?&_)).
  specialize (Hnd Hnd').
  evolve_list H' Hsub Hnd.
Qed.

Lemma evolved_reparent_class_like r0 acc cl :
  kind_lists_pure r0 ->
  cl ∈ all_nodes r0 -> kind (node r0 cl) ∈ ["class"; "struct"] ->
  evolved r0 (fst acc) -> evolved r0 (fst (reparent_class_like acc cl)).
Proof.
  intros Hpure Hc Hk. destruct acc as [s removals]. simpl fst at 1. intros H.
  destruct (evolved_listed r0 s Hpure H) as (Hcl & _).
  rewrite reparent_class_like_find.
  destruct (find_class_parent s cl) as [p|] eqn:E; simpl; [|assumption].
  destruct (Hcl p (find_class_parent_elem_of s cl p E)) as (Hp & Hpk & Hpk').
  apply evolved_attach; try assumption.
  - now rewrite (evolved_all_nodes r0).
  - apply child_ok_class_like; [assumption|].
    rewrite (evolved_kind r0) by assumption.
    apply elem_of_cons in Hk as [->|Hk]; [repeat constructor|].
    apply list_elem_of_singleton in Hk as ->. repeat constructor.
Qed.

Lemma evolved_reparentClassLike r0 r :
  kind_lists_pure r0 -> evolved r0 r -> evolved r0 (reparentClassLike r).
Proof.
  intros Hpure H. unfold reparentClassLike.
  assert (H' : evolved r0
                 (fst (fold_left reparent_class_like (class_like r) (r, [])))).
  { apply (fold_left_invariant_in (fun acc => evolved r0 (fst acc)));
      [|assumption].
    intros acc cl Hcl Hacc.
    destruct (evolved_listed r0 r Hpure H) as (Hcls & _).
    destruct (Hcls cl Hcl) as (Hreg & Hk & _).
    apply evolved_reparent_class_like; try assumption.
    - now rewrite <- (evolved_all_nodes r0 r).
    - now rewrite <- (evolved_kind r0 r). }
  destruct (fold_left reparent_class_like (class_like r) (r, []))
    as [r' removals].
  simpl in H'.
  pose proof (fold_list_remove_mem_subseteq removals (class_like r')) as Hsub.
  pose proof (NoDup_fold_list_remove_mem removals (class_like r')) as Hnd.
  assert (Hnd' : NoDup (class_like r'))
    by (now destruct (evolved_lists_nodup r0 r' H') as (?&_)).
  specialize (Hnd Hnd').
  evolve_list H' Hsub Hnd.
Qed.

Lemma evolved_reparent_directories_loop r0 rtraversal todo acc :
  (forall p, p ∈ rtraversal ->
             snd p ∈ all_nodes r0 /\ kind (node r0 (snd p)) = "dir") ->
  (forall p, p ∈ todo ->
             snd p ∈ all_nodes r0 /\ kind (node r0 (snd p)) = "dir") ->
  evolved r0 (fst acc) ->
  evolved r0 (fst (reparent_directories_loop rtraversal todo acc)).
Proof.
  intros Hdirs. revert acc.
  induction todo as [|[rank directory] todo IH]; intros acc Htodo H;
    simpl; [assumption|].
  destruct (rank <? 2)%nat; [assumption|].
  assert (Htodo' : forall p, p ∈ todo ->
                     snd p ∈ all_nodes r0 /\ kind (node r0 (snd p)) = "dir")
    by (intros p Hp; apply Htodo, elem_of_cons; now right).
  destruct (Htodo (rank, directory)) as [Hd Hdk];
    [apply elem_of_cons; now left|].
  destruct acc as [s removals].
  destruct (List.find _ rtraversal) as [[p_rank p_directory]|] eqn:E;
    apply IH; try assumption.
  simpl in *. apply find_elem_of in E as [E _].
  destruct (Hdirs _ E) as [Hp Hpk]. simpl in Hp, Hpk.
  apply evolved_attach; try assumption.
  - now rewrite (evolved_all_nodes r0).
  - rewrite (evolved_kind r0), Hpk by assumption. repeat constructor.
  - now rewrite (evolved_all_nodes r0).
  - rewrite (evolved_kind r0 s p_directory), (evolved_kind r0 s directory),
      Hpk, Hdk by assumption.
    reflexivity.
Qed.

Lemma evolved_reparentDirectories r0 r :
  kind_lists_pure r0 -> evolved r0 r -> evolved r0 (reparentDirectories r).
Proof.
  intros Hpure H. unfold reparentDirectories.
  assert (Hdirs : forall p,
             p ∈ List.rev (py_sort (rank_lt r) (dir_ranks r)) ->
             snd p ∈ all_nodes r0 /\ kind (node r0 (snd p)) = "dir").
  { intros [rank d] Hp. apply elem_of_rev_sort, elem_of_dir_ranks in Hp.
    destruct Hp as [_ Hd]. simpl.
    rewrite <- (evolved_kind r0 r), <- (evolved_all_nodes r0 r) by assumption.
    destruct (evolved_listed r0 r Hpure H) as (_ & _ & Hds & _).
    destruct (Hds d Hd) as (? & ? & _). now split. }
  pose proof (evolved_reparent_directories_loop r0 _
                (List.rev (py_sort (rank_lt r) (dir_ranks r))) (r, [])
                Hdirs Hdirs H) as H'.
  destruct (reparent_directories_loop _ _ _) as [r' removals].
  simpl in H'.
  pose proof (fold_list_remove_subseteq removals (dirs r')) as Hsub.
  pose proof (NoDup_fold_list_remove removals (dirs r')) as Hnd.
  assert (Hnd' : NoDup (dirs r'))
    by (now destruct (evolved_lists_nodup r0 r' H') as (_&_&_&_&_&?&_)).
  specialize (Hnd Hnd').
  evolve_list H' Hsub Hnd.
Qed.

Lemma evolved_renameToNamespaceScopes r0 r :
  evolved r0 r -> evolved r0 (renameToNamespaceScopes r).
Proof.
  intros H. unfold renameToNamespaceScopes.
  apply fold_left_invariant; [|assumption].
  intros s n Hs. unfold rename_namespace.
  apply fold_left_invariant; [|assumption].
  intros s' c Hs'. unfold rename_child. evolve.
Qed.

Lemma evolved_reparentNamespaces r0 r :
  evolved r0 r -> evolved r0 (reparentNamespaces r).
Proof.
  intros H. unfold reparentNamespaces.
  match goal with
  | |- evolved _ (with_namespaces (fold_left _ ?rm _) _) =>
      pose proof (fold_list_remove_subseteq rm (namespaces r)) as Hsub;
      pose proof (NoDup_fold_list_remove rm (namespaces r)) as Hnd
  end.
  assert (Hnd' : NoDup (namespaces r))
    by (now destruct (evolved_lists_nodup r0 r H) as (_&_&_&_&_&_&_&_&?&_)).
  specialize (Hnd Hnd').
  evolve_list H Hsub Hnd.
Qed.

Lemma evolved_dedup_children r0 r :
  evolved r0 r -> evolved r0 (dedup_children r).
Proof.
  intros H. unfold dedup_children. apply fold_left_invariant; [|assumption].
  intros s n Hs. apply (evolved_upd_children r0 n list_set); [|assumption].
  intros l x Hx. apply (proj1 (elem_of_remove_dups l x)), Hx.
Qed.

Lemma evolved_index_nodes r0 r :
  evolved r0 r -> evolved r0 (index_nodes r).
Proof.
  intros H. unfold index_nodes.
  apply fold_left_invariant_in; [|assumption].
  intros s n Hn Hs. apply evolved_register; [|assumption].
  now rewrite (evolved_all_nodes r0 s), <- (evolved_all_nodes r0 r).
Qed.

Lemma evolved_scan_line r0 f st line :
  evolved r0 (fst (fst st)) -> evolved r0 (fst (fst (scan_line f st line))).
Proof.
  destruct st as [[r owned] processing]. simpl. intros H.
  repeat match goal with
         | |- context [if ?b then _ else _] => destruct b
         | |- context [match ?x with Some _ => _ | None => _ end] => destruct x
         end; simpl; evolve.
Qed.

Lemma evolved_scan_file r0 inp acc f :
  evolved r0 (fst acc) -> evolved r0 (fst (scan_file inp acc f)).
Proof.
  destruct acc as [r ownerships]. simpl. intros H.
  destruct (file_lines inp (refid (node r f))) as [lines|]; [|exact H].
  assert (H' : evolved r0
                 (fst (fst (fold_left (scan_line f) lines (r, [], false)))))
    by (apply (fold_left_invariant (fun st => evolved r0 (fst (fst st))));
        [intros; now apply evolved_scan_line|assumption]).
  destruct (fold_left (scan_line f) lines (r, [], false)) as [[r' owned] p].
  exact H'.
Qed.

Lemma evolved_strip_location r0 strip r f r' :
  evolved r0 r -> strip_location strip r f = Ok r' -> evolved r0 r'.
Proof.
  intros H. unfold strip_location.
  destruct (Str.startswith _ _); [discriminate|]. intros [= <-]. evolve.
Qed.

Lemma evolved_reparent_to_file r0 f r match_refid :
  kind (node r0 f) = "file" ->
  evolved r0 r -> evolved r0 (reparent_to_file f r match_refid).
Proof.
  intros Hf H. unfold reparent_to_file.
  destruct (dict_get match_refid (node_by_refid r)) as [child|] eqn:E;
    [|assumption].
  pose proof (evolved_registry r0 r _ _ H E) as Hc.
  assert (Happend : evolved r0 (append_child f child r)).
  { apply evolved_append_child; [assumption| |assumption].
    now rewrite (evolved_kind r0 r f), Hf. }
  cbv zeta. destruct (file_child_kind _).
  - destruct (existsb _ _); [assumption|].
    destruct (_ =? "union"); [|assumption].
    now destruct (existsb _ _).
  - destruct (_ =? "namespace") eqn:Ens; [|assumption].
    destruct (existsb _ _); [assumption|].
    apply evolved_upd_links; try reflexivity; try (now left); [|assumption].
    intros x [Hx|Hx]%elem_of_app; [now left|].
    apply list_elem_of_singleton in Hx as ->. right.
    split; [assumption|]. now apply String.eqb_eq.
Qed.

Lemma evolved_adopt_orphan r0 f r orphan :
  kind (node r0 f) = "file" -> orphan ∈ all_nodes r0 ->
  evolved r0 r -> evolved r0 (adopt_orphan f r orphan).
Proof.
  intros Hf Ho H. unfold adopt_orphan. cbv zeta.
  destruct (_ && _); [|assumption].
  destruct (mem _ _); [assumption|].
  apply evolved_append_child; [| |assumption].
  - now rewrite (evolved_all_nodes r0).
  - now rewrite (evolved_kind r0 r f), Hf.
Qed.

Lemma evolved_check_file_children r0 r :
  kind_lists_pure r0 -> evolved r0 r -> evolved r0 (check_file_children r).
Proof.
  intros Hpure H. unfold check_file_children, check_children_of.
  apply fold_left_invariant_in; [|assumption].
  intros s f Hf Hs. apply fold_left_invariant; [|assumption].
  intros s' c Hs'. unfold check_file_child. evolve.
  destruct (evolved_files0 r0 r Hpure H f Hf) as [Hreg Hk].
  apply evolved_set_def_in_file; [| |assumption].
  - now rewrite (evolved_all_nodes r0).
  - now rewrite (evolved_kind r0).
Qed.

Lemma potential_orphans_registered r0 s f x :
  evolved r0 s -> x ∈ potential_orphans s f -> x ∈ all_nodes r0.
Proof.
  intros H Hx. unfold potential_orphans in Hx.
  apply list_elem_of_In, in_flat_map in Hx as (n & _ & Hx).
  apply filter_In in Hx as [Hx _]. apply list_elem_of_In in Hx.
  rewrite <- (evolved_all_nodes r0 s) by assumption.
  destruct H as (_ & _ & _ & _ & Hck). now apply (Hck n x).
Qed.

Lemma evolved_fileRefDiscovery r0 inp r r' :
  kind_lists_pure r0 ->
  evolved r0 r -> fileRefDiscovery inp r = Ok r' -> evolved r0 r'.
Proof.
  intros Hpure H. unfold fileRefDiscovery.
  destruct (negb (output_dir_valid inp)); [intros [= <-]; evolve|].
  assert (H1 : evolved r0 (fst (fold_left (scan_file inp) (files r) (r, []))))
    by (apply (fold_left_invariant (fun acc => evolved r0 (fst acc)));
        [intros; now apply evolved_scan_file|assumption]).
  destruct (fold_left (scan_file inp) (files r) (r, [])) as [r1 ownerships].
  simpl in H1.
  assert (H2 : forall r2,
             match doxygenStripFromPath inp with
             | Some strip => for_each (strip_location strip) (files r1) r1
             | None => Ok r1
             end = Ok r2 -> evolved r0 r2).
  { intros r2. destruct (doxygenStripFromPath inp) as [strip|].
    - apply (for_each_invariant (evolved r0)); [|assumption].
      intros s f s' Hs. now apply evolved_strip_location.
    - now intros [= <-]. }
  destruct (match doxygenStripFromPath inp with
            | Some strip => for_each (strip_location strip) (files r1) r1
            | None => Ok r1
            end) as [r2|]; simpl; [|discriminate].
  specialize (H2 r2 eq_refl). intros [= <-].
  apply evolved_check_file_children; [assumption|].
  set (r3 := fold_left _ (files r2) r2).
  assert (H3 : evolved r0 r3).
  { apply fold_left_invariant_in; [|assumption].
    intros s f Hf Hs. apply fold_left_invariant; [|assumption].
    intros s' rid Hs'. apply evolved_reparent_to_file; [|assumption].
    apply (evolved_files0 r0 r2 Hpure H2 f Hf). }
  assert (Hfiles : files r3 ⊆ files r2).
  { unfold r3. apply (fold_left_invariant (fun s => files s ⊆ files r2));
      [|easy].
    intros s f Hs.
    apply (fold_left_invariant (fun s => files s ⊆ files r2)); [|assumption].
    intros s' rid Hs'. unfold reparent_to_file.
    repeat match goal with
           | |- context [if ?b then _ else _] => destruct b
           | |- context [match ?x with Some _ => _ | None => _ end] =>
               destruct x
           end; exact Hs'. }
  apply fold_left_invariant_in; [|assumption].
  intros s f Hf Hs. apply fold_left_invariant_in; [|assumption].
  intros s' orphan Ho Hs'. apply evolved_adopt_orphan; [| |assumption].
  - apply (evolved_files0 r0 r2 Hpure H2 f), Hfiles, Hf.
  - apply (potential_orphans_registered r0 s f orphan Hs Ho).
Qed.

Lemma evolved_find_directory r0 fuel dir_path f nodes_remaining r :
  evolved r0 r ->
  f ∈ all_nodes r -> kind (node r f) = "file" ->
  (forall d, d ∈ nodes_remaining ->
             d ∈ all_nodes r /\ kind (node r d) = "dir") ->
  evolved r0 (find_directory fuel dir_path f nodes_remaining r).
Proof.
  intros H Hf Hfk. revert nodes_remaining. induction fuel as [|fuel IH];
    intros nodes_remaining Hdirs; simpl; [assumption|].
  destruct (List.rev nodes_remaining) as [|d rest] eqn:E; [assumption|].
  assert (Hrev : forall x, x ∈ d :: rest ->
                   x ∈ all_nodes r /\ kind (node r x) = "dir").
  { intros x Hx. apply Hdirs. rewrite <- E in Hx.
    now apply list_elem_of_In, in_rev, list_elem_of_In in Hx. }
  destruct (Hrev d) as [Hd Hdk]; [apply elem_of_cons; now left|].
  destruct (Str.contains _ _).
  - destruct (_ =? _).
    + apply evolved_attach; try assumption.
      * rewrite Hdk. repeat constructor.
      * now rewrite Hdk, Hfk.
    + apply IH. intros x Hx.
      apply list_elem_of_In, filter_In in Hx as [Hx Hxk].
      apply list_elem_of_In in Hx. split; [|now apply String.eqb_eq].
      destruct H as (_ & _ & _ & _ & Hck). now apply (Hck d x).
  - apply IH. intros x Hx. apply Hrev, elem_of_cons. right.
    now apply list_elem_of_In, in_rev, list_elem_of_In in Hx.
Qed.

Lemma evolved_filePostProcess r0 fuel r :
  kind_lists_pure r0 -> evolved r0 r -> evolved r0 (filePostProcess fuel r).
Proof.
  intros Hpure H. unfold filePostProcess.
  apply fold_left_invariant_in; [|assumption].
  intros s f Hf Hs. unfold post_process_file.
  destruct (_ =? _)%nat; [assumption|].
  destruct (evolved_files0 r0 r Hpure H f Hf) as [Hreg Hk].
  apply evolved_find_directory; [assumption| | |].
  - now rewrite (evolved_all_nodes r0).
  - now rewrite (evolved_kind r0).
  - intros d Hd. destruct (evolved_listed r0 s Hpure Hs) as (_ & _ & Hds & _).
    destruct (Hds d Hd) as (? & ? & _). now split.
Qed.

Lemma evolved_typeSort r0 fuel r n :
  evolved r0 r -> evolved r0 (typeSort fuel r n).
Proof.
  revert r n. induction fuel as [|fuel IH]; intros r n H; simpl; [assumption|].
  apply fold_left_invariant; [intros; now apply IH|].
  apply (evolved_upd_children r0 n (sort_nodes r)); [|assumption].
  intros l x Hx. now apply py_sort_elem_of in Hx.
Qed.

Lemma evolved_sort_list r0 get set r :
  (forall l s, heap (set l s) = heap s) ->
  (forall l s, all_nodes (set l s) = all_nodes s) ->
  (forall l s, next_id (set l s) = next_id s) ->
  (forall l s, node_by_refid (set l s) = node_by_refid s) ->
  (forall l s, l ⊆ get s -> NoDup l -> lists_nodup s ->
               lists_within s (set l s) /\ lists_nodup (set l s)) ->
  (forall s, lists_nodup s -> NoDup (get s)) ->
  evolved r0 r -> evolved r0 (sort_list get set r).
Proof.
  intros Hh Ha Hn Hr Hw Hget H. unfold sort_list.
  destruct (Hw (sort_nodes r (get r)) r) as [H1 H2].
  - intros x Hx. now apply py_sort_elem_of in Hx.
  - unfold sort_nodes. rewrite py_sort_perm.
    apply Hget, (evolved_lists_nodup r0 r H).
  - apply (evolved_lists_nodup r0 r H).
  - apply (evolved_lists r0 r); auto.
Qed.

Lemma evolved_deepSortList r0 fuel get set r :
  (forall l s, heap (set l s) = heap s) ->
  (forall l s, all_nodes (set l s) = all_nodes s) ->
  (forall l s, next_id (set l s) = next_id s) ->
  (forall l s, node_by_refid (set l s) = node_by_refid s) ->
  (forall l s, l ⊆ get s -> NoDup l -> lists_nodup s ->
               lists_within s (set l s) /\ lists_nodup (set l s)) ->
  (forall s, lists_nodup s -> NoDup (get s)) ->
  evolved r0 r -> evolved r0 (deepSortList fuel get set r).
Proof.
  intros Hh Ha Hn Hr Hw Hget H. unfold deepSortList.
  apply fold_left_invariant; [intros; now apply evolved_typeSort|].
  now apply evolved_sort_list.
Qed.

Ltac lists_set :=
  intros ? ? Hsub Hnd Hs; unfold lists_within, lists_nodup in *;
  repeat match goal with
         | H : _ /\ _ |- _ => destruct H
         end;
  split; repeat apply conj;
  first [exact Hsub|exact Hnd|assumption|intros ? Hx; exact Hx].

Ltac lists_get :=
  intros ? Hs; unfold lists_nodup in Hs;
  repeat match goal with
         | H : _ /\ _ |- _ => destruct H
         end; assumption.

Lemma evolved_sortInternals r0 fuel r :
  evolved r0 r -> evolved r0 (sortInternals fuel r).
Proof.
  intros H. unfold sortInternals.
  repeat first
    [apply evolved_deepSortList;
       [reflexivity|reflexivity|reflexivity|reflexivity
       |lists_set|lists_get|]
    |apply evolved_sort_list;
       [reflexivity|reflexivity|reflexivity|reflexivity
       |lists_set|lists_get|]].
  exact H.
Qed.

(** The passes that follow discovery, from the root [r1] that it leaves. *)
Lemma evolved_parse_stages r0 inp fuel r1 :
  kind_lists_pure r0 -> evolved r0 r1 ->
  discoverAllNodes inp init_root = Ok r1 ->
  Forall (evolved r0) (parse_stages inp fuel).
Proof.
  intros Hpure H1 E1. unfold parse_stages. rewrite E1.
  pose proof (evolved_reparentUnions _ _ Hpure H1) as H2.
  pose proof (evolved_reparentClassLike _ _ Hpure H2) as H3.
  pose proof (evolved_reparentDirectories _ _ Hpure H3) as H4.
  pose proof (evolved_renameToNamespaceScopes _ _ H4) as H5.
  pose proof (evolved_reparentNamespaces _ _ H5) as H6.
  pose proof (evolved_dedup_children _ _ H6) as H7.
  pose proof (evolved_index_nodes _ _ H7) as H8.
  cbv zeta. repeat (apply Forall_cons; split; [assumption|]).
  destruct (fileRefDiscovery inp _) as [r9|] eqn:E9; [|constructor].
  pose proof (evolved_fileRefDiscovery _ inp _ r9 Hpure H8 E9) as H9.
  pose proof (evolved_filePostProcess _ fuel _ Hpure H9) as H10.
  pose proof (evolved_sortInternals _ fuel _ H10) as H11.
  repeat (apply Forall_cons; split; [assumption|]). constructor.
Qed.

(** Every root that the passes of [parse] leave has the nodes of the root
    [r0] that the loop over the index leaves. *)
Lemma evolved_from_the_index inp fuel :
  parse_stages inp fuel = [] \/
  exists compounds,
    index inp = Some compounds /\
    let r0 := fold_left discover_compound compounds init_root in
    indexed r0 /\ next_id r0 = registered_count compounds /\
    Forall (evolved r0) (parse_stages inp fuel).
Proof.
  destruct (discoverAllNodes inp init_root) as [r1|] eqn:E1;
    [right|left; unfold parse_stages; now rewrite E1].
  destruct (evolved_discoverAllNodes inp r1 E1) as (compounds & Hi & H).
  exists compounds. split; [exact Hi|]. cbv zeta in H |- *.
  destruct H as (Hidx & Hn & H1). split; [exact Hidx|]. split; [exact Hn|].
  apply (evolved_parse_stages _ inp fuel r1); try assumption.
  now apply indexed_pure.
Qed.

(** X1: after every pass of the pipeline, every list of the root holds
    registered nodes of its kind only ([class_like] classes and structs,
    [namespaces] namespaces, [files] files, and so on for the twelve
    lists), and holds none of them twice. *)
Theorem lists_hold_nodes_of_their_kind (inp : Input) (fuel : nat) :
  Forall (fun s => kind_lists_pure s /\ lists_nodup s) (parse_stages inp fuel).
Proof.
  destruct (evolved_from_the_index inp fuel)
    as [->|(compounds & _ & Hidx & _ & H)]; [constructor|].
  cbv zeta in *. eapply Forall_impl; [exact H|].
  intros s Hs. split; [|exact (evolved_lists_nodup _ s Hs)].
  eapply evolved_pure; [|exact Hs]. now apply indexed_pure.
Qed.

(** X2: after every pass of the pipeline, the parent of a node is a
    registered namespace, class, struct or directory (never a file), the
    defining file of a node is a registered file, the namespaces that a
    file uses are registered namespaces, and every entry of [node_by_refid]
    is a registered node under its own refid. *)
Theorem links_lead_to_nodes_of_the_expected_kind (inp : Input) (fuel : nat) :
  Forall links_kinded (parse_stages inp fuel).
Proof.
  destruct (evolved_from_the_index inp fuel)
    as [->|(compounds & _ & _ & _ & H)]; [constructor|].
  cbv zeta in *. eapply Forall_impl; [exact H|].
  now intros s (_ & _ & _ & Hs & _).
Qed.

(** X3: after every pass of the pipeline, the children of a node are
    registered nodes, only namespaces, files, classes, structs and
    directories have children, the children of a class or struct are
    classes, structs and unions, and the children of a directory are
    directories and files. *)
Theorem children_are_of_the_expected_kind (inp : Input) (fuel : nat) :
  Forall children_kinded (parse_stages inp fuel).
Proof.
  destruct (evolved_from_the_index inp fuel)
    as [->|(compounds & _ & _ & _ & H)]; [constructor|].
  cbv zeta in *. eapply Forall_impl; [exact H|].
  now intros s (_ & _ & _ & _ & Hs).
Qed.

(** X4: the passes that follow discovery keep the nodes that it registered:
    after each of them [all_nodes] is the list that discovery left, no
    object was created, every node has the kind and the refid that it had,
    and every list of the root holds nodes that it held after discovery. *)
Theorem passes_after_discovery_keep_the_nodes (inp : Input) (fuel : nat)
    (r1 : ExhaleRoot) :
  discoverAllNodes inp init_root = Ok r1 ->
  Forall (fun s => frozen r1 s /\ lists_within r1 s) (parse_stages inp fuel).
Proof.
  intros E1.
  destruct (evolved_discoverAllNodes inp r1 E1) as (compounds & _ & H).
  cbv zeta in H. destruct H as (Hidx & _ & H1).
  pose proof (evolved_pure _ _ (indexed_pure _ Hidx) H1) as Hpure.
  assert (H0 : evolved r1 r1)
    by (destruct H1 as (_ & _ & ? & ? & ?); now apply evolved_refl).
  eapply Forall_impl; [exact (evolved_parse_stages r1 inp fuel r1 Hpure H0 E1)|].
  now intros s (Hf & Hw & _).
Qed.

Lemma passes_after_discovery_keep_the_nodes_witness :
  let r1 := get_or init_root (discoverAllNodes shared_member_input init_root) in
  discoverAllNodes shared_member_input init_root = Ok r1 /\
  Forall (fun s => frozen r1 s /\ lists_within r1 s)
    (parse_stages shared_member_input 8).
Proof.
  intros r1.
  assert (H : discoverAllNodes shared_member_input init_root = Ok r1)
    by (apply is_ok_get_or; vm_compute; reflexivity).
  split; [exact H|].
  exact (passes_after_discovery_keep_the_nodes shared_member_input 8 r1 H).
Defined.

(** X5: discovery creates one object for every compound of the index that
    has its name, kind and refid, and one for every such member of a
    namespace or file compound, whether or not the refid was seen before;
    after every pass [all_nodes] holds these objects, each once, in the
    order of their creation. *)
Theorem discovery_registers_every_entry_once (inp : Input) (fuel : nat)
    (compounds : list Compound) :
  index inp = Some compounds ->
  Forall (fun s => all_nodes s = seq 0 (registered_count compounds) /\
                   next_id s = registered_count compounds)
    (parse_stages inp fuel).
Proof.
  intros Hi.
  destruct (evolved_from_the_index inp fuel)
    as [->|(compounds' & Hi' & (Hall & _) & Hn & H)]; [constructor|].
  assert (compounds' = compounds) by congruence. subst compounds'.
  eapply Forall_impl; [exact H|].
  intros s ((Hs & Hn' & _) & _). rewrite Hs, Hn', Hall, Hn. now split.
Qed.

Lemma discovery_registers_every_entry_once_witness :
  let compounds :=
    [compound "n" "namespace" "namespacen"
       [member "f" "function" "namespacen_1a0f"];
     compound "a.hpp" "file" "a_8hpp"
       [member "f" "function" "namespacen_1a0f"]] in
  index shared_member_input = Some compounds /\
  Forall (fun s => all_nodes s = seq 0 (registered_count compounds) /\
                   next_id s = registered_count compounds)
    (parse_stages shared_member_input 8).
Proof.
  intros compounds.
  assert (H : index shared_member_input = Some compounds) by reflexivity.
  split; [exact H|].
  exact (discovery_registers_every_entry_once shared_member_input 8
           compounds H).
Defined.

(** ** What the reparenting passes compute *)

Lemma list_remove_filter x l :
  NoDup l ->
  list_remove x l = List.filter (fun y => negb (bool_decide (y = x))) l.
Proof.
  induction l as [|y l IH]; simpl; [reflexivity|].
  intros [Hy Hl]%NoDup_cons. destruct (decide (x = y)) as [<-|Hne].
  - rewrite (bool_decide_eq_true_2 (x = x) eq_refl). simpl.
    symmetry. clear IH Hl. induction l as [|z l IH]; simpl; [reflexivity|].
    apply not_elem_of_cons in Hy as [Hz Hy].
    rewrite (bool_decide_eq_false_2 (z = x)) by congruence. simpl.
    now rewrite IH.
  - rewrite (bool_decide_eq_false_2 (y = x)) by congruence. simpl.
    now rewrite IH.
Qed.

Lemma NoDup_filter_bool {A} (f : A -> bool) l :
  NoDup l -> NoDup (List.filter f l).
Proof.
  induction l as [|y l IH]; simpl; [easy|].
  intros [Hy Hl]%NoDup_cons. destruct (f y); [|auto].
  apply NoDup_cons. split; [|auto].
  intros H. apply Hy. apply list_elem_of_In, filter_In in H as [H _].
  now apply list_elem_of_In.
Qed.

Lemma filter_filter_bool {A} (f g : A -> bool) l :
  List.filter f (List.filter g l) = List.filter (fun x => g x && f x) l.
Proof.
  induction l as [|y l IH]; simpl; [reflexivity|].
  destruct (g y); simpl; [destruct (f y)|]; now rewrite IH.
Qed.

Lemma filter_ext_elem_of {A} (f g : A -> bool) l :
  (forall x, x ∈ l -> f x = g x) -> List.filter f l = List.filter g l.
Proof.
  intros H. apply filter_ext_in. intros x Hx. apply H.
  now apply list_elem_of_In.
Qed.

(** On a list without duplicates, the removals leave the nodes that are
    not removed, in order. *)
Lemma fold_list_remove_filter removals l :
  NoDup l ->
  fold_left (fun l rm => list_remove rm l) removals l =
  List.filter (fun y => negb (mem y removals)) l.
Proof.
  revert l. induction removals as [|rm rms IH]; intros l Hl; simpl.
  - clear. induction l; simpl; congruence.
  - rewrite IH by now apply NoDup_list_remove.
    rewrite (list_remove_filter rm l Hl), filter_filter_bool.
    apply filter_ext_elem_of. intros x _. unfold mem.
    destruct (decide (x = rm)) as [->|Hne].
    + rewrite (bool_decide_eq_true_2 (rm = rm) eq_refl). simpl.
      symmetry. apply negb_false_iff, bool_decide_eq_true_2, elem_of_cons.
      now left.
    + rewrite (bool_decide_eq_false_2 (x = rm)) by assumption. simpl.
      f_equal. apply bool_decide_ext. rewrite elem_of_cons. tauto.
Qed.

Lemma list_remove_absent x l : x ∉ l -> list_remove x l = l.
Proof.
  induction l as [|y l IH]; simpl; [reflexivity|].
  intros [Hy Hl]%not_elem_of_cons.
  destruct (decide (x = y)); [contradiction|]. now rewrite IH.
Qed.

Lemma fold_list_remove_mem removals l :
  fold_left (fun l rm => if mem rm l then list_remove rm l else l) removals l =
  fold_left (fun l rm => list_remove rm l) removals l.
Proof.
  revert l. induction removals as [|rm rms IH]; intros l; simpl; [reflexivity|].
  destruct (mem rm l) eqn:E; [apply IH|].
  apply mem_false in E. rewrite (list_remove_absent rm l E). apply IH.
Qed.

(** [reparentNamespaces] collects the namespaces that have a namespace
    above them. *)
Lemma namespace_removals r l removals :
  NoDup l -> (forall x, x ∈ l -> x ∉ removals) ->
  fold_left
    (fun removals nspace =>
       if has_namespace_parent r nspace && negb (mem nspace removals)
       then removals ++ [nspace] else removals) l removals =
  removals ++ List.filter (has_namespace_parent r) l.
Proof.
  revert removals. induction l as [|x l IH]; intros removals Hl Hfresh; simpl.
  - now rewrite app_nil_r.
  - apply NoDup_cons in Hl as [Hx Hl].
    assert (Hm : mem x removals = false)
      by (apply mem_false, Hfresh, elem_of_cons; now left).
    rewrite Hm, andb_true_r.
    destruct (has_namespace_parent r x).
    + rewrite IH, <- app_assoc; [reflexivity|assumption|].
      intros y Hy [H|H]%elem_of_app.
      * apply (Hfresh y); [apply elem_of_cons; now right|assumption].
      * apply list_elem_of_singleton in H as ->. contradiction.
    + apply IH; [assumption|].
      intros y Hy. apply Hfresh, elem_of_cons. now right.
Qed.

(** X6: on a list of namespaces without duplicates, [reparentNamespaces]
    keeps in [namespaces] the namespaces whose parent is not a namespace,
    in their order, and changes nothing else of the root. *)
Theorem reparentNamespaces_keeps_the_top_level (r : ExhaleRoot) :
  NoDup (namespaces r) ->
  reparentNamespaces r =
  with_namespaces
    (List.filter (fun n => negb (has_namespace_parent r n)) (namespaces r)) r.
Proof.
  intros Hnd. unfold reparentNamespaces. f_equal.
  rewrite (namespace_removals r (namespaces r) [] Hnd)
    by (intros x _; apply not_elem_of_nil).
  rewrite app_nil_l, (fold_list_remove_filter _ _ Hnd).
  apply filter_ext_elem_of. intros n Hn. f_equal.
  destruct (has_namespace_parent r n) eqn:E.
  - apply mem_true, list_elem_of_In, filter_In. split; [|exact E].
    now apply list_elem_of_In.
  - apply mem_false. intros H. apply list_elem_of_In, filter_In in H as [_ H].
    congruence.
Qed.

Lemma reparentNamespaces_keeps_the_top_level_witness :
  let r := get_or init_root
             (discoverAllNodes inner_namespace_first_input init_root) in
  NoDup (namespaces r) /\
  namespaces r = [0; 1] /\ namespaces (reparentNamespaces r) = [1].
Proof.
  intros r.
  assert (H : NoDup (namespaces r)) by compute_done.
  split; [exact H|]. split; [vm_compute; reflexivity|].
  rewrite (reparentNamespaces_keeps_the_top_level r H).
  vm_compute. reflexivity.
Defined.

Lemma set_fields_same nd :
  set_parent (parent nd) (set_children (children nd) nd) = nd.
Proof. now destruct nd. Qed.

Lemma attach_node p c s n :
  node (attach p c s) n =
  set_parent (if decide (n = c) then Some p else parent (node s n))
    (set_children
       (if decide (n = p) then children (node s n) ++ [c]
        else children (node s n))
       (node s n)).
Proof.
  unfold attach, append_child. rewrite !node_upd.
  destruct (decide (n = c)), (decide (n = p)); simpl;
    destruct (node s n); reflexivity.
Qed.

Lemma parent_relink a c nd : parent (set_parent a (set_children c nd)) = a.
Proof. reflexivity. Qed.

Lemma children_relink a c nd :
  children (set_parent a (set_children c nd)) = c.
Proof. reflexivity. Qed.

Lemma relink_relink a1 c1 a2 c2 nd :
  set_parent a2 (set_children c2 (set_parent a1 (set_children c1 nd))) =
  set_parent a2 (set_children c2 nd).
Proof. reflexivity. Qed.

Lemma relink_eq a a' c c' nd :
  a = a' -> c = c' ->
  set_parent a (set_children c nd) = set_parent a' (set_children c' nd).
Proof. now intros -> ->. Qed.

(** A loop of [attach_found] over a list without duplicates. *)
Lemma attach_found_loop found l s0 rem0 :
  NoDup l ->
  reparented found l s0 (fst (fold_left (attach_found found) l (s0, rem0))) /\
  snd (fold_left (attach_found found) l (s0, rem0)) =
  rem0 ++ List.filter (found_removed found) l.
Proof.
  revert s0 rem0. induction l as [|x l IH]; intros s0 rem0 Hnd.
  - simpl. split; [|now rewrite app_nil_r]. split; [now destruct s0|].
    intros n. rewrite app_nil_r.
    destruct (decide (n ∈ [])) as [H|_]; [now apply elem_of_nil in H|].
    symmetry. apply set_fields_same.
  - apply NoDup_cons in Hnd as [Hx Hnd].
    assert (Hin : forall n, n <> x -> (n ∈ x :: l) <-> n ∈ l)
      by (intros n Hn; rewrite elem_of_cons; tauto).
    assert (Hself : x ∈ x :: l) by (apply elem_of_cons; now left).
    change (fold_left (attach_found found) (x :: l) (s0, rem0))
      with (fold_left (attach_found found) l (attach_found found (s0, rem0) x)).
    change (List.filter (found_removed found) (x :: l))
      with (if found_removed found x
            then x :: List.filter (found_removed found) l
            else List.filter (found_removed found) l).
    assert (Hfilter : forall n,
              List.filter (found_for found n) (x :: l) =
              if found_for found n x
              then x :: List.filter (found_for found n) l
              else List.filter (found_for found n) l) by reflexivity.
    unfold attach_found at 2 4. unfold found_removed at 1.
    unfold reparented. setoid_rewrite Hfilter.
    destruct (found x) as [[p b]|] eqn:E.
    + assert (Hstep : forall rem1,
        (let s' := fst (fold_left (attach_found found) l (attach p x s0, rem1))
         in
         s' = with_heap (heap s') s0 /\
         forall n,
           node s' n =
           set_parent
             (if decide (n ∈ x :: l) then
                match found n with
                | Some (p, _) => Some p
                | None => parent (node s0 n)
                end
              else parent (node s0 n))
             (set_children
                (children (node s0 n) ++
                 (if found_for found n x
                  then x :: List.filter (found_for found n) l
                  else List.filter (found_for found n) l))
                (node s0 n))) /\
        snd (fold_left (attach_found found) l (attach p x s0, rem1)) =
        rem1 ++ List.filter (found_removed found) l).
      { intros rem1.
        assert (Hfx : forall n, found_for found n x = bool_decide (p = n))
          by (intros n; unfold found_for; now rewrite E).
        destruct (IH (attach p x s0) rem1 Hnd) as [[Hroot Hnodes] Hrem].
        split; [|exact Hrem]. cbv zeta. split.
        - rewrite Hroot at 1. reflexivity.
        - intros n.
          rewrite Hnodes, !attach_node, parent_relink, children_relink,
            relink_relink, Hfx.
          apply relink_eq.
          + destruct (decide (n = x)) as [->|Hne].
            * destruct (decide (x ∈ l)); [contradiction|].
              destruct (decide (x ∈ x :: l)); [|contradiction].
              now rewrite E.
            * destruct (decide (n ∈ l)) as [H|H],
                       (decide (n ∈ x :: l)) as [H'|H'];
                try reflexivity; exfalso; pose proof (Hin n Hne); tauto.
          + destruct (decide (n = p)) as [->|Hp].
            * rewrite (bool_decide_eq_true_2 (p = p) eq_refl).
              now rewrite <- app_assoc.
            * now rewrite (bool_decide_eq_false_2 (p = n)) by congruence. }
      destruct b; cbn [fst snd].
      * destruct (Hstep (rem0 ++ [x])) as [H1 H2]. cbv zeta in H1.
        split; [exact H1|]. rewrite H2. now rewrite <- app_assoc.
      * destruct (Hstep rem0) as [H1 H2]. cbv zeta in H1. now split.
    + destruct (IH s0 rem0 Hnd) as [[Hroot Hnodes] Hrem].
      assert (Hfx : forall n, found_for found n x = false)
        by (intros n; unfold found_for; now rewrite E).
      split; [split|exact Hrem]; [exact Hroot|].
      intros n. rewrite Hnodes, Hfx. apply relink_eq; [|reflexivity].
      destruct (decide (n = x)) as [->|Hne].
      * destruct (decide (x ∈ l)); [contradiction|].
        destruct (decide (x ∈ x :: l)); [|contradiction].
        now rewrite E.
      * destruct (decide (n ∈ l)) as [H|H],
                 (decide (n ∈ x :: l)) as [H'|H'];
          try reflexivity; exfalso; pose proof (Hin n Hne); tauto.
Qed.

Lemma same_names_refl r : same_names r r.
Proof. now repeat split. Qed.

Lemma same_names_name r s n :
  same_names r s -> name (node s n) = name (node r n).
Proof. intros (_ & _ & _ & _ & H). apply H. Qed.

Lemma same_names_attach r s p c :
  same_names r s -> same_names r (attach p c s).
Proof.
  intros (H1 & H2 & H3 & H4 & H5). repeat split; try assumption.
  intros n. unfold attach, append_child.
  rewrite !(node_upd_field name) by reflexivity. apply H5.
Qed.

(** Replace the root [s] by [r] in the tests of the searches. *)
Ltac find_in_same_names r s H :=
  repeat match goal with
         | |- context [List.find ?f ?l] =>
             lazymatch f with
             | context [s] =>
                 let F := eval pattern s in f in
                 lazymatch F with
                 | ?G _ =>
                     let g := eval cbv beta in (G r) in
                     rewrite (find_pointwise f g l)
                       by (intros; rewrite ?(same_names_name r s) by exact H;
                           reflexivity)
                 end
             end
         end.

Lemma find_union_parent_same_names r s u :
  same_names r s -> find_union_parent s u = find_union_parent r u.
Proof.
  intros H. pose proof H as (Hcl & Hns & _).
  unfold find_union_parent.
  rewrite (same_names_name r s u H), Hcl, Hns. cbv zeta.
  find_in_same_names r s H. reflexivity.
Qed.

Lemma find_class_parent_same_names r s cl :
  same_names r s -> find_class_parent s cl = find_class_parent r cl.
Proof.
  intros H. pose proof H as (Hcl & _).
  unfold find_class_parent.
  rewrite (same_names_name r s cl H), Hcl. cbv zeta.
  find_in_same_names r s H. reflexivity.
Qed.

Lemma fold_left_ext_inv {S A} (P : S -> Prop) (f g : S -> A -> S) l s :
  (forall s x, P s -> f s x = g s x) ->
  (forall s x, P s -> P (g s x)) ->
  P s -> fold_left f l s = fold_left g l s.
Proof.
  intros Hfg Hg. revert s. induction l as [|x l IH]; intros s Hs; simpl;
    [reflexivity|].
  rewrite Hfg by assumption. apply IH, Hg, Hs.
Qed.

Lemma same_names_attach_found r found acc x :
  same_names r (fst acc) -> same_names r (fst (attach_found found acc x)).
Proof.
  intros H. unfold attach_found.
  destruct (found x) as [[p [|]]|]; simpl; try assumption;
    now apply same_names_attach.
Qed.

(** The loop of [reparentUnions] attaches what the search finds on the root
    that the pass starts from. *)
Lemma reparent_unions_loop r l rem0 :
  fold_left reparent_union l (r, rem0) =
  fold_left (attach_found (find_union_parent r)) l (r, rem0).
Proof.
  apply (fold_left_ext_inv (fun acc => same_names r (fst acc))).
  - intros [s removals] u Hs. simpl in Hs.
    rewrite reparent_union_find, (find_union_parent_same_names r s u Hs).
    unfold attach_found. simpl.
    now destruct (find_union_parent r u) as [[p [|]]|].
  - intros acc u. apply same_names_attach_found.
  - apply same_names_refl.
Qed.

Lemma reparent_class_like_loop r l rem0 :
  fold_left reparent_class_like l (r, rem0) =
  fold_left (attach_found (class_parent_found r)) l (r, rem0).
Proof.
  apply (fold_left_ext_inv (fun acc => same_names r (fst acc))).
  - intros [s removals] cl Hs. simpl in Hs.
    rewrite reparent_class_like_find,
      (find_class_parent_same_names r s cl Hs).
    unfold attach_found, class_parent_found. simpl.
    now destruct (find_class_parent r cl).
  - intros acc u. apply same_names_attach_found.
  - apply same_names_refl.
Qed.

(** X7: on a list of unions without duplicates, [reparentUnions] gives
    every union the parent that its search finds on the root that the pass
    starts from (a class or struct, or else a namespace) and appends the
    union to the children of that parent, in the order of [unions]; it
    takes out of [unions] the unions for which a class or struct was found,
    keeps the others in their order, and changes nothing else.  The parent
    found is a node of [class_like], or of [namespaces]. *)
Theorem reparentUnions_attaches_what_it_finds (r : ExhaleRoot) :
  NoDup (unions r) ->
  let r' := reparentUnions r in
  reparented (find_union_parent r) (unions r) r
    (with_unions (unions r) r') /\
  unions r' =
    List.filter (fun u => negb (union_in_class r u)) (unions r) /\
  forall u p in_class,
    find_union_parent r u = Some (p, in_class) ->
    if in_class then p ∈ class_like r else p ∈ namespaces r.
Proof.
  intros Hnd. cbv zeta. unfold reparentUnions.
  rewrite reparent_unions_loop.
  destruct (attach_found_loop (find_union_parent r) (unions r) r [] Hnd)
    as [[Hroot Hnodes] Hrem].
  destruct (fold_left _ (unions r) (r, [])) as [s removals].
  simpl in Hroot, Hnodes, Hrem.
  assert (Hu : unions s = unions r) by (rewrite Hroot; reflexivity).
  split; [|split].
  - split; [|exact Hnodes].
    unfold with_unions, with_heap. simpl.
    f_equal; rewrite Hroot; reflexivity.
  - simpl. rewrite Hu, (fold_list_remove_filter _ _ Hnd), Hrem.
    apply filter_ext_elem_of. intros u Hin. f_equal.
    unfold union_in_class.
    change (match find_union_parent r u with
            | Some (_, true) => true
            | _ => false
            end) with (found_removed (find_union_parent r) u).
    destruct (found_removed (find_union_parent r) u) eqn:E.
    + apply mem_true, list_elem_of_In, filter_In. split; [|exact E].
      now apply list_elem_of_In.
    + apply mem_false. intros H.
      apply list_elem_of_In, filter_In in H as [_ H]. congruence.
  - intros u p in_class. apply find_union_parent_elem_of.
Qed.

Lemma reparentUnions_attaches_what_it_finds_witness :
  let r := get_or init_root (discoverAllNodes nested_union_input init_root) in
  NoDup (unions r) /\
  find_union_parent r 2 = Some (0, false) /\
  parent (node (reparentUnions r) 2) = Some 0 /\
  children (node (reparentUnions r) 0) = [2] /\
  unions (reparentUnions r) = [2].
Proof.
  intros r.
  assert (H : NoDup (unions r)) by compute_done.
  split; [exact H|].
  assert (E : find_union_parent r 2 = Some (0, false))
    by (vm_compute; reflexivity).
  split; [exact E|].
  destruct (reparentUnions_attaches_what_it_finds r H)
    as ((_ & Hnodes) & Hunions & _).
  pose proof (Hnodes 2) as H2. pose proof (Hnodes 0) as H0.
  change (node (with_unions (unions r) (reparentUnions r)) 2)
    with (node (reparentUnions r) 2) in H2.
  change (node (with_unions (unions r) (reparentUnions r)) 0)
    with (node (reparentUnions r) 0) in H0.
  rewrite H2, H0, Hunions.
  repeat split; vm_compute; reflexivity.
Defined.

(** X8: on a list of classes and structs without duplicates,
    [reparentClassLike] gives every class or struct the parent that its
    search finds on the root that the pass starts from, a node of
    [class_like] whose name is the name of the class without its last
    segment, and appends it to the children of that parent, in the order
    of [class_like]; it keeps in [class_like] the nodes for which nothing
    was found, in their order, and changes nothing else. *)
Theorem reparentClassLike_attaches_what_it_finds (r : ExhaleRoot) :
  NoDup (class_like r) ->
  let r' := reparentClassLike r in
  reparented (class_parent_found r) (class_like r) r
    (with_class_like (class_like r) r') /\
  class_like r' = List.filter (class_settled r) (class_like r) /\
  forall cl p,
    find_class_parent r cl = Some p ->
    p ∈ class_like r /\
    name (node r p) =
    Str.join "::" (drop_last 1 (Str.split "::" (name (node r cl)))).
Proof.
  intros Hnd. cbv zeta. unfold reparentClassLike.
  rewrite reparent_class_like_loop.
  destruct (attach_found_loop (class_parent_found r) (class_like r) r [] Hnd)
    as [[Hroot Hnodes] Hrem].
  destruct (fold_left _ (class_like r) (r, [])) as [s removals].
  simpl in Hroot, Hnodes, Hrem.
  assert (Hu : class_like s = class_like r) by (rewrite Hroot; reflexivity).
  split; [|split].
  - split; [|exact Hnodes].
    unfold with_class_like, with_heap. simpl.
    f_equal; rewrite Hroot; reflexivity.
  - simpl. rewrite Hu, fold_list_remove_mem,
      (fold_list_remove_filter _ _ Hnd), Hrem.
    apply filter_ext_elem_of. intros cl Hin.
    assert (E : found_removed (class_parent_found r) cl =
                negb (class_settled r cl)).
    { unfold found_removed, class_parent_found, class_settled.
      now destruct (find_class_parent r cl). }
    destruct (class_settled r cl); simpl in E |- *.
    + apply negb_true_iff, mem_false. intros H.
      apply list_elem_of_In, filter_In in H as [_ H]. congruence.
    + apply negb_false_iff, mem_true, list_elem_of_In, filter_In.
      split; [now apply list_elem_of_In|exact E].
  - intros cl p E. split; [now apply (find_class_parent_elem_of r cl)|].
    unfold find_class_parent in E. destruct (_ <? _)%nat; [|discriminate].
    apply find_elem_of in E as [_ E]. now apply String.eqb_eq in E.
Qed.

Lemma reparentClassLike_attaches_what_it_finds_witness :
  let r := get_or init_root (discoverAllNodes library_input init_root) in
  NoDup (class_like r) /\
  class_like r = [2; 3] /\
  find_class_parent r 3 = Some 2 /\
  parent (node (reparentClassLike r) 3) = Some 2 /\
  children (node (reparentClassLike r) 2) = [3] /\
  class_like (reparentClassLike r) = [2].
Proof.
  intros r.
  assert (H : NoDup (class_like r)) by compute_done.
  split; [exact H|].
  split; [vm_compute; reflexivity|].
  split; [vm_compute; reflexivity|].
  destruct (reparentClassLike_attaches_what_it_finds r H)
    as ((_ & Hnodes) & Hlist & _).
  pose proof (Hnodes 3) as H3. pose proof (Hnodes 2) as H2.
  change (node (with_class_like (class_like r) (reparentClassLike r)) 3)
    with (node (reparentClassLike r) 3) in H3.
  change (node (with_class_like (class_like r) (reparentClassLike r)) 2)
    with (node (reparentClassLike r) 2) in H2.
  rewrite H3, H2, Hlist.
  repeat split; vm_compute; reflexivity.
Defined.

(** *** The directories *)

Section SortedByKey.
Context {A : Type} (lt : A -> A -> bool) (key : A -> nat).
Hypothesis lt_key : forall a b, key a < key b -> lt a b = true.
Hypothesis key_lt : forall a b, lt a b = true -> key a <= key b.

Lemma insert_back_elem_of x rl y :
  y ∈ insert_back lt x rl <-> y = x \/ y ∈ rl.
Proof. now rewrite (insert_back_perm lt x rl), elem_of_cons. Qed.

Lemma insert_back_descending x rl :
  StronglySorted (fun a b => key b <= key a) rl ->
  StronglySorted (fun a b => key b <= key a) (insert_back lt x rl).
Proof.
  induction rl as [|y rl IH]; intros Hs; simpl.
  - repeat constructor.
  - apply StronglySorted_inv in Hs as [Hrl Hy].
    destruct (lt x y) eqn:E.
    + constructor; [now apply IH|].
      apply Forall_forall. intros z Hz.
      apply insert_back_elem_of in Hz as [->|Hz].
      * now apply key_lt.
      * rewrite Forall_forall in Hy. now apply Hy.
    + assert (Hxy : key y <= key x).
      { destruct (le_lt_dec (key y) (key x)) as [H|H]; [exact H|].
        rewrite (lt_key x y H) in E. discriminate. }
      constructor; [now constructor|].
      constructor; [exact Hxy|].
      eapply Forall_impl; [exact Hy|]. simpl. intros z Hz. lia.
Qed.

(** The traversal of a sorted list, reversed, goes down the keys. *)
Lemma rev_py_sort_descending l :
  StronglySorted (fun a b => key b <= key a) (List.rev (py_sort lt l)).
Proof.
  unfold py_sort. rewrite rev_involutive.
  apply (fold_left_invariant
           (StronglySorted (fun a b => key b <= key a))); [|constructor].
  intros acc x. apply insert_back_descending.
Qed.
End SortedByKey.

Lemma dir_traversal_descending r :
  StronglySorted (fun a b => fst b <= fst a) (dir_traversal r).
Proof.
  apply (rev_py_sort_descending (rank_lt r) fst).
  - intros a b H. unfold rank_lt.
    destruct (fst a =? fst b)%nat eqn:E; [apply Nat.eqb_eq in E; lia|].
    now apply Nat.ltb_lt.
  - intros a b. unfold rank_lt.
    destruct (fst a =? fst b)%nat eqn:E; [apply Nat.eqb_eq in E; lia|].
    intros H%Nat.ltb_lt. lia.
Qed.

Lemma elem_of_dir_traversal r rank d :
  (rank, d) ∈ dir_traversal r <-> rank = dir_rank r d /\ d ∈ dirs r.
Proof.
  unfold dir_traversal. now rewrite elem_of_rev_sort, elem_of_dir_ranks.
Qed.

Lemma dir_traversal_perm r : Permutation (map snd (dir_traversal r)) (dirs r).
Proof.
  unfold dir_traversal.
  rewrite <- Permutation_rev, (py_sort_perm (rank_lt r) (dir_ranks r)).
  unfold dir_ranks. rewrite map_map. simpl. now rewrite map_id.
Qed.

Lemma attach_found_none found l acc :
  (forall x, x ∈ l -> found x = None) ->
  fold_left (attach_found found) l acc = acc.
Proof.
  revert acc. induction l as [|x l IH]; intros acc H; simpl; [reflexivity|].
  unfold attach_found at 2. rewrite (H x) by (apply elem_of_cons; now left).
  apply IH. intros y Hy. apply H, elem_of_cons. now right.
Qed.

(** The loop of [reparentDirectories] attaches what the search finds on
    the root that the pass starts from: the [break] leaves out directories
    of rank one only. *)
Lemma reparent_directories_loop_found r todo s removals :
  same_names r s ->
  (forall p, p ∈ todo -> fst p = dir_rank r (snd p)) ->
  StronglySorted (fun a b => fst b <= fst a) todo ->
  NoDup (map snd todo) ->
  (forall p, p ∈ todo -> snd p ∉ removals) ->
  reparent_directories_loop (dir_traversal r) todo (s, removals) =
  fold_left (attach_found (find_dir_parent r)) (map snd todo) (s, removals).
Proof.
  revert s removals.
  induction todo as [|[rank d] todo IH];
    intros s removals Hs Hrank Hsorted Hnd Hfresh; [reflexivity|].
  assert (Hd : rank = dir_rank r d)
    by (apply (Hrank (rank, d)), elem_of_cons; now left).
  apply StronglySorted_inv in Hsorted as [Hsorted Hle].
  rewrite Forall_forall in Hle.
  simpl in Hnd. apply NoDup_cons in Hnd as [Hdnew Hnd].
  assert (Hrank' : forall p, p ∈ todo -> fst p = dir_rank r (snd p))
    by (intros p Hp; apply Hrank, elem_of_cons; now right).
  cbn [reparent_directories_loop map fold_left snd].
  assert (HF :
    find_dir_parent r d =
    if (rank <? 2)%nat then None
    else
      match List.find
              (fun p => (fst p =? rank - 1)%nat
                        && (name (node r (snd p)) =? dir_parent_path r d))
              (dir_traversal r) with
      | Some (_, q) => Some (q, true)
      | None => None
      end) by (unfold find_dir_parent; now rewrite <- Hd).
  destruct (rank <? 2)%nat eqn:E.
  - assert (Hstep : attach_found (find_dir_parent r) (s, removals) d =
                    (s, removals))
      by (unfold attach_found; now rewrite HF).
    rewrite Hstep. symmetry. apply attach_found_none. intros x Hx.
    apply list_elem_of_In, in_map_iff in Hx as ([rk y] & <- & Hy). simpl.
    unfold find_dir_parent.
    assert (Hy' : (rk, y) ∈ todo) by now apply list_elem_of_In.
    assert (H1 : rk <= rank) by (apply (Hle (rk, y) Hy')).
    pose proof (Hrank' (rk, y) Hy') as Hrk. simpl in Hrk, H1.
    rewrite <- Hrk. apply Nat.ltb_lt in E.
    assert (H2 : (rk <? 2)%nat = true) by (apply Nat.ltb_lt; lia).
    now rewrite H2.
  - assert (Hpath :
      Str.join "/" (drop_last 1 (Str.split "/" (name (node s d)))) =
      dir_parent_path r d)
      by (unfold dir_parent_path; now rewrite (same_names_name r s d Hs)).
    rewrite Hpath.
    rewrite (find_pointwise
               (fun p => (fst p =? rank - 1)%nat
                         && (name (node s (snd p)) =? dir_parent_path r d))
               (fun p => (fst p =? rank - 1)%nat
                         && (name (node r (snd p)) =? dir_parent_path r d)))
      by (intros p; now rewrite (same_names_name r s _ Hs)).
    assert (Hm : mem d removals = false)
      by (apply mem_false, (Hfresh (rank, d)), elem_of_cons; now left).
    destruct (List.find _ (dir_traversal r)) as [[p_rank p]|].
    + assert (Hstep : attach_found (find_dir_parent r) (s, removals) d =
                      (attach p d s, removals ++ [d]))
        by (unfold attach_found; now rewrite HF).
      rewrite Hstep, Hm. apply IH; try assumption.
      * now apply same_names_attach.
      * intros q Hq [H|H]%elem_of_app.
        -- apply (Hfresh q); [apply elem_of_cons; now right|exact H].
        -- apply list_elem_of_singleton in H. apply Hdnew.
           rewrite <- H. apply list_elem_of_In, in_map.
           now apply list_elem_of_In.
    + assert (Hstep : attach_found (find_dir_parent r) (s, removals) d =
                      (s, removals))
        by (unfold attach_found; now rewrite HF).
      rewrite Hstep. apply IH; try assumption.
      intros q Hq. apply Hfresh, elem_of_cons. now right.
Qed.

Lemma map_snd_descending r (l : list (nat * nat)) :
  (forall p, p ∈ l -> fst p = dir_rank r (snd p)) ->
  StronglySorted (fun a b => fst b <= fst a) l ->
  StronglySorted (fun a b => dir_rank r b <= dir_rank r a) (map snd l).
Proof.
  induction l as [|[rk d] l IH]; intros Hrank Hs; simpl; [constructor|].
  apply StronglySorted_inv in Hs as [Hs Hall]. constructor.
  - apply IH; [|exact Hs]. intros p Hp. apply Hrank, elem_of_cons. now right.
  - rewrite Forall_forall in Hall. rewrite Forall_forall. intros x Hx.
    apply list_elem_of_In, in_map_iff in Hx as ([rk' y] & <- & Hy).
    apply list_elem_of_In in Hy.
    pose proof (Hall _ Hy) as Hle.
    pose proof (Hrank (rk, d) ltac:(apply elem_of_cons; now left)) as H1.
    pose proof (Hrank (rk', y) ltac:(apply elem_of_cons; now right)) as H2.
    simpl in *. lia.
Qed.

Lemma find_dir_parent_settled r d :
  found_removed (find_dir_parent r) d = negb (dir_settled r d).
Proof.
  unfold found_removed, find_dir_parent, dir_settled.
  destruct (dir_rank r d <? 2)%nat; [reflexivity|]. simpl.
  destruct (List.find _ (dir_traversal r)) as [[rk p]|] eqn:E.
  - apply find_elem_of in E as [Hin Htest]. simpl in Htest.
    apply elem_of_dir_traversal in Hin as [-> Hp].
    symmetry. apply negb_true_iff.
    destruct (forallb _ (dirs r)) eqn:F; [|reflexivity].
    rewrite forallb_elem_of in F. specialize (F p Hp).
    now rewrite Htest in F.
  - symmetry. apply negb_false_iff, forallb_elem_of. intros p Hp.
    apply negb_true_iff.
    assert (Hin : (dir_rank r p, p) ∈ dir_traversal r)
      by now apply elem_of_dir_traversal.
    apply list_elem_of_In in Hin.
    exact (find_none _ _ E _ Hin).
Qed.

(** X9: on a list of directories without duplicates, [reparentDirectories]
    gives every directory of two path segments or more the parent that its
    search finds on the root that the pass starts from (a directory of
    [dirs] one level above it, whose name is the path without its last
    segment) and appends it to the children of that parent, the deepest
    directories first; it keeps in [dirs] the directories for which nothing
    was found, in their order, and changes nothing else. *)
Theorem reparentDirectories_attaches_what_it_finds (r : ExhaleRoot) :
  NoDup (dirs r) ->
  let r' := reparentDirectories r in
  reparented (find_dir_parent r) (map snd (dir_traversal r)) r
    (with_dirs (dirs r) r') /\
  dirs r' = List.filter (dir_settled r) (dirs r) /\
  Permutation (map snd (dir_traversal r)) (dirs r) /\
  StronglySorted (fun a b => dir_rank r b <= dir_rank r a)
    (map snd (dir_traversal r)) /\
  forall d p b,
    find_dir_parent r d = Some (p, b) ->
    p ∈ dirs r /\ dir_rank r p = dir_rank r d - 1 /\
    name (node r p) = dir_parent_path r d.
Proof.
  intros Hnd. cbv zeta.
  assert (Hperm := dir_traversal_perm r).
  assert (Hnd' : NoDup (map snd (dir_traversal r))) by now rewrite Hperm.
  assert (Hrank : forall p, p ∈ dir_traversal r -> fst p = dir_rank r (snd p))
    by (intros [rk d] Hp; now apply elem_of_dir_traversal in Hp).
  unfold reparentDirectories. fold (dir_traversal r).
  rewrite (reparent_directories_loop_found r (dir_traversal r) r []
             (same_names_refl r) Hrank (dir_traversal_descending r) Hnd')
    by (intros p _; apply not_elem_of_nil).
  destruct (attach_found_loop (find_dir_parent r) (map snd (dir_traversal r))
              r [] Hnd') as [[Hroot Hnodes] Hrem].
  destruct (fold_left _ (map snd (dir_traversal r)) (r, [])) as [s removals].
  simpl in Hroot, Hnodes, Hrem.
  assert (Hu : dirs s = dirs r) by (rewrite Hroot; reflexivity).
  split; [|split; [|split; [exact Hperm|split]]].
  - split; [|exact Hnodes].
    unfold with_dirs, with_heap. simpl.
    f_equal; rewrite Hroot; reflexivity.
  - simpl. rewrite Hu, (fold_list_remove_filter _ _ Hnd), Hrem.
    apply filter_ext_elem_of. intros d Hin.
    pose proof (find_dir_parent_settled r d) as E.
    destruct (dir_settled r d); simpl in E |- *.
    + apply negb_true_iff, mem_false. intros H.
      apply list_elem_of_In, filter_In in H as [_ H]. congruence.
    + apply negb_false_iff, mem_true, list_elem_of_In, filter_In.
      split; [|exact E]. apply list_elem_of_In. now rewrite Hperm.
  - apply map_snd_descending; [exact Hrank|apply dir_traversal_descending].
  - intros d p b. unfold find_dir_parent.
    destruct (_ <? _)%nat; [discriminate|].
    destruct (List.find _ _) as [[rk q]|] eqn:E; [|discriminate].
    intros [= <- <-]. apply find_elem_of in E as [Hin Htest].
    apply elem_of_dir_traversal in Hin as [-> Hq]. simpl in Htest.
    apply andb_true_iff in Htest as [H1 H2].
    apply Nat.eqb_eq in H1. apply String.eqb_eq in H2. now repeat split.
Qed.

Lemma reparentDirectories_attaches_what_it_finds_witness :
  let r := get_or init_root (discoverAllNodes library_input init_root) in
  NoDup (dirs r) /\
  dirs r = [5; 6] /\
  find_dir_parent r 6 = Some (5, true) /\
  parent (node (reparentDirectories r) 6) = Some 5 /\
  children (node (reparentDirectories r) 5) = [6] /\
  dirs (reparentDirectories r) = [5].
Proof.
  intros r.
  assert (H : NoDup (dirs r)) by compute_done.
  split; [exact H|].
  split; [vm_compute; reflexivity|].
  split; [vm_compute; reflexivity|].
  destruct (reparentDirectories_attaches_what_it_finds r H)
    as ((_ & Hnodes) & Hlist & _).
  pose proof (Hnodes 6) as H6. pose proof (Hnodes 5) as H5.
  change (node (with_dirs (dirs r) (reparentDirectories r)) 6)
    with (node (reparentDirectories r) 6) in H6.
  change (node (with_dirs (dirs r) (reparentDirectories r)) 5)
    with (node (reparentDirectories r) 5) in H5.
  rewrite H6, H5, Hlist.
  repeat split; vm_compute; reflexivity.
Defined.

(** ** Names under the renaming to namespace scopes *)

Lemma append_cons x (a b : string) : String x a +:+ b = String x (a +:+ b).
Proof. reflexivity. Qed.

Lemma append_assoc (a b c : string) : (a +:+ b) +:+ c = a +:+ (b +:+ c).
Proof.
  induction a as [|x a IH]; [reflexivity|].
  rewrite !append_cons. now rewrite IH.
Qed.

Lemma prefix_append p s : String.prefix p (p +:+ s) = true.
Proof.
  induction p as [|x p IH]; [now destruct s|].
  rewrite append_cons. simpl.
  destruct (ascii_dec x x); [exact IH|contradiction].
Qed.

Lemma prefix_inv p s :
  String.prefix p s = true -> exists t, s = p +:+ t.
Proof.
  revert s. induction p as [|x p IH]; intros s H.
  - now exists s.
  - destruct s as [|y s]; [discriminate|]. simpl in H.
    destruct (ascii_dec x y) as [->|]; [|discriminate].
    destruct (IH s H) as [t ->]. now exists t.
Qed.

Lemma contains_cons p x s :
  Str.contains p (String x s) =
  String.prefix p (String x s) || Str.contains p s.
Proof. reflexivity. Qed.

Lemma contains_nil p :
  Str.contains p EmptyString = String.prefix p EmptyString || false.
Proof. reflexivity. Qed.

Lemma contains_of_prefix p s :
  String.prefix p s = true -> Str.contains p s = true.
Proof.
  intros H. destruct s; [rewrite contains_nil|rewrite contains_cons];
    now rewrite H.
Qed.

Lemma contains_prefix p s : Str.contains p (p +:+ s) = true.
Proof. apply contains_of_prefix, prefix_append. Qed.

Lemma contains_append_l p q s :
  Str.contains p s = true -> Str.contains p (q +:+ s) = true.
Proof.
  intros H. induction q as [|x q IH]; [exact H|].
  rewrite append_cons, contains_cons, IH. apply orb_true_r.
Qed.

Lemma contains_empty s : Str.contains EmptyString s = true.
Proof. apply contains_of_prefix. now destruct s. Qed.

Lemma contains_in_empty p :
  Str.contains p EmptyString = true -> p = EmptyString.
Proof.
  rewrite contains_nil, orb_false_r. intros H.
  destruct p; [reflexivity|discriminate].
Qed.

(** A text that holds [q] followed by [p] holds [p]. *)
Lemma contains_suffix_of_sub q p s :
  Str.contains (q +:+ p) s = true -> Str.contains p s = true.
Proof.
  induction s as [|x s IH].
  - intros H%contains_in_empty.
    destruct q; [|discriminate]. change (p = EmptyString) in H.
    subst p. reflexivity.
  - rewrite contains_cons. intros [H|H]%orb_true_iff.
    + apply prefix_inv in H as [t ->].
      rewrite append_assoc. apply contains_append_l, contains_prefix.
    + rewrite contains_cons, (IH H). apply orb_true_r.
Qed.

Lemma rename_child_node p r c x :
  node (rename_child p r c) x =
  set_name (name (node (rename_child p r c) x)) (node r x).
Proof.
  unfold rename_child. destruct (Str.contains _ _).
  - now destruct (node r x).
  - rewrite !node_upd. destruct (decide (x = c)); now destruct (node r x).
Qed.

Lemma set_name_set_name a b nd : set_name a (set_name b nd) = set_name a nd.
Proof. reflexivity. Qed.

(** What [renameToNamespaceScopes] keeps: the lists of the root, and every
    field of every node but the name, which may gain a prefix. *)
Lemma rename_child_scopes p r c :
  rename_child p r c = with_heap (heap (rename_child p r c)) r /\
  (forall x, node (rename_child p r c) x =
             set_name (name (node (rename_child p r c) x)) (node r x)) /\
  (forall x, exists q,
     name (node (rename_child p r c) x) = q +:+ name (node r x)) /\
  Str.contains p (name (node (rename_child p r c) c)) = true.
Proof.
  split; [|split; [apply rename_child_node|split]].
  - unfold rename_child. destruct (Str.contains _ _); [now destruct r|].
    reflexivity.
  - intros x. rewrite rename_child_name.
    destruct (decide (x = c)) as [->|]; [|now exists EmptyString].
    unfold scoped_name. destruct (Str.contains _ _);
      [now exists EmptyString|now exists p].
  - rewrite rename_child_name. destruct (decide (c = c)); [|contradiction].
    unfold scoped_name.
    destruct (Str.contains p (name (node r c))) eqn:E; [exact E|].
    apply contains_prefix.
Qed.

Lemma renamed_refl r : renamed r r.
Proof.
  split; [now destruct r|]. split.
  - intros x. now destruct (node r x).
  - intros x. now exists EmptyString.
Qed.

Lemma renamed_trans r s t : renamed r s -> renamed s t -> renamed r t.
Proof.
  intros (H1 & H2 & H3) (H1' & H2' & H3'). split; [|split].
  - rewrite H1', H1 at 1. reflexivity.
  - intros x. rewrite H2', H2 at 1. reflexivity.
  - intros x. destruct (H3 x) as [q Hq], (H3' x) as [q' Hq'].
    exists (q' +:+ q). now rewrite Hq', Hq, append_assoc.
Qed.

Lemma renamed_keeps_children r s x :
  renamed r s -> children (node s x) = children (node r x).
Proof. intros (_ & H & _). now rewrite H. Qed.

Lemma renamed_rename_child p r c : renamed r (rename_child p r c).
Proof. destruct (rename_child_scopes p r c) as (H1 & H2 & H3 & _). now split. Qed.

Lemma renamed_contains r s p x :
  renamed r s -> Str.contains p (name (node r x)) = true ->
  Str.contains p (name (node s x)) = true.
Proof.
  intros (_ & _ & H) Hc. destruct (H x) as [q ->].
  now apply contains_append_l.
Qed.

(** The inner loop of [renameToNamespaceScopes]. *)
Lemma rename_children_scopes p cs r :
  renamed r (fold_left (rename_child p) cs r) /\
  forall c, c ∈ cs ->
    Str.contains p (name (node (fold_left (rename_child p) cs r) c)) = true.
Proof.
  revert r. induction cs as [|c cs IH]; intros r; simpl.
  - split; [apply renamed_refl|]. intros c H. now apply elem_of_nil in H.
  - destruct (IH (rename_child p r c)) as [Hr Hc]. split.
    + eapply renamed_trans; [apply renamed_rename_child|exact Hr].
    + intros x [->|Hx]%elem_of_cons; [|now apply Hc].
      apply (renamed_contains (rename_child p r c)); [exact Hr|].
      apply rename_child_scopes.
Qed.

(** The outer loop of [renameToNamespaceScopes]. *)
Lemma rename_namespaces_scopes ns r :
  renamed r (fold_left rename_namespace ns r) /\
  forall n c, n ∈ ns -> c ∈ children (node r n) ->
    Str.contains (name (node r n) +:+ "::")
      (name (node (fold_left rename_namespace ns r) c)) = true.
Proof.
  revert r. induction ns as [|m ns IH]; intros r; simpl.
  - split; [apply renamed_refl|]. intros n c H. now apply elem_of_nil in H.
  - destruct (rename_children_scopes (name (node r m) +:+ "::")
                (children (node r m)) r) as [Hr1 Hc1].
    fold (rename_namespace r m) in Hr1, Hc1.
    destruct (IH (rename_namespace r m)) as [Hr Hc]. split.
    + eapply renamed_trans; eassumption.
    + intros n c [->|Hn]%elem_of_cons Hin.
      * apply (renamed_contains (rename_namespace r m)); [exact Hr|].
        now apply Hc1.
      * pose proof Hr1 as (_ & _ & Hq). destruct (Hq n) as [q Hn'].
        apply (contains_suffix_of_sub q). rewrite <- append_assoc, <- Hn'.
        apply Hc; [exact Hn|]. now rewrite (renamed_keeps_children r).
Qed.

Lemma string_length_append (a b : string) :
  String.length (a +:+ b) = String.length a + String.length b.
Proof.
  induction a as [|x a IH]; [reflexivity|].
  rewrite append_cons. simpl. now rewrite IH.
Qed.

(** A name that gained prefixes and is what it was gained none. *)
Lemma same_name_back (q1 q2 a b : string) :
  b = q1 +:+ a -> a = q2 +:+ b -> b = a.
Proof.
  intros H1 H2. assert (Hl : String.length q1 = 0).
  { apply (f_equal String.length) in H1, H2.
    rewrite string_length_append in H1, H2. lia. }
  destruct q1; [exact H1|discriminate].
Qed.

(** A node whose name is the same after two renamings had it in
    between. *)
Lemma renamed_name_back r s t x :
  renamed r s -> renamed s t -> name (node t x) = name (node r x) ->
  name (node s x) = name (node r x).
Proof.
  intros (_ & _ & H1) (_ & _ & H2) E.
  destruct (H1 x) as [q1 Hq1], (H2 x) as [q2 Hq2].
  apply (same_name_back q1 q2); [exact Hq1|]. now rewrite <- E.
Qed.

Lemma scoped_name_contains p x : Str.contains p (scoped_name p x) = true.
Proof.
  unfold scoped_name. destruct (Str.contains p x) eqn:E; [exact E|].
  apply contains_prefix.
Qed.

Lemma scoped_name_contained p x :
  Str.contains p x = true -> scoped_name p x = x.
Proof. unfold scoped_name. now intros ->. Qed.

(** The inner loop leaves a name that holds the prefix. *)
Lemma rename_children_name_contained p cs r x :
  Str.contains p (name (node r x)) = true ->
  name (node (fold_left (rename_child p) cs r) x) = name (node r x).
Proof.
  revert r. induction cs as [|c cs IH]; intros r H; simpl; [reflexivity|].
  assert (E : name (node (rename_child p r c) x) = name (node r x)).
  { rewrite rename_child_name. destruct (decide (x = c)) as [->|];
      [now apply scoped_name_contained|reflexivity]. }
  rewrite IH; [exact E|]. now rewrite E.
Qed.

(** The inner loop scopes the name of every child, however often the
    child is listed. *)
Lemma rename_children_name_in p cs r x :
  x ∈ cs ->
  name (node (fold_left (rename_child p) cs r) x) =
  scoped_name p (name (node r x)).
Proof.
  revert r. induction cs as [|c cs IH]; intros r Hx; simpl.
  - now apply elem_of_nil in Hx.
  - destruct (decide (x = c)) as [->|Hne].
    + rewrite rename_children_name_contained; rewrite rename_child_name;
        destruct (decide (c = c)); try contradiction;
        [reflexivity|apply scoped_name_contains].
    + apply elem_of_cons in Hx as [?|Hx]; [contradiction|].
      rewrite IH, rename_child_name by assumption.
      now destruct (decide (x = c)).
Qed.

Lemma renamed_rename_namespace r m : renamed r (rename_namespace r m).
Proof. apply rename_children_scopes. Qed.

Lemma renamed_rename_namespaces ns r :
  renamed r (fold_left rename_namespace ns r).
Proof. apply rename_namespaces_scopes. Qed.

(** The loop leaves the name of a node when every namespace that lists it
    keeps its own name and has its prefix in the name of the node
    already. *)
Lemma rename_namespaces_name_left ns s c :
  (forall m, m ∈ ns -> c ∈ children (node s m) ->
     name (node (fold_left rename_namespace ns s) m) = name (node s m) /\
     Str.contains (name (node s m) +:+ "::") (name (node s c)) = true) ->
  name (node (fold_left rename_namespace ns s) c) = name (node s c).
Proof.
  revert s. induction ns as [|m0 ns IH]; intros s H; simpl; [reflexivity|].
  pose proof (renamed_rename_namespace s m0) as R1.
  pose proof (renamed_rename_namespaces ns (rename_namespace s m0)) as R2.
  simpl in H.
  assert (Hc1 : name (node (rename_namespace s m0) c) = name (node s c)).
  { unfold rename_namespace.
    destruct (decide (c ∈ children (node s m0))) as [Hcm|Hcm].
    - destruct (H m0) as [_ Hin]; [apply elem_of_cons; now left|exact Hcm|].
      now apply rename_children_name_contained.
    - now apply rename_children_name_other. }
  rewrite IH; [exact Hc1|].
  intros m Hm Hcm. rewrite (renamed_keeps_children s _ m R1) in Hcm.
  destruct (H m) as [Hkeep Hin]; [apply elem_of_cons; now right|exact Hcm|].
  pose proof (renamed_name_back _ _ _ m R1 R2 Hkeep) as Hm1.
  rewrite Hm1, Hc1. now split.
Qed.

(** The outer loop scopes the name of a child by the name of its
    namespace. *)
Lemma rename_namespaces_name_scoped ns r n c :
  n ∈ ns -> c ∈ children (node r n) ->
  name (node (fold_left rename_namespace ns r) n) = name (node r n) ->
  (forall m, m ∈ ns -> c ∈ children (node r m) ->
     m = n \/
     (name (node (fold_left rename_namespace ns r) m) = name (node r m) /\
      Str.contains (name (node r m) +:+ "::") (name (node r c)) = true)) ->
  name (node (fold_left rename_namespace ns r) c) =
  scoped_name (name (node r n) +:+ "::") (name (node r c)).
Proof.
  revert r. induction ns as [|m0 ns IH]; intros r Hn Hc Hkeep Hone; simpl.
  - now apply elem_of_nil in Hn.
  - pose proof (renamed_rename_namespace r m0) as R1.
    pose proof (renamed_rename_namespaces ns (rename_namespace r m0)) as R2.
    simpl in Hkeep, Hone.
    pose proof (renamed_name_back _ _ _ n R1 R2 Hkeep) as Hn1.
    set (p := name (node r n) +:+ "::") in *.
    assert (Hothers : forall m, m ∈ m0 :: ns -> c ∈ children (node r m) ->
              name (node (fold_left rename_namespace ns
                            (rename_namespace r m0)) m) =
              name (node (rename_namespace r m0) m) /\
              name (node (rename_namespace r m0) m) = name (node r m) /\
              (m = n \/
               Str.contains (name (node r m) +:+ "::") (name (node r c))
               = true)).
    { intros m Hm Hcm. destruct (Hone m Hm Hcm) as [->|[Hk Hin]].
      - rewrite Hn1. auto.
      - pose proof (renamed_name_back _ _ _ m R1 R2 Hk) as Hm1.
        rewrite Hm1. auto. }
    destruct (decide (m0 = n)) as [->|Hne].
    + assert (Hc1 : name (node (rename_namespace r n) c) =
                    scoped_name p (name (node r c))).
      { unfold rename_namespace. now apply rename_children_name_in. }
      rewrite rename_namespaces_name_left; [exact Hc1|].
      intros m Hm Hcm. rewrite (renamed_keeps_children r _ m R1) in Hcm.
      destruct (Hothers m) as (Hk & Hm1 & Hin);
        [apply elem_of_cons; now right|exact Hcm|].
      split; [exact Hk|]. rewrite Hm1, Hc1.
      destruct Hin as [->|Hin]; [apply scoped_name_contains|].
      unfold scoped_name. destruct (Str.contains p _); [exact Hin|].
      now apply contains_append_l.
    + apply elem_of_cons in Hn as [?|Hn]; [congruence|].
      assert (Hc1 : name (node (rename_namespace r m0) c) = name (node r c)).
      { unfold rename_namespace.
        destruct (decide (c ∈ children (node r m0))) as [Hcm|Hcm].
        - destruct (Hone m0) as [?|[_ Hin]];
            [apply elem_of_cons; now left|exact Hcm|contradiction|].
          now apply rename_children_name_contained.
        - now apply rename_children_name_other. }
      rewrite (IH (rename_namespace r m0)).
      * now rewrite Hn1, Hc1.
      * exact Hn.
      * now rewrite (renamed_keeps_children r _ n R1).
      * now rewrite Hn1.
      * intros m Hm Hcm. rewrite (renamed_keeps_children r _ m R1) in Hcm.
        destruct (Hothers m) as (Hk & Hm1 & Hin);
          [apply elem_of_cons; now right|exact Hcm|].
        destruct Hin as [->|Hin]; [now left|right].
        split; [exact Hk|]. now rewrite Hm1, Hc1.
Qed.

(** The prefix is made of the name that the namespace has when the pass
    comes to it: the namespace [k], listed after the namespace [m] that
    holds it, is [m::k] by then, and its function [c] becomes [m::k::c],
    although [k::] is not in [c]. *)
Lemma rename_uses_the_current_name_of_the_namespace :
  let r := before_renaming renamed_namespace_input in
  namespaces r = [0; 1] /\ children (node r 0) = [1] /\
  children (node r 1) = [2] /\
  name (node r 1) = "k" /\ name (node r 2) = "c" /\
  Str.contains "k::" (name (node r 2)) = false /\
  name (node (renameToNamespaceScopes r) 1) = "m::k" /\
  name (node (renameToNamespaceScopes r) 2) = "m::k::c".
Proof. vm_compute. repeat split. Qed.

(** Every namespace that lists a node renames it: the class [C], listed by
    the namespaces [a] and [b], becomes [a::C] and then [b::a::C]. *)
Lemma rename_by_every_namespace_that_lists_the_child :
  let r := before_renaming two_namespaces_input in
  namespaces r = [0; 1] /\ children (node r 0) = [2] /\
  children (node r 1) = [2] /\
  name (node r 0) = "a" /\ name (node r 2) = "C" /\
  Str.contains "a::" (name (node r 2)) = false /\
  name (node (renameToNamespaceScopes r) 0) = "a" /\
  name (node (renameToNamespaceScopes r) 2) = "b::a::C".
Proof. vm_compute. repeat split. Qed.

(** C6 (amended): after the namespace-scope renaming pass, for every
    top-level namespace [n] whose own name the pass leaves as it is, and
    every child [c] of [n], however often [n] lists it, such that every
    other top-level namespace that lists [c] keeps its own name and has
    that name, followed by [::], in the name of [c] already: the name of
    [n] followed by [::] has been prepended to the name of [c] exactly
    when the name of [c] did not hold that text anywhere; a name that
    holds it is unchanged. *)
Theorem rename_prefixes_unless_contained (r : ExhaleRoot) (n c : nat) :
  n ∈ namespaces r -> c ∈ children (node r n) ->
  name (node (renameToNamespaceScopes r) n) = name (node r n) ->
  (forall m, m ∈ namespaces r -> c ∈ children (node r m) ->
     m = n \/
     (name (node (renameToNamespaceScopes r) m) = name (node r m) /\
      Str.contains (name (node r m) +:+ "::") (name (node r c)) = true)) ->
  name (node (renameToNamespaceScopes r) c) =
  if Str.contains (name (node r n) +:+ "::") (name (node r c))
  then name (node r c)
  else (name (node r n) +:+ "::") +:+ name (node r c).
Proof. apply rename_namespaces_name_scoped. Qed.

Lemma rename_prefixes_unless_contained_witness :
  let r := before_renaming scoped_children_input in
  (3 ∈ namespaces r /\ 5 ∈ children (node r 3) /\
   name (node (renameToNamespaceScopes r) 3) = name (node r 3) /\
   (forall m, m ∈ namespaces r -> 5 ∈ children (node r m) ->
      m = 3 \/
      (name (node (renameToNamespaceScopes r) m) = name (node r m) /\
       Str.contains (name (node r m) +:+ "::") (name (node r 5)) = true))) /\
  children (node r 0) = [1; 2; 3; 2; 5] /\ children (node r 3) = [4; 5] /\
  name (node (renameToNamespaceScopes r) 5) = "n::k::W".
Proof.
  intros r.
  assert (Hns : namespaces r = [0; 3]) by (vm_compute; reflexivity).
  assert (Hc0 : children (node r 0) = [1; 2; 3; 2; 5])
    by (vm_compute; reflexivity).
  assert (Hc3 : children (node r 3) = [4; 5]) by (vm_compute; reflexivity).
  assert (H : 3 ∈ namespaces r /\ 5 ∈ children (node r 3) /\
              name (node (renameToNamespaceScopes r) 3) = name (node r 3) /\
              (forall m, m ∈ namespaces r -> 5 ∈ children (node r m) ->
                 m = 3 \/
                 (name (node (renameToNamespaceScopes r) m) =
                  name (node r m) /\
                  Str.contains (name (node r m) +:+ "::") (name (node r 5))
                  = true))).
  { split; [compute_done|]. split; [compute_done|].
    split; [vm_compute; reflexivity|].
    intros m Hm _. rewrite Hns in Hm.
    apply elem_of_cons in Hm as [->|Hm].
    - right. split; vm_compute; reflexivity.
    - left. now apply list_elem_of_singleton in Hm. }
  split; [exact H|]. split; [exact Hc0|]. split; [exact Hc3|].
  destruct H as (H1 & H2 & H3 & H4).
  rewrite (rename_prefixes_unless_contained r 3 5 H1 H2 H3 H4).
  vm_compute. reflexivity.
Defined.

(** X10: [renameToNamespaceScopes] changes nothing but names, a name only
    gains prefixes, and afterwards the name of every child of a namespace
    of [namespaces] holds the name that the namespace had before the pass,
    followed by [::]. *)
Theorem renameToNamespaceScopes_scopes_the_children (r : ExhaleRoot) :
  let r' := renameToNamespaceScopes r in
  r' = with_heap (heap r') r /\
  (forall x, node r' x = set_name (name (node r' x)) (node r x)) /\
  (forall x, exists q, name (node r' x) = q +:+ name (node r x)) /\
  (forall n c,
     n ∈ namespaces r -> c ∈ children (node r n) ->
     Str.contains (name (node r n) +:+ "::") (name (node r' c)) = true).
Proof.
  cbv zeta. unfold renameToNamespaceScopes.
  destruct (rename_namespaces_scopes (namespaces r) r)
    as [(H1 & H2 & H3) H4].
  split; [exact H1|]. split; [exact H2|]. split; [exact H3|exact H4].
Qed.

(** ** Sorting *)

Lemma reordered_refl r : reordered r r.
Proof.
  repeat split; try reflexivity. now destruct (node r x).
Qed.

Lemma set_children_set_children a b nd :
  set_children a (set_children b nd) = set_children a nd.
Proof. reflexivity. Qed.

Lemma reordered_upd_children r s n (g : list nat -> list nat) :
  (forall l, Permutation (g l) l) ->
  reordered r s ->
  reordered r (upd n (fun nd => set_children (g (children nd)) nd) s).
Proof.
  intros Hg (H1 & H2 & H3 & H4 & H5). repeat split; try assumption.
  - rewrite node_upd. destruct (decide (x = n)) as [->|]; [|apply H5].
    simpl. destruct (H5 n) as [-> _]. reflexivity.
  - rewrite node_upd. destruct (decide (x = n)) as [->|]; [|apply H5].
    simpl. rewrite Hg. apply H5.
Qed.

Lemma reordered_typeSort r fuel s n :
  reordered r s -> reordered r (typeSort fuel s n).
Proof.
  revert s n. induction fuel as [|fuel IH]; intros s n H; simpl; [assumption|].
  apply fold_left_invariant; [intros; now apply IH|].
  apply (reordered_upd_children r s n (sort_nodes s)); [|assumption].
  intros l. apply py_sort_perm.
Qed.

Lemma reordered_sort_list r get set s :
  (forall l s, heap (set l s) = heap s) ->
  (forall l s, next_id (set l s) = next_id s) ->
  (forall l s, all_nodes (set l s) = all_nodes s) ->
  (forall l s, node_by_refid (set l s) = node_by_refid s) ->
  (forall l s, diagnostics (set l s) = diagnostics s) ->
  reordered r s -> reordered r (sort_list get set s).
Proof.
  intros Hh Hn Ha Hr Hd (H1 & H2 & H3 & H4 & H5). unfold sort_list, reordered.
  unfold node. rewrite Hh, Hn, Ha, Hr, Hd. now repeat split; try apply H5.
Qed.

Lemma reordered_deepSortList r fuel get set s :
  (forall l s, heap (set l s) = heap s) ->
  (forall l s, next_id (set l s) = next_id s) ->
  (forall l s, all_nodes (set l s) = all_nodes s) ->
  (forall l s, node_by_refid (set l s) = node_by_refid s) ->
  (forall l s, diagnostics (set l s) = diagnostics s) ->
  reordered r s -> reordered r (deepSortList fuel get set s).
Proof.
  intros Hh Hn Ha Hr Hd H. unfold deepSortList.
  apply fold_left_invariant; [intros; now apply reordered_typeSort|].
  now apply reordered_sort_list.
Qed.

Lemma with_heap_same h s1 s :
  s1 = with_heap (heap s1) s -> with_heap h s1 = with_heap h s.
Proof. intros H. unfold with_heap. f_equal; rewrite H; reflexivity. Qed.

Lemma typeSort_root fuel s n :
  typeSort fuel s n = with_heap (heap (typeSort fuel s n)) s.
Proof.
  revert s n. induction fuel as [|fuel IH]; intros s n; simpl;
    [now destruct s|].
  match goal with
  | |- fold_left ?f ?l0 ?s0 = _ =>
      assert (H : forall cs s1, s1 = with_heap (heap s1) s ->
                    fold_left f cs s1 = with_heap (heap (fold_left f cs s1)) s);
      [|apply H; reflexivity]
  end.
  intros l. induction l as [|c l IHl]; intros s1 H1; simpl; [exact H1|].
  apply IHl. rewrite (IH s1 c) at 1. now apply with_heap_same.
Qed.

Lemma deepSortList_root fuel get set s :
  deepSortList fuel get set s =
  with_heap (heap (deepSortList fuel get set s)) (sort_list get set s).
Proof.
  unfold deepSortList.
  match goal with
  | |- fold_left ?f ?l0 ?s0 = _ =>
      assert (H : forall cs s1, s1 = with_heap (heap s1) s0 ->
                    fold_left f cs s1 =
                    with_heap (heap (fold_left f cs s1)) s0);
      [|apply H; now destruct s0]
  end.
  intros l. induction l as [|c l IHl]; intros s1 H1; simpl; [exact H1|].
  apply IHl. rewrite (typeSort_root fuel s1 c) at 1. now apply with_heap_same.
Qed.

Section ListsUnderSorting.
Context (L get : ExhaleRoot -> list nat)
  (set : list nat -> ExhaleRoot -> ExhaleRoot).

Lemma list_sort_list_self s :
  (forall l s, get (set l s) = l) ->
  get (sort_list get set s) = sort_nodes s (get s).
Proof. intros H. unfold sort_list. apply H. Qed.

Lemma list_sort_list_other s :
  (forall l s, L (set l s) = L s) -> L (sort_list get set s) = L s.
Proof. intros H. unfold sort_list. apply H. Qed.

Lemma list_deepSortList_self fuel s :
  (forall l s, get (set l s) = l) ->
  (forall h s, get (with_heap h s) = get s) ->
  get (deepSortList fuel get set s) = sort_nodes s (get s).
Proof.
  intros H Hh. rewrite deepSortList_root, Hh. now apply list_sort_list_self.
Qed.

Lemma list_deepSortList_other fuel s :
  (forall l s, L (set l s) = L s) ->
  (forall h s, L (with_heap h s) = L s) ->
  L (deepSortList fuel get set s) = L s.
Proof.
  intros H Hh. rewrite deepSortList_root, Hh. now apply list_sort_list_other.
Qed.
End ListsUnderSorting.

Lemma py_sort_ext {A} (lt lt' : A -> A -> bool) l :
  (forall a b, lt a b = lt' a b) -> py_sort lt l = py_sort lt' l.
Proof.
  intros H. unfold py_sort. f_equal.
  assert (Hi : forall x rl, insert_back lt x rl = insert_back lt' x rl).
  { intros x rl. induction rl as [|y rl IH]; simpl; [reflexivity|].
    now rewrite H, IH. }
  generalize (@nil A). induction l as [|x l IH]; intros acc; simpl;
    [reflexivity|].
  now rewrite Hi, IH.
Qed.

Lemma sort_nodes_reordered r s l :
  reordered r s -> sort_nodes s l = sort_nodes r l.
Proof.
  intros (_ & _ & _ & _ & H). unfold sort_nodes. apply py_sort_ext.
  intros a b. destruct (H a) as [-> _], (H b) as [-> _]. reflexivity.
Qed.

(** One step of a proof that a list is the one that an earlier pass of
    [sortInternals] left. *)
Ltac sorted_list_step L :=
  first [rewrite (list_deepSortList_other L) by reflexivity
        |rewrite (list_sort_list_other L) by reflexivity].

Ltac reordered_steps :=
  repeat first
    [apply reordered_deepSortList; [reflexivity..|]
    |apply reordered_sort_list; [reflexivity..|]];
  apply reordered_refl.

(** The list [L], sorted by one pass of [sortInternals], and kept by the
    passes that follow. *)
Ltac sorted_list L :=
  repeat sorted_list_step L;
  first [rewrite (list_deepSortList_self L) by reflexivity
        |rewrite (list_sort_list_self L) by reflexivity];
  repeat sorted_list_step L;
  apply sort_nodes_reordered; reordered_steps.

(** The lists that [sortInternals] leaves, in the order of the record. *)
Lemma sortInternals_lists fuel r :
  let r' := sortInternals fuel r in
  reordered r r' /\
  class_like r' = sort_nodes r (class_like r) /\
  defines r' = sort_nodes r (defines r) /\
  enums r' = sort_nodes r (enums r) /\
  enum_values r' = sort_nodes r (enum_values r) /\
  functions r' = sort_nodes r (functions r) /\
  dirs r' = sort_nodes r (dirs r) /\
  files r' = sort_nodes r (files r) /\
  groups r' = sort_nodes r (groups r) /\
  namespaces r' = sort_nodes r (namespaces r) /\
  typedefs r' = sort_nodes r (typedefs r) /\
  unions r' = sort_nodes r (unions r) /\
  variables r' = sort_nodes r (variables r).
Proof.
  cbv zeta. unfold sortInternals.
  split; [reordered_steps|].
  split; [sorted_list class_like|].
  split; [sorted_list defines|].
  split; [sorted_list enums|].
  split; [sorted_list enum_values|].
  split; [sorted_list functions|].
  split; [sorted_list dirs|].
  split; [sorted_list files|].
  split; [sorted_list groups|].
  split; [sorted_list namespaces|].
  split; [sorted_list typedefs|].
  split; [sorted_list unions|sorted_list variables].
Qed.

(** X11: [sortInternals] sorts each of the twelve lists of the root with
    the order of the nodes, the seven flat lists first and then the five
    lists whose nodes have their children sorted; it changes nothing else
    of the root, and of a node it changes the order of the children only. *)
Theorem sortInternals_sorts_every_list (fuel : nat) (r : ExhaleRoot) :
  let r' := sortInternals fuel r in
  reordered r r' /\
  defines r' = sort_nodes r (defines r) /\
  enums r' = sort_nodes r (enums r) /\
  enum_values r' = sort_nodes r (enum_values r) /\
  functions r' = sort_nodes r (functions r) /\
  groups r' = sort_nodes r (groups r) /\
  typedefs r' = sort_nodes r (typedefs r) /\
  variables r' = sort_nodes r (variables r) /\
  class_like r' = sort_nodes r (class_like r) /\
  namespaces r' = sort_nodes r (namespaces r) /\
  unions r' = sort_nodes r (unions r) /\
  files r' = sort_nodes r (files r) /\
  dirs r' = sort_nodes r (dirs r).
Proof.
  cbv zeta.
  destruct (sortInternals_lists fuel r)
    as (Hre & E1 & E2 & E3 & E4 & E5 & E6 & E7 & E8 & E9 & E10 & E11 & E12).
  split; [exact Hre|]. repeat apply conj; assumption.
Qed.

Section SortedOrder.
Context {A : Type} (lt : A -> A -> bool) (le : A -> A -> Prop) (P : A -> Prop).
Hypothesis lt_le : forall a b, P a -> P b -> lt a b = true -> le a b.
Hypothesis nlt_le : forall a b, P a -> P b -> lt a b = false -> le b a.
Hypothesis le_trans :
  forall a b c, P a -> P b -> P c -> le a b -> le b c -> le a c.

Lemma insert_back_sorted x rl :
  P x -> Forall P rl ->
  StronglySorted (fun a b => le b a) rl ->
  StronglySorted (fun a b => le b a) (insert_back lt x rl) /\
  Forall P (insert_back lt x rl).
Proof.
  intros Hx. induction rl as [|y rl IH]; intros HP Hs; simpl.
  - split; repeat constructor; assumption.
  - apply Forall_cons in HP as [Hy HP].
    apply StronglySorted_inv in Hs as [Hrl Hall].
    destruct (IH HP Hrl) as [IH1 IH2].
    rewrite Forall_forall in Hall. rewrite Forall_forall in HP.
    destruct (lt x y) eqn:E.
    + split; [|now constructor]. constructor; [exact IH1|].
      apply Forall_forall. intros z Hz.
      apply insert_back_elem_of in Hz as [->|Hz]; [now apply lt_le|].
      now apply Hall.
    + assert (Hyx : le y x) by now apply nlt_le.
      split.
      * constructor.
        -- constructor; [exact Hrl|now apply Forall_forall].
        -- constructor; [exact Hyx|].
           apply Forall_forall. intros z Hz.
           apply (le_trans z y x); auto.
      * constructor; [assumption|]. constructor; [assumption|].
        now apply Forall_forall.
Qed.

Lemma strongly_sorted_snoc (R : A -> A -> Prop) l x :
  StronglySorted R l -> Forall (fun y => R y x) l ->
  StronglySorted R (l ++ [x]).
Proof.
  induction l as [|a l IH]; intros Hs Hall; simpl.
  - repeat constructor.
  - apply StronglySorted_inv in Hs as [Hl Ha].
    apply Forall_cons in Hall as [Hax Hall].
    constructor; [now apply IH|].
    apply Forall_app. split; [exact Ha|]. now repeat constructor.
Qed.

Lemma strongly_sorted_rev (R : A -> A -> Prop) l :
  StronglySorted (fun a b => R b a) l -> StronglySorted R (List.rev l).
Proof.
  induction l as [|a l IH]; intros Hs; simpl; [constructor|].
  apply StronglySorted_inv in Hs as [Hl Ha].
  apply strongly_sorted_snoc; [now apply IH|].
  rewrite Forall_forall in Ha. apply Forall_forall. intros y Hy.
  apply Ha. now apply list_elem_of_In, in_rev, list_elem_of_In in Hy.
Qed.

(** The sort leaves a list of nodes that satisfy [P] in the order [le]. *)
Lemma py_sort_sorted l : Forall P l -> StronglySorted le (py_sort lt l).
Proof.
  intros HP. unfold py_sort. apply strongly_sorted_rev.
  enough (H : forall acc,
             Forall P acc -> StronglySorted (fun a b => le b a) acc ->
             StronglySorted (fun a b => le b a)
               (fold_left (fun acc x => insert_back lt x acc) l acc))
    by (apply H; constructor).
  induction l as [|x l IH]; intros acc Hacc Hs; simpl; [exact Hs|].
  apply Forall_cons in HP as [Hx HP].
  destruct (insert_back_sorted x acc Hx Hacc Hs) as [H1 H2].
  now apply IH.
Qed.
End SortedOrder.

Lemma ltb_leb s t : String.ltb s t = true -> String.leb s t = true.
Proof.
  unfold String.ltb, String.leb. now destruct (String.compare s t).
Qed.

Lemma nltb_leb s t : String.ltb s t = false -> String.leb t s = true.
Proof.
  unfold String.ltb, String.leb. rewrite (String.compare_antisym s t).
  now destruct (String.compare t s).
Qed.

Lemma leb_trans s t u :
  String.leb s t = true -> String.leb t u = true -> String.leb s u = true.
Proof.
  intros H1%Is_true_true H2%Is_true_true. apply Is_true_true.
  change (String.le s u). now transitivity t.
Qed.

(** The sort of a list of nodes of one kind leaves them in the order of
    their lower-cased names. *)
Lemma sort_nodes_by_name r k l :
  (forall n, n ∈ l -> kind (node r n) = k) ->
  StronglySorted (name_le r) (sort_nodes r l).
Proof.
  intros Hk. unfold sort_nodes.
  apply (py_sort_sorted _ (name_le r) (fun n => kind (node r n) = k)).
  - intros a b Ha Hb. rewrite node_lt_same_kind by congruence.
    apply ltb_leb.
  - intros a b Ha Hb. rewrite node_lt_same_kind by congruence.
    apply nltb_leb.
  - intros a b c _ _ _. apply leb_trans.
  - now apply Forall_forall.
Qed.

(** The sort of a list of classes and structs leaves the structs first. *)
Lemma sort_nodes_class_like r l :
  (forall n, n ∈ l -> kind (node r n) ∈ ["class"; "struct"]) ->
  StronglySorted (class_le r) (sort_nodes r l).
Proof.
  intros Hk. unfold sort_nodes.
  assert (Hcases : forall k, k ∈ ["class"; "struct"] ->
                     k = "class" \/ k = "struct").
  { intros k [->|H]%elem_of_cons; [now left|].
    apply list_elem_of_singleton in H. now right. }
  apply (py_sort_sorted _ (class_le r)
           (fun n => kind (node r n) ∈ ["class"; "struct"])).
  - intros a b Ha%Hcases Hb%Hcases Hlt. unfold class_le, name_le.
    destruct Ha as [Ha|Ha], Hb as [Hb|Hb].
    + right. split; [congruence|].
      rewrite node_lt_same_kind in Hlt by congruence. now apply ltb_leb.
    + destruct (node_lt_struct_class _ _ Hb Ha). congruence.
    + now left.
    + right. split; [congruence|].
      rewrite node_lt_same_kind in Hlt by congruence. now apply ltb_leb.
  - intros a b Ha%Hcases Hb%Hcases Hlt. unfold class_le, name_le.
    destruct Ha as [Ha|Ha], Hb as [Hb|Hb].
    + right. split; [congruence|].
      rewrite node_lt_same_kind in Hlt by congruence. now apply nltb_leb.
    + now left.
    + destruct (node_lt_struct_class _ _ Ha Hb). congruence.
    + right. split; [congruence|].
      rewrite node_lt_same_kind in Hlt by congruence. now apply nltb_leb.
  - intros a b c _ _ _. unfold class_le, name_le.
    intros [[H1 H2]|[H1 H2]] [[H3 H4]|[H3 H4]].
    + congruence.
    + left. split; congruence.
    + left. split; congruence.
    + right. split; [congruence|]. eapply leb_trans; eassumption.
  - now apply Forall_forall.
Qed.

Lemma strongly_sorted_impl {A} (R R' : A -> A -> Prop) l :
  (forall a b, R a b -> R' a b) -> StronglySorted R l -> StronglySorted R' l.
Proof.
  intros H. induction 1 as [|a l Hl IH Ha]; constructor; [exact IH|].
  eapply Forall_impl; [exact Ha|]. intros b. apply H.
Qed.

Lemma name_le_reordered r s a b :
  reordered r s -> name_le r a b -> name_le s a b.
Proof.
  intros (_ & _ & _ & _ & H). unfold name_le.
  destruct (H a) as [-> _], (H b) as [-> _]. now simpl.
Qed.

Lemma class_le_reordered r s a b :
  reordered r s -> class_le r a b -> class_le s a b.
Proof.
  intros H. pose proof H as (_ & _ & _ & _ & Hn). unfold class_le.
  intros [[H1 H2]|[H1 H2]].
  - left. destruct (Hn a) as [-> _], (Hn b) as [-> _]. now simpl.
  - right. split; [|now apply (name_le_reordered r)].
    destruct (Hn a) as [-> _], (Hn b) as [-> _]. now simpl.
Qed.

Lemma listed_as_one_kind r l k n :
  listed_as r l [k] -> n ∈ l -> kind (node r n) = k.
Proof.
  intros H Hn. destruct (H n Hn) as [_ Hk].
  now apply list_elem_of_singleton in Hk.
Qed.

(** The lists that [sortInternals] leaves, on a root whose lists hold nodes
    of their kind only. *)
Lemma sortInternals_in_order fuel r :
  kind_lists_pure r ->
  let r' := sortInternals fuel r in
  StronglySorted (class_le r') (class_like r') /\
  StronglySorted (name_le r') (defines r') /\
  StronglySorted (name_le r') (enums r') /\
  StronglySorted (name_le r') (enum_values r') /\
  StronglySorted (name_le r') (functions r') /\
  StronglySorted (name_le r') (dirs r') /\
  StronglySorted (name_le r') (files r') /\
  StronglySorted (name_le r') (groups r') /\
  StronglySorted (name_le r') (namespaces r') /\
  StronglySorted (name_le r') (typedefs r') /\
  StronglySorted (name_le r') (unions r') /\
  StronglySorted (name_le r') (variables r').
Proof.
  intros Hpure. cbv zeta.
  destruct (sortInternals_lists fuel r)
    as (Hre & E1 & E2 & E3 & E4 & E5 & E6 & E7 & E8 & E9 & E10 & E11 & E12).
  rewrite E1, E2, E3, E4, E5, E6, E7, E8, E9, E10, E11, E12.
  destruct Hpure as (P1 & P2 & P3 & P4 & P5 & P6 & P7 & P8 & P9 & P10 & P11
                     & P12).
  split.
  { eapply strongly_sorted_impl; [intros a b; apply (class_le_reordered r)|];
      [exact Hre|].
    apply sort_nodes_class_like. intros n Hn. now apply P1. }
  repeat apply conj;
    (eapply strongly_sorted_impl;
       [intros a b; apply (name_le_reordered r); exact Hre|]);
    eapply sort_nodes_by_name; intros n Hn;
    match goal with
    | Hn : ?n ∈ ?l, H : listed_as _ ?l [?k] |- _ =>
        exact (listed_as_one_kind _ _ _ _ H Hn)
    end.
Qed.

(** The root that [parse] sorts. *)
Lemma parse_before_sorting inp fuel r' :
  parse inp fuel = Ok r' ->
  exists r10,
    r' = sortInternals fuel r10 /\
    kind_lists_pure r10 /\ lists_nodup r10 /\
    links_kinded r10 /\ children_kinded r10.
Proof.
  unfold parse, reparentAll.
  destruct (discoverAllNodes inp init_root) as [r1|] eqn:E1; simpl;
    [|discriminate].
  destruct (evolved_discoverAllNodes inp r1 E1) as (compounds & _ & H).
  cbv zeta in H. destruct H as (Hidx & _ & H1).
  pose proof (indexed_pure _ Hidx) as Hpure.
  pose proof (evolved_reparentUnions _ _ Hpure H1) as H2.
  pose proof (evolved_reparentClassLike _ _ Hpure H2) as H3.
  pose proof (evolved_reparentDirectories _ _ Hpure H3) as H4.
  pose proof (evolved_renameToNamespaceScopes _ _ H4) as H5.
  pose proof (evolved_reparentNamespaces _ _ H5) as H6.
  pose proof (evolved_dedup_children _ _ H6) as H7.
  pose proof (evolved_index_nodes _ _ H7) as H8.
  destruct (fileRefDiscovery inp _) as [r9|] eqn:E9; simpl; [|discriminate].
  pose proof (evolved_fileRefDiscovery _ inp _ r9 Hpure H8 E9) as H9.
  pose proof (evolved_filePostProcess _ fuel _ Hpure H9) as H10.
  intros [= <-]. eexists. split; [reflexivity|].
  split; [exact (evolved_pure _ _ Hpure H10)|].
  now destruct H10 as (_ & _ & ? & ? & ?).
Qed.

(** X12: the lists of the root that [parse] returns are in order: the
    structs of [class_like] come before the classes, and the nodes of one
    kind of every list are in the order of their lower-cased names. *)
Theorem parse_leaves_the_lists_in_order (inp : Input) (fuel : nat)
    (r' : ExhaleRoot) :
  parse inp fuel = Ok r' ->
  StronglySorted (class_le r') (class_like r') /\
  StronglySorted (name_le r') (defines r') /\
  StronglySorted (name_le r') (enums r') /\
  StronglySorted (name_le r') (enum_values r') /\
  StronglySorted (name_le r') (functions r') /\
  StronglySorted (name_le r') (dirs r') /\
  StronglySorted (name_le r') (files r') /\
  StronglySorted (name_le r') (groups r') /\
  StronglySorted (name_le r') (namespaces r') /\
  StronglySorted (name_le r') (typedefs r') /\
  StronglySorted (name_le r') (unions r') /\
  StronglySorted (name_le r') (variables r').
Proof.
  intros H.
  destruct (parse_before_sorting inp fuel r' H) as (r10 & -> & Hpure & _).
  exact (sortInternals_in_order fuel r10 Hpure).
Qed.

Lemma parse_leaves_the_lists_in_order_witness :
  let r' := get_or init_root (parse library_input 8) in
  parse library_input 8 = Ok r' /\
  StronglySorted (class_le r') (class_like r') /\
  StronglySorted (name_le r') (dirs r').
Proof.
  intros r'.
  assert (H : parse library_input 8 = Ok r')
    by (apply is_ok_get_or; vm_compute; reflexivity).
  split; [exact H|].
  destruct (parse_leaves_the_lists_in_order library_input 8 r' H)
    as (H1 & _ & _ & _ & _ & H6 & _).
  now split.
Defined.

(** ** What file reference discovery keeps *)

Lemma file_refs_frame_refl r : file_refs_frame r r.
Proof.
  split; [now destruct r|]. split; [exists []; now rewrite app_nil_r|].
  split; [now repeat split|]. split; [now repeat split|].
  split; [auto|]. intros n. exists []. now rewrite app_nil_r.
Qed.

Lemma file_refs_frame_files r s : file_refs_frame r s -> files s = files r.
Proof. intros (H & _). exact (f_equal files H). Qed.

Lemma file_refs_frame_trans r s t :
  file_refs_frame r s -> file_refs_frame s t -> file_refs_frame r t.
Proof.
  intros H1 H2. pose proof (file_refs_frame_files r s H1) as Hf.
  destruct H1 as (A1 & [d1 A2] & A3 & A4 & A5 & A6).
  destruct H2 as (B1 & [d2 B2] & B3 & B4 & B5 & B6).
  split; [|split; [|split; [|split; [|split]]]].
  - clear -A1 B1. destruct r, s, t.
    unfold with_diagnostics, with_heap in *. simpl in *.
    injection A1; injection B1; intros; subst; reflexivity.
  - exists (d1 ++ d2). now rewrite B2, A2, app_assoc.
  - intros n. destruct (A3 n) as (?&?&?&?&?&?), (B3 n) as (?&?&?&?&?&?).
    repeat split; congruence.
  - intros n Hn. destruct (A4 n Hn) as (?&?&?&?&?&?).
    rewrite <- Hf in Hn. destruct (B4 n Hn) as (?&?&?&?&?&?).
    repeat split; congruence.
  - intros n g E. now apply B5, A5.
  - intros n. destruct (A6 n) as [c1 E1], (B6 n) as [c2 E2].
    exists (c1 ++ c2). now rewrite E2, E1, app_assoc.
Qed.

(** An assignment to the file [f] that keeps what the frame keeps of every
    node, and appends to the children. *)
Lemma file_refs_frame_upd f g s :
  f ∈ files s ->
  (forall nd,
     name (g nd) = name nd /\ kind (g nd) = kind nd /\
     refid (g nd) = refid nd /\ parent (g nd) = parent nd /\
     soup (g nd) = soup nd /\
     def_in_file_location (g nd) = def_in_file_location nd /\
     def_in_file (g nd) = def_in_file nd /\
     exists added, children (g nd) = children nd ++ added) ->
  file_refs_frame s (upd f g s).
Proof.
  intros Hf Hg.
  split; [now destruct s|]. split; [exists []; now rewrite app_nil_r|].
  split; [|split; [|split]].
  - intros n. rewrite node_upd. destruct (decide (n = f)); [|now repeat split].
    destruct (Hg (node s n)) as (?&?&?&?&?&?&_). now repeat split.
  - intros n Hn. rewrite node_upd.
    destruct (decide (n = f)) as [->|]; [contradiction|now repeat split].
  - intros n h E. rewrite node_upd. destruct (decide (n = f)); [|exact E].
    destruct (Hg (node s n)) as (_&_&_&_&_&_&->&_). exact E.
  - intros n. rewrite node_upd.
    destruct (decide (n = f)); [|exists []; now rewrite app_nil_r].
    destruct (Hg (node s n)) as (_&_&_&_&_&_&_&H). exact H.
Qed.

Ltac frame_fields :=
  intros nd; repeat split; try reflexivity;
  first [exists []; simpl; now rewrite app_nil_r
        |eexists; simpl; reflexivity].

Lemma file_refs_frame_exclaim m s : file_refs_frame s (exclaimError m s).
Proof.
  split; [now destruct s|]. split; [now exists [m]|].
  split; [now repeat split|]. split; [now repeat split|].
  split; [auto|]. intros n. exists []. now rewrite app_nil_r.
Qed.

Lemma file_refs_frame_set_def n f s :
  def_in_file (node s n) = None ->
  file_refs_frame s (upd n (set_def_in_file (Some f)) s).
Proof.
  intros Hnone.
  split; [now destruct s|]. split; [exists []; now rewrite app_nil_r|].
  split; [|split; [|split]].
  - intros x. now rewrite node_upd; destruct (decide (x = n)).
  - intros x _. now rewrite node_upd; destruct (decide (x = n)).
  - intros x h E. rewrite node_upd. destruct (decide (x = n)) as [->|];
      [congruence|exact E].
  - intros x. exists []. rewrite app_nil_r.
    now rewrite node_upd; destruct (decide (x = n)).
Qed.

(** A loop whose body keeps the frame keeps it. *)
Lemma file_refs_frame_fold {A} (body : ExhaleRoot -> A -> ExhaleRoot) l r s :
  (forall s x, x ∈ l -> file_refs_frame s (body s x)) ->
  file_refs_frame r s -> file_refs_frame r (fold_left body l s).
Proof.
  intros Hbody. apply fold_left_invariant_in.
  intros s' x Hx Hs'. eapply file_refs_frame_trans; [exact Hs'|].
  now apply Hbody.
Qed.

Lemma file_refs_frame_scan_line f st line :
  f ∈ files (fst (fst st)) ->
  file_refs_frame (fst (fst st)) (fst (fst (scan_line f st line))).
Proof.
  destruct st as [[s owned] processing]. simpl. intros Hf.
  repeat match goal with
         | |- context [if ?b then _ else _] => destruct b
         | |- context [match ?x with Some _ => _ | None => _ end] => destruct x
         end; simpl;
    first [apply file_refs_frame_refl
          |apply file_refs_frame_upd; [exact Hf|frame_fields]].
Qed.

Lemma file_refs_frame_scan_file inp acc f :
  f ∈ files (fst acc) ->
  file_refs_frame (fst acc) (fst (scan_file inp acc f)).
Proof.
  destruct acc as [s ownerships]. simpl. intros Hf.
  destruct (file_lines inp (refid (node s f))) as [lines|];
    [|apply file_refs_frame_exclaim].
  assert (H : file_refs_frame s
                (fst (fst (fold_left (scan_line f) lines (s, [], false))))).
  { apply (fold_left_invariant
             (fun st => file_refs_frame s (fst (fst st))));
      [|apply file_refs_frame_refl].
    intros st line Hst. eapply file_refs_frame_trans; [exact Hst|].
    apply file_refs_frame_scan_line.
    now rewrite (file_refs_frame_files s _ Hst). }
  destruct (fold_left (scan_line f) lines (s, [], false)) as [[s' owned] p].
  exact H.
Qed.

Lemma file_refs_frame_strip_location strip s f s' :
  f ∈ files s -> strip_location strip s f = Ok s' -> file_refs_frame s s'.
Proof.
  intros Hf. unfold strip_location.
  destruct (Str.startswith _ _); [discriminate|]. intros [= <-].
  apply file_refs_frame_upd; [exact Hf|frame_fields].
Qed.

Lemma file_refs_frame_reparent_to_file f s match_refid :
  f ∈ files s -> file_refs_frame s (reparent_to_file f s match_refid).
Proof.
  intros Hf. unfold reparent_to_file, append_child. cbv zeta.
  repeat match goal with
         | |- context [if ?b then _ else _] => destruct b
         | |- context [match ?x with Some _ => _ | None => _ end] => destruct x
         end;
    first [apply file_refs_frame_refl
          |apply file_refs_frame_upd; [exact Hf|frame_fields]].
Qed.

Lemma file_refs_frame_adopt_orphan f s orphan :
  f ∈ files s -> file_refs_frame s (adopt_orphan f s orphan).
Proof.
  intros Hf. unfold adopt_orphan, append_child. cbv zeta.
  repeat match goal with
         | |- context [if ?b then _ else _] => destruct b
         end;
    first [apply file_refs_frame_refl
          |apply file_refs_frame_upd; [exact Hf|frame_fields]].
Qed.

Lemma file_refs_frame_check_file_child f s child :
  file_refs_frame s (check_file_child f s child).
Proof.
  unfold check_file_child.
  destruct (def_in_file (node s child)) as [g|] eqn:E.
  - destruct (decide (g = f));
      [apply file_refs_frame_refl|apply file_refs_frame_exclaim].
  - now apply file_refs_frame_set_def.
Qed.

(** A loop over the files whose body keeps the frame. *)
Lemma file_refs_frame_files_loop
    (body : ExhaleRoot -> nat -> ExhaleRoot) r s :
  (forall s f, f ∈ files s -> file_refs_frame s (body s f)) ->
  file_refs_frame r s -> file_refs_frame r (fold_left body (files s) s).
Proof.
  intros Hbody Hs.
  assert (H : forall l, l ⊆ files s ->
                file_refs_frame r (fold_left body l s)).
  { intros l Hl. apply (fold_left_invariant_in
                          (fun t => file_refs_frame r t)); [|exact Hs].
    intros t f Hf Ht. eapply file_refs_frame_trans; [exact Ht|].
    apply Hbody.
    rewrite (file_refs_frame_files r t Ht), <- (file_refs_frame_files r s Hs).
    now apply Hl. }
  now apply H.
Qed.

Lemma file_refs_frame_scanned inp r : file_refs_frame r (scanned inp r).
Proof.
  unfold scanned.
  apply (fold_left_invariant_in (fun acc => file_refs_frame r (fst acc)));
    [|apply file_refs_frame_refl].
  intros acc f Hf Hacc. eapply file_refs_frame_trans; [exact Hacc|].
  apply file_refs_frame_scan_file.
  now rewrite (file_refs_frame_files r _ Hacc).
Qed.

(** X13: [fileRefDiscovery] sets the parent of no node: of every node it
    keeps the name, the kind, the refid and the parent, it keeps the lists
    of the root and [node_by_refid], it changes the location, the includes,
    the program listing, the namespaces used and the children of files
    only, it only appends to the children of a node, and it never replaces
    a defining file that is set. *)
Theorem fileRefDiscovery_sets_no_parent (inp : Input) (r r' : ExhaleRoot) :
  fileRefDiscovery inp r = Ok r' -> file_refs_frame r r'.
Proof.
  unfold fileRefDiscovery.
  destruct (negb (output_dir_valid inp));
    [intros [= <-]; apply file_refs_frame_exclaim|].
  pose proof (file_refs_frame_scanned inp r) as H1. unfold scanned in H1.
  destruct (fold_left (scan_file inp) (files r) (r, [])) as [r1 ownerships].
  simpl in H1.
  assert (H2 : forall r2,
             match doxygenStripFromPath inp with
             | Some strip => for_each (strip_location strip) (files r1) r1
             | None => Ok r1
             end = Ok r2 -> file_refs_frame r r2).
  { intros r2. destruct (doxygenStripFromPath inp) as [strip|];
      [|now intros [= <-]].
    apply (for_each_invariant_in (file_refs_frame r)); [|exact H1].
    intros s f s' Hf Hs E. eapply file_refs_frame_trans; [exact Hs|].
    apply (file_refs_frame_strip_location strip s f); [|exact E].
    rewrite (file_refs_frame_files r s Hs),
      <- (file_refs_frame_files r r1 H1). exact Hf. }
  destruct (match doxygenStripFromPath inp with
            | Some strip => for_each (strip_location strip) (files r1) r1
            | None => Ok r1
            end) as [r2|]; simpl; [|discriminate].
  specialize (H2 r2 eq_refl). intros [= <-].
  unfold check_file_children, check_children_of.
  apply file_refs_frame_files_loop.
  { intros s f Hf. apply file_refs_frame_fold; [|apply file_refs_frame_refl].
    intros; apply file_refs_frame_check_file_child. }
  apply file_refs_frame_files_loop.
  { intros s f Hf.
    apply (fold_left_invariant_in (fun t => file_refs_frame s t));
      [|apply file_refs_frame_refl].
    intros t orphan _ Ht. eapply file_refs_frame_trans; [exact Ht|].
    apply file_refs_frame_adopt_orphan.
    now rewrite (file_refs_frame_files s t Ht). }
  apply file_refs_frame_files_loop; [|exact H2].
  intros s f Hf.
  apply (fold_left_invariant_in (fun t => file_refs_frame s t));
    [|apply file_refs_frame_refl].
  intros t rid _ Ht. eapply file_refs_frame_trans; [exact Ht|].
  apply file_refs_frame_reparent_to_file.
  now rewrite (file_refs_frame_files s t Ht).
Qed.

Lemma fileRefDiscovery_sets_no_parent_witness :
  let r := before_file_refs scanned_file_input in
  let r' := get_or r (fileRefDiscovery scanned_file_input r) in
  fileRefDiscovery scanned_file_input r = Ok r' /\ file_refs_frame r r'.
Proof.
  intros r r'.
  assert (H : fileRefDiscovery scanned_file_input r = Ok r')
    by (apply is_ok_get_or; vm_compute; reflexivity).
  split; [exact H|].
  exact (fileRefDiscovery_sets_no_parent scanned_file_input r r' H).
Defined.

(** ** Stripping the path given to Doxygen *)

Lemma same_locations_refl r : same_locations r r.
Proof. now intros n. Qed.

Lemma same_locations_trans r s t :
  same_locations r s -> same_locations s t -> same_locations r t.
Proof. intros H1 H2 n. now rewrite H2, H1. Qed.

Lemma same_locations_upd f g s :
  (forall nd, location (g nd) = location nd) -> same_locations s (upd f g s).
Proof. intros Hg n. now apply node_upd_field. Qed.

Lemma same_locations_fold {A} (body : ExhaleRoot -> A -> ExhaleRoot) l s :
  (forall s x, same_locations s (body s x)) ->
  same_locations s (fold_left body l s).
Proof.
  intros Hbody.
  apply (fold_left_invariant (same_locations s)); [|apply same_locations_refl].
  intros t x Ht. eapply same_locations_trans; [exact Ht|apply Hbody].
Qed.

Lemma same_locations_reparent_to_file f s match_refid :
  same_locations s (reparent_to_file f s match_refid).
Proof.
  unfold reparent_to_file, append_child. cbv zeta.
  repeat match goal with
         | |- context [if ?b then _ else _] => destruct b
         | |- context [match ?x with Some _ => _ | None => _ end] => destruct x
         end;
    first [apply same_locations_refl|now apply same_locations_upd].
Qed.

Lemma same_locations_adopt_orphan f s orphan :
  same_locations s (adopt_orphan f s orphan).
Proof.
  unfold adopt_orphan, append_child. cbv zeta.
  repeat match goal with
         | |- context [if ?b then _ else _] => destruct b
         end;
    first [apply same_locations_refl|now apply same_locations_upd].
Qed.

Lemma same_locations_check_file_child f s child :
  same_locations s (check_file_child f s child).
Proof.
  unfold check_file_child.
  destruct (def_in_file (node s child)) as [g|];
    [destruct (decide (g = f))|].
  - apply same_locations_refl.
  - intros x. reflexivity.
  - apply same_locations_upd. reflexivity.
Qed.

Lemma strip_location_eq strip s f :
  strip_location strip s f =
  if Str.startswith "/" (stripped_location strip s f) then Raise TypeError
  else Ok (upd f (fun nd => set_location
                              (Str.replace strip EmptyString (location nd)) nd)
             s).
Proof.
  unfold strip_location. cbv zeta. rewrite node_upd_eq. reflexivity.
Qed.

Lemma strips_clean_ext strip r s l :
  (forall f, f ∈ l -> location (node s f) = location (node r f)) ->
  strips_clean strip s l = strips_clean strip r l.
Proof.
  unfold strips_clean, stripped_location.
  induction l as [|x l IH]; intros H; simpl; [reflexivity|].
  rewrite H by (apply elem_of_cons; now left).
  rewrite IH; [reflexivity|].
  intros f Hf. apply H, elem_of_cons. now right.
Qed.

(** The loop that strips the locations, on files that are listed once. *)
Lemma strip_locations_loop strip l :
  NoDup l ->
  forall s,
    if strips_clean strip s l then
      exists s',
        for_each (strip_location strip) l s = Ok s' /\
        files s' = files s /\
        (forall f, f ∈ l -> location (node s' f) = stripped_location strip s f) /\
        (forall f, f ∉ l -> location (node s' f) = location (node s f))
    else for_each (strip_location strip) l s = Raise TypeError.
Proof.
  induction 1 as [|x l Hx Hnd IH]; intros s.
  - simpl. exists s. repeat split; auto. intros f Hf. inversion Hf.
  - change (strips_clean strip s (x :: l))
      with (negb (Str.startswith "/" (stripped_location strip s x))
            && strips_clean strip s l).
    change (for_each (strip_location strip) (x :: l) s)
      with (s' ← strip_location strip s x;
            for_each (strip_location strip) l s').
    rewrite strip_location_eq.
    destruct (Str.startswith "/" (stripped_location strip s x)) eqn:E;
      simpl; [reflexivity|].
    set (s1 := upd x _ s).
    assert (Hother : forall f, f <> x ->
                       location (node s1 f) = location (node s f)).
    { intros f Hf. unfold s1. now rewrite node_upd_ne. }
    assert (Hsame : strips_clean strip s1 l = strips_clean strip s l).
    { apply strips_clean_ext. intros f Hf. apply Hother.
      intros ->. contradiction. }
    specialize (IH s1). rewrite Hsame in IH.
    destruct (strips_clean strip s l); [|exact IH].
    destruct IH as (s' & Hrun & Hfiles & Hin & Hout).
    exists s'. split; [exact Hrun|]. split; [exact Hfiles|]. split.
    + intros f Hf. apply elem_of_cons in Hf as [->|Hf].
      * rewrite Hout by assumption. unfold s1. now rewrite node_upd_eq.
      * rewrite Hin by assumption. unfold stripped_location.
        rewrite Hother; [reflexivity|]. intros ->. contradiction.
    + intros f Hf. apply not_elem_of_cons in Hf as [Hne Hf].
      rewrite Hout by assumption. now apply Hother.
Qed.

(** X14: with a valid output directory and [doxygenStripFromPath] set,
    [fileRefDiscovery] on files that are listed once returns exactly when,
    of every file, the location read from the detail record and stripped
    of the occurrences of [doxygenStripFromPath] does not begin with the
    path separator, and every file is then located there; when the
    stripped location of some file begins with the separator, the call of
    the string raises [TypeError]. *)
Theorem fileRefDiscovery_strips_or_raises
    (inp : Input) (strip : string) (r : ExhaleRoot) :
  output_dir_valid inp = true ->
  doxygenStripFromPath inp = Some strip ->
  NoDup (files r) ->
  if strips_clean strip (scanned inp r) (files r) then
    exists r',
      fileRefDiscovery inp r = Ok r' /\
      forall f, f ∈ files r ->
        location (node r' f) = stripped_location strip (scanned inp r) f
  else fileRefDiscovery inp r = Raise TypeError.
Proof.
  intros Hvalid Hstrip Hnd.
  pose proof (file_refs_frame_files r _ (file_refs_frame_scanned inp r))
    as Hfiles.
  unfold fileRefDiscovery. rewrite Hvalid. simpl negb. cbv iota.
  unfold scanned in *.
  destruct (fold_left (scan_file inp) (files r) (r, [])) as [r1 ownerships].
  simpl fst in *. rewrite Hstrip.
  rewrite <- Hfiles in Hnd |- *.
  pose proof (strip_locations_loop strip (files r1) Hnd r1) as H.
  destruct (strips_clean strip r1 (files r1)); [|now rewrite H].
  destruct H as (r2 & -> & Hf2 & Hin & _). simpl.
  eexists. split; [reflexivity|]. intros f Hf.
  rewrite <- (Hin f Hf).
  unfold check_file_children, check_children_of.
  repeat (etransitivity;
          [apply same_locations_fold; intros; apply same_locations_fold;
           intros;
           first [apply same_locations_check_file_child
                 |apply same_locations_adopt_orphan
                 |apply same_locations_reparent_to_file]|]).
  reflexivity.
Qed.

Lemma fileRefDiscovery_strips_or_raises_witness :
  let r := before_file_refs scanned_file_input in
  (output_dir_valid scanned_file_input = true /\
   doxygenStripFromPath scanned_file_input = Some "/src/" /\
   NoDup (files r)) /\
  exists r',
    fileRefDiscovery scanned_file_input r = Ok r' /\
    forall f, f ∈ files r ->
      location (node r' f) =
      stripped_location "/src/" (scanned scanned_file_input r) f.
Proof.
  intros r.
  assert (H : output_dir_valid scanned_file_input = true /\
              doxygenStripFromPath scanned_file_input = Some "/src/" /\
              NoDup (files r)).
  { split; [reflexivity|]. split; [reflexivity|].
    vm_compute. repeat constructor. intros Hin. inversion Hin. }
  split; [exact H|]. destruct H as (H1 & H2 & H3).
  exact (fileRefDiscovery_strips_or_raises scanned_file_input "/src/" r
           H1 H2 H3).
Defined.

(** ** The detail records that discovery reads *)

(** What holds of every new object, and is kept by the assignments of the
    loop over the index, holds of every object after the loop. *)
Section IndexLoopNodes.
Variable P : ExhaleNode -> Prop.
Hypothesis P_init : forall nm kd rid, P (init_node nm kd rid).
Hypothesis P_parent : forall nd p, P nd -> P (set_parent p nd).
Hypothesis P_def_in_file : forall nd g, P nd -> P (set_def_in_file g nd).
Hypothesis P_children : forall nd cs, P nd -> P (set_children cs nd).

Lemma every_node_upd n g r :
  (forall nd, P nd -> P (g nd)) ->
  (forall m, P (node r m)) -> forall m, P (node (upd n g r) m).
Proof. intros Hg H m. rewrite node_upd. destruct (decide (m = n)); auto. Qed.

Lemma every_node_register nm kd rid r :
  (forall m, P (node r m)) ->
  forall m,
    P (node (trackNodeIfUnseen (next_id r) (snd (new_node nm kd rid r))) m).
Proof.
  intros H m. unfold node. rewrite trackNodeIfUnseen_heap. simpl.
  destruct (decide _); [apply P_init|apply H].
Qed.

Lemma every_node_discover_member curr k r m :
  (forall x, P (node r x)) -> forall x, P (node (discover_member curr k r m) x).
Proof.
  intros H. unfold discover_member.
  destruct (m_name m) as [nm|]; [|exact H].
  destruct (m_kind m) as [kd|]; [|exact H].
  destruct (m_refid m) as [rid|]; [|exact H].
  change (new_node nm kd rid r) with (next_id r, snd (new_node nm kd rid r)).
  cbv beta iota zeta. unfold append_child.
  apply every_node_upd; [intros; now apply P_children|].
  destruct (k =? "namespace"); apply every_node_upd;
    try (intros; first [now apply P_parent|now apply P_def_in_file]);
    now apply every_node_register.
Qed.

Lemma every_node_discover_compound r c :
  (forall x, P (node r x)) -> forall x, P (node (discover_compound r c) x).
Proof.
  intros H. unfold discover_compound.
  destruct (c_name c) as [nm|]; [|exact H].
  destruct (c_kind c) as [kd|]; [|exact H].
  destruct (c_refid c) as [rid|]; [|exact H].
  change (new_node nm kd rid r) with (next_id r, snd (new_node nm kd rid r)).
  cbv beta iota zeta.
  pose proof (every_node_register nm kd rid r H) as H2.
  destruct ((kd =? "namespace") || (kd =? "file")); [|exact H2].
  apply (fold_left_invariant (fun s => forall x, P (node s x))); [|exact H2].
  intros s m Hs. now apply every_node_discover_member.
Qed.

Lemma every_node_index_loop compounds r :
  (forall x, P (node r x)) ->
  forall x, P (node (fold_left discover_compound compounds r) x).
Proof.
  apply (fold_left_invariant (fun s => forall x, P (node s x))).
  intros s c Hs. now apply every_node_discover_compound.
Qed.
End IndexLoopNodes.

(** The loop over the index reads no detail record. *)
Lemma index_loop_no_soup compounds n :
  soup (node (fold_left discover_compound compounds init_root) n) = None.
Proof.
  revert n.
  apply (every_node_index_loop (fun nd => soup nd = None));
    try reflexivity; now intros.
Qed.

Lemma keeps_files_refl r : keeps_files r r.
Proof. now repeat split. Qed.

Lemma keeps_files_trans r s t :
  keeps_files r s -> keeps_files s t -> keeps_files r t.
Proof.
  intros (A1 & A2 & A3) (B1 & B2 & B3). repeat split; congruence.
Qed.

Lemma keeps_records_refl r : keeps_records r r.
Proof. split; [apply keeps_files_refl|now intros n]. Qed.

Lemma keeps_records_trans r s t :
  keeps_records r s -> keeps_records s t -> keeps_records r t.
Proof.
  intros [A1 A2] [B1 B2]. split; [now apply (keeps_files_trans r s t)|].
  intros n. destruct (A2 n), (B2 n). split; congruence.
Qed.

Lemma keeps_records_upd r s n g :
  (forall nd, refid (g nd) = refid nd) ->
  (forall nd, soup (g nd) = soup nd) ->
  (forall nd, def_in_file_location (g nd) = def_in_file_location nd) ->
  keeps_records r s -> keeps_records r (upd n g s).
Proof.
  intros G1 G2 G3 ((H1 & H2 & H3) & H4). repeat split; try assumption.
  - intros m. now rewrite (node_upd_field refid).
  - rewrite (node_upd_field soup) by assumption. apply H4.
  - rewrite (node_upd_field def_in_file_location) by assumption. apply H4.
Qed.

(** One step of a proof that a pass keeps the records. *)
Ltac records_step :=
  match goal with
  | H : keeps_records ?r ?s |- keeps_records ?r ?s => exact H
  | |- keeps_records _ (upd _ _ _) =>
      apply keeps_records_upd; [reflexivity..|]
  | |- keeps_records _ (append_child _ _ _) =>
      apply keeps_records_upd; [reflexivity..|]
  | |- keeps_records _ (attach _ _ _) =>
      apply keeps_records_upd; [reflexivity..|]
  | |- keeps_records _ (fold_left _ _ _) =>
      apply fold_left_invariant; [intros ? ? ?|]
  | |- keeps_records _ (if ?b then _ else _) => destruct b
  | |- keeps_records _ (match ?x with _ => _ end) => destruct x eqn:?
  | |- keeps_records ?r0 (?setter ?v ?r) => change (keeps_records r0 r)
  end.

Ltac records := repeat records_step.

Lemma keeps_records_held inp r s :
  keeps_records r s -> records_held inp r -> records_held inp s.
Proof.
  intros ((_ & _ & H1) & H2) H n doc. rewrite H1. destruct (H2 n) as [-> _].
  apply H.
Qed.

Lemma keeps_records_file_read inp r s f :
  keeps_records r s -> file_read inp r f -> file_read inp s f.
Proof.
  intros ((_ & _ & H1) & H2) (cdef & A & B & C). exists cdef.
  rewrite H1. destruct (H2 f) as [-> ->]. auto.
Qed.

(** The second [try] block of the loop over the files keeps the records,
    and sets the location of the file. *)
Lemma file_compounddef_records f cdef s :
  let s' := file_compounddef f cdef s in
  keeps_files s s' /\
  (forall n, soup (node s' n) = soup (node s n)) /\
  (forall n,
     def_in_file_location (node s' n) =
     if decide (n = f) then Some (cd_location_file cdef)
     else def_in_file_location (node s n)).
Proof.
  unfold file_compounddef. cbv zeta.
  match goal with
  | |- context [upd f _ ?s1] =>
      assert (H : keeps_records s s1); [|set (mid := s1) in *]
  end.
  { records.
    - unfold file_memberdef. records.
    - unfold file_innerclass. records.
    - apply keeps_records_refl. }
  destruct H as ((H1 & H2 & H3) & H4). repeat split; try assumption.
  - intros n. now rewrite (node_upd_field refid).
  - intros n. rewrite (node_upd_field soup) by reflexivity. apply H4.
  - intros n. rewrite node_upd. destruct (decide (n = f)); [reflexivity|].
    apply H4.
Qed.

Lemma record_of_file_keeps inp r s f :
  keeps_files r s -> record_of_file inp s f = record_of_file inp r f.
Proof. intros (_ & _ & H). unfold record_of_file. now rewrite H. Qed.

Lemma record_of_namespace_keeps inp r s n :
  keeps_files r s ->
  record_of_namespace inp s n = record_of_namespace inp r n.
Proof. intros (_ & _ & H). unfold record_of_namespace. now rewrite H. Qed.

Lemma records_held_same inp r s :
  (forall n, refid (node s n) = refid (node r n)) ->
  (forall n, soup (node s n) = soup (node r n)) ->
  records_held inp r -> records_held inp s.
Proof. intros H1 H2 H n doc. rewrite H1, H2. apply H. Qed.

(** The body of the loop over the files, on a detail record that
    parses. *)
Lemma read_file_record inp f doc s :
  node_xml inp (refid (node s f)) = Parsed doc ->
  let s1 := upd f (set_soup (Some doc)) s in
  let s2 := match doc with
            | Some cdef => file_compounddef f cdef s1
            | None => exclaimError (MsgFileException (name (node s1 f))) s1
            end in
  keeps_files s s2 /\
  (forall n, soup (node s2 n) =
             if decide (n = f) then Some doc else soup (node s n)) /\
  (forall n, def_in_file_location (node s2 n) =
             match doc with
             | Some cdef =>
                 if decide (n = f) then Some (cd_location_file cdef)
                 else def_in_file_location (node s n)
             | None => def_in_file_location (node s n)
             end).
Proof.
  intros E s1 s2.
  assert (K1 : keeps_files s s1).
  { repeat split. intros n. unfold s1. now rewrite (node_upd_field refid). }
  assert (S1 : forall n, soup (node s1 n) =
                         if decide (n = f) then Some doc else soup (node s n)).
  { intros n. unfold s1. rewrite node_upd. now destruct (decide (n = f)). }
  assert (L1 : forall n, def_in_file_location (node s1 n) =
                         def_in_file_location (node s n)).
  { intros n. unfold s1. now rewrite (node_upd_field def_in_file_location). }
  destruct doc as [cdef|].
  - destruct (file_compounddef_records f cdef s1) as (K & Hs & Hl).
    fold s2 in K, Hs, Hl. split; [now apply (keeps_files_trans s s1 s2)|].
    split.
    + intros n. now rewrite Hs.
    + intros n. rewrite Hl, L1. reflexivity.
  - split; [exact K1|]. split; [exact S1|exact L1].
Qed.

(** The loop over the files keeps the files and the namespaces, and a node
    holds the document that was read under its refid. *)
Lemma discover_file_xml_held inp fs s :
  records_held inp s ->
  keeps_files s (discover_file_xml inp fs s) /\
  records_held inp (discover_file_xml inp fs s).
Proof.
  revert s. induction fs as [|f fs IH]; intros s H; simpl;
    [split; [apply keeps_files_refl|exact H]|].
  destruct (node_xml inp (refid (node s f))) as [| |doc] eqn:E.
  - now apply IH.
  - split; [now repeat split|exact H].
  - destruct (read_file_record inp f doc s E) as (K & Hs & _).
    cbv zeta in K, Hs.
    match goal with
    | |- context [discover_file_xml inp fs ?s2] => set (mid := s2) in *
    end.
    destruct (IH mid) as [K' H'].
    { intros n d. destruct K as (_ & _ & ->). rewrite Hs.
      destruct (decide (n = f)) as [->|]; [|apply H].
      now intros [= <-]. }
    split; [now apply (keeps_files_trans s mid)|exact H'].
Qed.

(** When the detail record of every file can be read, every file holds
    its record after the loop. *)
Lemma discover_file_xml_reads inp fs s :
  (forall f, f ∈ fs -> record_of_file inp s f = true) ->
  (forall f, f ∈ fs -> file_read inp (discover_file_xml inp fs s) f) /\
  (forall f, file_read inp s f -> file_read inp (discover_file_xml inp fs s) f).
Proof.
  revert s. induction fs as [|f fs IH]; intros s H; simpl.
  - split; [|auto]. intros f Hf. now apply elem_of_nil in Hf.
  - pose proof (H f (proj2 (elem_of_cons _ _ _) (or_introl eq_refl))) as Hf.
    unfold record_of_file in Hf.
    destruct (node_xml inp (refid (node s f))) as [| |[cdef|]] eqn:E;
      try discriminate.
    destruct (read_file_record inp f (Some cdef) s E) as (K & Hs & Hl).
    cbv zeta in K, Hs, Hl.
    match goal with
    | |- context [discover_file_xml inp fs ?s2] => set (mid := s2) in *
    end.
    assert (Hmid : file_read inp mid f).
    { exists cdef. destruct K as (_ & _ & ->). rewrite Hs, Hl.
      destruct (decide (f = f)); [auto|contradiction]. }
    assert (Hkeep : forall g, file_read inp s g -> file_read inp mid g).
    { intros g (cg & A & B & C). destruct (decide (g = f)) as [->|Hne];
        [exact Hmid|].
      exists cg. destruct K as (_ & _ & ->). rewrite Hs, Hl.
      destruct (decide (g = f)); [contradiction|auto]. }
    destruct (IH mid) as [IH1 IH2].
    { intros g Hg. rewrite (record_of_file_keeps inp s mid g K).
      apply H, elem_of_cons. now right. }
    split.
    + intros g Hg. apply elem_of_cons in Hg as [->|Hg]; [|now apply IH1].
      now apply IH2.
    + intros g Hg. now apply IH2, Hkeep.
Qed.

(** A loop returns when its body returns on every state that the
    invariant holds of. *)
Lemma for_each_returns {S A} (P : S -> Prop) (body : S -> A -> result S) l s :
  (forall s x, x ∈ l -> P s -> exists s', body s x = Ok s' /\ P s') ->
  P s -> exists s', for_each body l s = Ok s' /\ P s'.
Proof.
  revert s. induction l as [|x l IH]; intros s Hbody Hs; simpl.
  - now exists s.
  - destruct (Hbody s x) as (s1 & -> & H1);
      [apply elem_of_cons; now left|assumption|]. simpl.
    apply IH; [|assumption].
    intros s2 y Hy. apply Hbody, elem_of_cons. now right.
Qed.

(** A loop that returns has run its body, with success, on every element,
    in a state that the invariant holds of. *)
Lemma for_each_ran {S A} (P : S -> Prop) (body : S -> A -> result S) l s s' :
  (forall s x s', P s -> body s x = Ok s' -> P s') ->
  P s -> for_each body l s = Ok s' ->
  forall x, x ∈ l -> exists s1 s2, P s1 /\ body s1 x = Ok s2.
Proof.
  intros Hbody. revert s. induction l as [|y l IH]; intros s Hs; simpl.
  - intros _ x Hx. now apply elem_of_nil in Hx.
  - destruct (body s y) as [s1|] eqn:E; simpl; [|discriminate].
    intros Hrun x Hx. apply elem_of_cons in Hx as [->|Hx].
    + now exists s, s1.
    + apply (IH s1); [eapply Hbody; eauto|assumption..].
Qed.

Lemma keeps_records_assign_file r filedef nd fs s s' :
  keeps_records r s ->
  assign_file_by_location filedef nd fs s = Ok s' -> keeps_records r s'.
Proof.
  revert s. induction fs as [|f fs IH]; intros s H; simpl.
  - now intros [= <-].
  - destruct (def_in_file_location (node s f)) as [loc|]; [|discriminate].
    destruct (decide (loc = Some filedef)); [|now apply IH].
    intros [= <-]. records.
Qed.

Lemma assign_file_returns filedef nd fs s :
  (forall f, f ∈ fs -> def_in_file_location (node s f) <> None) ->
  exists s', assign_file_by_location filedef nd fs s = Ok s'.
Proof.
  induction fs as [|f fs IH]; intros H; simpl; [now exists s|].
  destruct (def_in_file_location (node s f)) as [loc|] eqn:E.
  - destruct (decide (loc = Some filedef)); [now eexists|].
    apply IH. intros g Hg. apply H, elem_of_cons. now right.
  - exfalso. apply (H f); [apply elem_of_cons; now left|exact E].
Qed.

Lemma keeps_records_namespace_memberdef r s memberdef s' :
  keeps_records r s ->
  namespace_memberdef s memberdef = Ok s' -> keeps_records r s'.
Proof.
  intros H. unfold namespace_memberdef.
  destruct (md_id memberdef) as [rid|]; [|now intros [= <-]].
  destruct (dict_get rid (node_by_refid s)) as [nd|]; [|now intros [= <-]].
  destruct (md_location_file memberdef) as [filedef|]; [|now intros [= <-]].
  now apply keeps_records_assign_file.
Qed.

Lemma namespace_memberdef_returns s memberdef :
  (forall f, f ∈ files s -> def_in_file_location (node s f) <> None) ->
  exists s', namespace_memberdef s memberdef = Ok s'.
Proof.
  intros H. unfold namespace_memberdef.
  destruct (md_id memberdef) as [rid|]; [|now eexists].
  destruct (dict_get rid (node_by_refid s)) as [nd|]; [|now eexists].
  destruct (md_location_file memberdef) as [filedef|]; [|now eexists].
  now apply assign_file_returns.
Qed.

Lemma keeps_records_discover_namespace_xml r inp s nspace s' :
  keeps_records r s ->
  discover_namespace_xml inp s nspace = Ok s' -> keeps_records r s'.
Proof.
  intros H. unfold discover_namespace_xml.
  destruct (node_xml inp (refid (node s nspace))) as [| |[cdef|]];
    try (now intros [= <-]); try discriminate.
  apply (for_each_invariant (keeps_records r)).
  - intros s1 sectiondef s1' Hs1.
    apply (for_each_invariant (keeps_records r)); [|assumption].
    intros s2 md s2' Hs2. now apply keeps_records_namespace_memberdef.
  - unfold namespace_inner. records.
Qed.

(** Every file has the attribute [def_in_file_location]. *)
Lemma located_keeps r s :
  keeps_records r s ->
  (forall f, f ∈ files r -> def_in_file_location (node r f) <> None) ->
  forall f, f ∈ files s -> def_in_file_location (node s f) <> None.
Proof.
  intros ((Hf & _) & H) Hr f. rewrite Hf. destruct (H f) as [_ ->]. apply Hr.
Qed.

Lemma discover_namespace_xml_returns inp s nspace :
  (forall f, f ∈ files s -> def_in_file_location (node s f) <> None) ->
  record_of_namespace inp s nspace = true ->
  exists s', discover_namespace_xml inp s nspace = Ok s'.
Proof.
  intros Hloc. unfold record_of_namespace, discover_namespace_xml.
  destruct (node_xml inp (refid (node s nspace))) as [| |[cdef|]];
    try discriminate; try (now eexists). intros _.
  set (s0 := fold_left (namespace_inner nspace) (cd_innernamespace cdef) _).
  assert (K0 : keeps_records s s0).
  { unfold s0, namespace_inner. records; apply keeps_records_refl. }
  destruct (for_each_returns (keeps_records s)
              (fun r sectiondef => for_each namespace_memberdef sectiondef r)
              (cd_sectiondef cdef) s0) as (s' & Hrun & _);
    [|exact K0|now exists s'].
  intros s1 sectiondef _ K1.
  apply (for_each_returns (keeps_records s)); [|exact K1].
  intros s2 md _ K2.
  destruct (namespace_memberdef_returns s2 md) as [s3 E3];
    [now apply (located_keeps s)|].
  exists s3. split; [exact E3|].
  now apply (keeps_records_namespace_memberdef s s2 md).
Qed.

Lemma keeps_records_resolve r s :
  resolve_missing_file_defs r = Ok s -> keeps_records r s.
Proof.
  unfold resolve_missing_file_defs.
  destruct (for_each _ _ _) as [cands|]; simpl; [|discriminate].
  intros [= <-]. unfold resolve_candidate. records.
  apply keeps_records_refl.
Qed.

Lemma resolve_returns r :
  files_parsed r -> exists s, resolve_missing_file_defs r = Ok s.
Proof.
  intros H. unfold resolve_missing_file_defs.
  destruct (listing_loop_get r (missing_file_def r) (files r)
              (no_candidates (missing_file_def r)) H) as (cands & -> & _).
  simpl. now eexists.
Qed.

Lemma records_readable_spec inp r :
  records_readable inp r = true <->
  (forall f, f ∈ files r -> record_of_file inp r f = true) /\
  (forall n, n ∈ namespaces r -> record_of_namespace inp r n = true).
Proof.
  unfold records_readable. now rewrite andb_true_iff, !forallb_elem_of.
Qed.

Lemma keeps_records_files r s : keeps_records r s -> keeps_files r s.
Proof. now intros [H _]. Qed.

(** When the records can be read, discovery returns, and every file holds
    its record. *)
Lemma discovery_returns_when_readable inp compounds :
  index inp = Some compounds ->
  let r0 := fold_left discover_compound compounds init_root in
  records_readable inp r0 = true ->
  exists r,
    discoverAllNodes inp init_root = Ok r /\
    forall f, f ∈ files r -> file_read inp r f.
Proof.
  intros Hidx r0 [Hfiles Hns]%records_readable_spec.
  unfold discoverAllNodes, discover_relationships. rewrite Hidx. fold r0.
  cbv zeta.
  destruct (discover_file_xml_held inp (files r0) r0) as [K1 _].
  { intros n doc. unfold r0. now rewrite index_loop_no_soup. }
  destruct (discover_file_xml_reads inp (files r0) r0 Hfiles) as [Hread _].
  set (r1 := discover_file_xml inp (files r0) r0) in *.
  pose proof K1 as (F1 & N1 & _).
  assert (Hloc : forall f, f ∈ files r1 ->
                   def_in_file_location (node r1 f) <> None).
  { intros f Hf. rewrite F1 in Hf. destruct (Hread f Hf) as (c & _ & _ & ->).
    discriminate. }
  destruct (for_each_returns (keeps_records r1) (discover_namespace_xml inp)
              (namespaces r1) r1) as (r2 & -> & K2);
    [|apply keeps_records_refl|].
  { intros s n Hn Ks.
    destruct (discover_namespace_xml_returns inp s n) as [s' E].
    - now apply (located_keeps r1).
    - rewrite (record_of_namespace_keeps inp r0 s n).
      + apply Hns. now rewrite <- N1.
      + apply (keeps_files_trans r0 r1 s K1), keeps_records_files, Ks.
    - exists s'. split; [exact E|].
      now apply (keeps_records_discover_namespace_xml r1 inp s n). }
  simpl.
  assert (Hread2 : forall f, f ∈ files r2 -> file_read inp r2 f).
  { intros f Hf. apply (keeps_records_file_read inp r1 r2 f K2), Hread.
    destruct K2 as ((F2 & _) & _). now rewrite <- F1, <- F2. }
  destruct (resolve_returns r2) as [r3 E3].
  { intros f Hf. destruct (Hread2 f Hf) as (c & _ & Hs & _). now exists c. }
  exists r3. split; [exact E3|].
  pose proof (keeps_records_resolve r2 r3 E3) as K3.
  intros f Hf. apply (keeps_records_file_read inp r2 r3 f K3), Hread2.
  destruct K3 as ((F3 & _) & _). now rewrite <- F3.
Qed.

(** Discovery returns only when the records can be read. *)
Lemma readable_when_discovery_returns inp compounds r :
  index inp = Some compounds ->
  discoverAllNodes inp init_root = Ok r ->
  records_readable inp (fold_left discover_compound compounds init_root)
  = true.
Proof.
  intros Hidx. unfold discoverAllNodes, discover_relationships.
  rewrite Hidx. set (r0 := fold_left discover_compound compounds init_root).
  cbv zeta.
  destruct (discover_file_xml_held inp (files r0) r0) as [K1 H1].
  { intros n doc. unfold r0. now rewrite index_loop_no_soup. }
  set (r1 := discover_file_xml inp (files r0) r0) in *.
  destruct (for_each (discover_namespace_xml inp) (namespaces r1) r1)
    as [r2|] eqn:E2; simpl; [|discriminate].
  intros E3.
  assert (Hstep : forall s x s', keeps_records r1 s ->
                    discover_namespace_xml inp s x = Ok s' ->
                    keeps_records r1 s').
  { intros s x s'. apply keeps_records_discover_namespace_xml. }
  pose proof (for_each_invariant (keeps_records r1) _ _ _ _ Hstep
                (keeps_records_refl r1) E2) as K2.
  pose proof (keeps_records_held inp r1 r2 K2 H1) as H2.
  pose proof (keeps_files_trans r0 r1 r2 K1 (keeps_records_files _ _ K2))
    as (F2 & N2 & R2).
  apply records_readable_spec. split.
  - intros f Hf. rewrite <- F2 in Hf.
    destruct (files_parsed_when_resolved r2 r E3 f Hf) as [cdef Hs].
    unfold record_of_file. rewrite <- R2, (H2 f _ Hs). reflexivity.
  - intros n Hn. pose proof K1 as (_ & N1 & _). rewrite <- N1 in Hn.
    destruct (for_each_ran (keeps_records r1) _ _ _ _ Hstep
                (keeps_records_refl r1) E2 n Hn) as (s1 & s2 & Ks & Es).
    rewrite <- (record_of_namespace_keeps inp r0 s1 n).
    + unfold record_of_namespace. unfold discover_namespace_xml in Es.
      now destruct (node_xml inp (refid (node s1 n))) as [| |[cdef|]].
    + apply (keeps_files_trans r0 r1 s1); [exact K1|].
      now apply keeps_records_files.
Qed.

(** X15: [discoverAllNodes] on a new root returns exactly when the index
    can be read, the detail record of every file of the index parses and
    has its [compounddef], and the detail record of no namespace of the
    index parses without a [compounddef]; a detail record of a namespace
    that cannot be read or does not parse is passed over. *)
Theorem discoverAllNodes_returns_iff_records_readable (inp : Input) :
  is_ok (discoverAllNodes inp init_root) =
  match index inp with
  | Some compounds =>
      records_readable inp (fold_left discover_compound compounds init_root)
  | None => false
  end.
Proof.
  destruct (index inp) as [compounds|] eqn:Hidx.
  - destruct (records_readable inp _) eqn:E.
    + destruct (discovery_returns_when_readable inp compounds Hidx E)
        as (r & -> & _). reflexivity.
    + destruct (discoverAllNodes inp init_root) as [r|] eqn:Er;
        [|reflexivity].
      rewrite (readable_when_discovery_returns inp compounds r Hidx Er) in E.
      discriminate.
  - unfold discoverAllNodes, discover_relationships. now rewrite Hidx.
Qed.

(** X16: when [discoverAllNodes] on a new root returns, every file node
    holds the parsed detail record that the input has under its refid,
    and [def_in_file_location] is the file of the [<location>] of that
    record. *)
Theorem discovery_leaves_the_record_on_every_file
    (inp : Input) (r : ExhaleRoot) :
  discoverAllNodes inp init_root = Ok r ->
  forall f, f ∈ files r -> file_read inp r f.
Proof.
  intros E. destruct (index inp) as [compounds|] eqn:Hidx.
  - pose proof (readable_when_discovery_returns inp compounds r Hidx E) as Hr.
    destruct (discovery_returns_when_readable inp compounds Hidx Hr)
      as (r' & E' & H). rewrite E in E'. now injection E' as <-.
  - unfold discoverAllNodes, discover_relationships in E.
    now rewrite Hidx in E.
Qed.

Lemma discovery_leaves_the_record_on_every_file_witness :
  let r := get_or init_root (discoverAllNodes one_listing_input init_root) in
  discoverAllNodes one_listing_input init_root = Ok r /\
  forall f, f ∈ files r -> file_read one_listing_input r f.
Proof.
  intros r.
  assert (H : discoverAllNodes one_listing_input init_root = Ok r)
    by (apply is_ok_get_or; vm_compute; reflexivity).
  split; [exact H|].
  exact (discovery_leaves_the_record_on_every_file one_listing_input r H).
Defined.

(** ** The exceptions of [parse] *)

(** A loop raises what its body raises. *)
Lemma for_each_raises {S A} (body : S -> A -> result S) l s e :
  for_each body l s = Raise e -> exists s1 x, x ∈ l /\ body s1 x = Raise e.
Proof.
  revert s. induction l as [|y l IH]; intros s; simpl; [discriminate|].
  destruct (body s y) as [s1|e1] eqn:E; simpl.
  - intros H. destruct (IH s1 H) as (s2 & x & Hx & Hr).
    exists s2, x. split; [apply elem_of_cons; now right|exact Hr].
  - intros [= <-]. exists s, y. split; [apply elem_of_cons; now left|exact E].
Qed.

Lemma assign_file_raises filedef nd fs s e :
  assign_file_by_location filedef nd fs s = Raise e -> e = AttributeError.
Proof.
  induction fs as [|f fs IH]; simpl; [discriminate|].
  destruct (def_in_file_location (node s f)) as [loc|];
    [|now intros [= <-]].
  destruct (decide (loc = Some filedef)); [discriminate|exact IH].
Qed.

Lemma discover_namespace_xml_raises inp s nspace e :
  discover_namespace_xml inp s nspace = Raise e -> e = AttributeError.
Proof.
  unfold discover_namespace_xml.
  destruct (node_xml inp (refid (node s nspace))) as [| |[cdef|]];
    try discriminate; [|now intros [= <-]].
  intros (s1 & sectiondef & _ & H1)%for_each_raises.
  apply for_each_raises in H1 as (s2 & md & _ & H2).
  unfold namespace_memberdef in H2.
  destruct (md_id md) as [rid|]; [|discriminate].
  destruct (dict_get rid (node_by_refid s2)) as [nd|]; [|discriminate].
  destruct (md_location_file md) as [filedef|]; [|discriminate].
  now apply assign_file_raises in H2.
Qed.

Lemma resolve_raises r e :
  resolve_missing_file_defs r = Raise e -> e = AttributeError.
Proof.
  unfold resolve_missing_file_defs.
  destruct (for_each _ _ _) as [cands|e1] eqn:E; simpl; [discriminate|].
  intros [= <-]. apply for_each_raises in E as (c1 & f & _ & H).
  unfold listing_candidates in H.
  destruct (soup (node r f)) as [[cdef|]|]; try (now injection H as <-).
  destruct (cd_programlisting cdef); discriminate.
Qed.

(** Discovery raises [RuntimeError] when it cannot read the index, and
    nothing but [AttributeError] when it can. *)
Lemma discoverAllNodes_raises inp r e :
  discoverAllNodes inp r = Raise e ->
  e = match index inp with
      | Some _ => AttributeError
      | None => RuntimeError
      end.
Proof.
  unfold discoverAllNodes, discover_relationships.
  destruct (index inp) as [compounds|]; [|now intros [= <-]].
  destruct (for_each _ _ _) as [r2|e2] eqn:E; simpl.
  - apply resolve_raises.
  - intros [= <-]. apply for_each_raises in E as (s1 & n & _ & H).
    now apply discover_namespace_xml_raises in H.
Qed.

(** File reference discovery raises exactly when a stripped location
    begins with the path separator. *)
Lemma fileRefDiscovery_raised inp r :
  NoDup (files r) ->
  raised (fileRefDiscovery inp r) =
  if output_dir_valid inp then
    match doxygenStripFromPath inp with
    | Some strip =>
        if strips_clean strip (scanned inp r) (files r) then None
        else Some TypeError
    | None => None
    end
  else None.
Proof.
  intros Hnd.
  pose proof (file_refs_frame_files r _ (file_refs_frame_scanned inp r))
    as Hfiles.
  unfold fileRefDiscovery.
  destruct (output_dir_valid inp); [|reflexivity]. simpl negb. cbv iota.
  unfold scanned in *.
  destruct (fold_left (scan_file inp) (files r) (r, [])) as [r1 ownerships].
  simpl fst in *.
  destruct (doxygenStripFromPath inp) as [strip|]; [|reflexivity].
  rewrite <- Hfiles in Hnd |- *.
  pose proof (strip_locations_loop strip (files r1) Hnd r1) as H.
  destruct (strips_clean strip r1 (files r1)); [|now rewrite H].
  destruct H as (r2 & -> & _). reflexivity.
Qed.

(** The files are listed once when [fileRefDiscovery] is called. *)
Lemma files_once_before_file_refs inp r1 :
  discoverAllNodes inp init_root = Ok r1 ->
  NoDup (files (before_file_refs inp)).
Proof.
  intros E1. unfold before_file_refs, reparentAll. rewrite E1. simpl get_or.
  destruct (evolved_discoverAllNodes inp r1 E1)
    as (compounds & _ & (_ & Hpure & _) & _ & H1).
  pose proof (evolved_reparentUnions _ _ Hpure H1) as H2.
  pose proof (evolved_reparentClassLike _ _ Hpure H2) as H3.
  pose proof (evolved_reparentDirectories _ _ Hpure H3) as H4.
  pose proof (evolved_renameToNamespaceScopes _ _ H4) as H5.
  pose proof (evolved_reparentNamespaces _ _ H5) as H6.
  pose proof (evolved_dedup_children _ _ H6) as H7.
  pose proof (evolved_index_nodes _ _ H7) as (_ & _ & Hnd & _).
  apply Hnd.
Qed.

(** X17: what the passes of [parse] raise on a new root, up to file
    reference discovery.  Discovery raises [RuntimeError] when the index
    cannot be read, and [AttributeError] when the index can be read, and
    some detail record of a file does not parse with its [compounddef], or
    that of a namespace parses without one; file reference discovery
    raises [TypeError] when discovery returns, the output directory is
    valid, [doxygenStripFromPath] is set and the stripped location of some
    file begins with the path separator; in every other case these passes
    return.  The passes that follow, [filePostProcess] and
    [sortInternals], are not covered: the recursion of [typeSort] has no
    bound in the source. *)
Theorem parse_raises_before_sorting_by_the_input (inp : Input) :
  raised (r ← discoverAllNodes inp init_root;
          fileRefDiscovery inp (index_nodes (reparentAll r))) =
  match index inp with
  | None => Some RuntimeError
  | Some compounds =>
      if records_readable inp
           (fold_left discover_compound compounds init_root)
      then
        if output_dir_valid inp then
          match doxygenStripFromPath inp with
          | Some strip =>
              if strips_clean strip
                   (scanned inp (before_file_refs inp))
                   (files (before_file_refs inp))
              then None else Some TypeError
          | None => None
          end
        else None
      else Some AttributeError
  end.
Proof.
  destruct (discoverAllNodes inp init_root) as [r1|e] eqn:E1; simpl.
  - pose proof (files_once_before_file_refs inp r1 E1) as Hnd.
    pose proof (fileRefDiscovery_raised inp _ Hnd) as Hr.
    destruct (index inp) as [compounds|] eqn:Hidx.
    + rewrite (readable_when_discovery_returns inp compounds r1 Hidx E1).
      rewrite <- Hr. unfold before_file_refs. rewrite E1. reflexivity.
    + exfalso. revert E1.
      unfold discoverAllNodes, discover_relationships. rewrite Hidx.
      discriminate.
  - pose proof (discoverAllNodes_raises inp init_root e E1) as ->.
    destruct (index inp) as [compounds|] eqn:Hidx; [|reflexivity].
    destruct (records_readable inp _) eqn:Hr; [|reflexivity].
    destruct (discovery_returns_when_readable inp compounds Hidx Hr)
      as (r & Er & _). congruence.
Qed.

(** ** Placing the files in their directories *)

Lemma files_placed_refl r : files_placed r r.
Proof.
  split; [now destruct r|]. split; [intros n; apply set_fields_same|].
  split; [now left|]. intros d. exists []. split; [now rewrite app_nil_r|].
  intros f Hf. now apply elem_of_nil in Hf.
Qed.

(** What the placing keeps of a node. *)
Lemma files_placed_node r t n :
  files_placed r t ->
  name (node t n) = name (node r n) /\ kind (node t n) = kind (node r n) /\
  location (node t n) = location (node r n).
Proof.
  intros (_ & H & _). specialize (H n). rewrite <- H. now repeat split.
Qed.

Lemma files_placed_lists r t :
  files_placed r t -> files t = files r /\ dirs t = dirs r.
Proof. intros (H & _). rewrite H. now split. Qed.

Lemma files_placed_directory_of r t f d :
  files_placed r t -> directory_of t f d -> directory_of r f d.
Proof.
  intros H (Hf & Hd & Hp).
  destruct (files_placed_lists r t H) as [Ef Ed].
  destruct (files_placed_node r t d H) as (Hn & Hk & _).
  destruct (files_placed_node r t f H) as (_ & _ & Hl).
  split; [now rewrite <- Ef|]. split.
  - destruct Hd as [Hd|Hd]; [left; now rewrite <- Ed|right; congruence].
  - unfold dir_path_of in *. now rewrite <- Hl, <- Hn.
Qed.

(** One file placed in the directory [d]. *)
Lemma files_placed_attach r t d f :
  files_placed r t -> directory_of t f d -> files_placed r (attach d f t).
Proof.
  intros H Hdir. pose proof (files_placed_directory_of r t f d H Hdir) as Hd.
  destruct H as (Hroot & Hnode & Hpar & Hch).
  split; [|split; [|split]].
  - transitivity (with_heap (heap (attach d f t)) t); [reflexivity|].
    apply with_heap_same, Hroot.
  - intros n. rewrite attach_node, relink_relink. apply Hnode.
  - intros g. rewrite attach_node, parent_relink.
    destruct (decide (g = f)) as [->|Hne].
    + right. exists d. split; [reflexivity|]. split; [exact Hd|].
      rewrite attach_node, children_relink.
      destruct (decide (d = d)); [|contradiction].
      apply elem_of_app. right. now apply list_elem_of_singleton.
    + destruct (Hpar g) as [E|(d' & E & Hd' & Hin)]; [now left|].
      right. exists d'. split; [exact E|]. split; [exact Hd'|].
      rewrite attach_node, children_relink.
      destruct (decide (d' = d)); [|exact Hin].
      apply elem_of_app. now left.
  - intros x. rewrite attach_node, children_relink.
    destruct (Hch x) as (added & E & Hadded).
    destruct (decide (x = d)) as [->|Hne].
    + exists (added ++ [f]). split; [now rewrite E, app_assoc|].
      intros g Hg. apply elem_of_app in Hg as [Hg|Hg]; [now apply Hadded|].
      now apply list_elem_of_singleton in Hg as ->.
    + exists added. now split.
Qed.

(** The [while] loop leaves the root, or attaches the file to a directory
    named [dir_path]. *)
Lemma find_directory_places fuel dir_path f nodes_remaining r :
  (forall d, d ∈ nodes_remaining -> directory r d) ->
  find_directory fuel dir_path f nodes_remaining r = r \/
  exists d,
    directory r d /\ name (node r d) = dir_path /\
    find_directory fuel dir_path f nodes_remaining r = attach d f r.
Proof.
  revert nodes_remaining. induction fuel as [|fuel IH];
    intros nodes_remaining Hdirs; simpl; [now left|].
  destruct (List.rev nodes_remaining) as [|d rest] eqn:E; [now left|].
  assert (Hrev : forall x, x ∈ d :: rest -> directory r x).
  { intros x Hx. apply Hdirs. rewrite <- E in Hx.
    now apply list_elem_of_In, in_rev, list_elem_of_In in Hx. }
  destruct (Str.contains _ _).
  - destruct (name (node r d) =? dir_path) eqn:En.
    + right. exists d. split; [apply Hrev, elem_of_cons; now left|].
      split; [now apply String.eqb_eq|reflexivity].
    + apply IH. intros x Hx.
      apply list_elem_of_In, filter_In in Hx as [_ Hxk].
      right. now apply String.eqb_eq.
  - apply IH. intros x Hx. apply Hrev, elem_of_cons. right.
    now apply list_elem_of_In, in_rev, list_elem_of_In in Hx.
Qed.

Lemma post_process_file_placed fuel r t f :
  files_placed r t -> f ∈ files r ->
  files_placed r (post_process_file fuel t f).
Proof.
  intros H Hf. unfold post_process_file.
  destruct (length _ =? 0)%nat eqn:El; [exact H|].
  destruct (find_directory_places fuel
              (Str.join "/" (drop_last 1 (Str.split "/" (location (node t f)))))
              f (dirs t) t) as [->|(d & Hd & Hn & ->)];
    [intros d Hd; now left|exact H|].
  apply files_placed_attach; [exact H|].
  destruct (files_placed_lists r t H) as [Ef _].
  split; [now rewrite Ef|]. split; [exact Hd|].
  unfold dir_path_of. cbv zeta. now rewrite El, Hn.
Qed.

(** X18: [filePostProcess] keeps the lists of the root and every attribute
    of every node but the parent and the children.  The parent that it
    gives to a node is a directory, named exactly as the directory part of
    the location of the node, which is a file, and the file is then among
    the children of that directory; the children of a node are kept in
    their order, and only such files are appended to them. *)
Theorem filePostProcess_places_files_by_location
    (fuel : nat) (r : ExhaleRoot) :
  files_placed r (filePostProcess fuel r).
Proof.
  unfold filePostProcess.
  apply (fold_left_invariant_in (files_placed r));
    [|apply files_placed_refl].
  intros t f Hf Ht. now apply post_process_file_placed.
Qed.

(** ** Finding nested nodes *)

Section FindNested.
Variable wanted : string -> bool.
Variable r : ExhaleRoot.

(** The visit of the children [cs], one after the other. *)
Lemma find_nested_children (find : nat -> list nat -> option (list nat))
    (reach : nat -> nat -> Prop) cs lst l' :
  (forall c l0 l1,
     c ∈ cs -> find c l0 = Some l1 ->
     exists added, l1 = l0 ++ added /\ forall x, x ∈ added <-> reach c x) ->
  fold_left (fun acc c => match acc with
                          | Some lst => find c lst
                          | None => None
                          end) cs (Some lst) = Some l' ->
  exists added,
    l' = lst ++ added /\
    forall x, x ∈ added <-> exists c, c ∈ cs /\ reach c x.
Proof.
  revert lst. induction cs as [|c cs IH]; intros lst Hfind; simpl.
  - intros [= <-]. exists []. split; [now rewrite app_nil_r|].
    intros x. split; [intros H; now apply elem_of_nil in H|].
    intros (c & Hc & _). now apply elem_of_nil in Hc.
  - destruct (find c lst) as [l1|] eqn:E.
    + destruct (Hfind c lst l1) as (a1 & -> & H1);
        [apply elem_of_cons; now left|exact E|].
      intros Hrun. destruct (IH (lst ++ a1)) as (a2 & -> & H2);
        [|exact Hrun|].
      { intros c' l0 l2 Hc'. apply Hfind, elem_of_cons. now right. }
      exists (a1 ++ a2). split; [now rewrite app_assoc|].
      intros x. rewrite elem_of_app, H1, H2. split.
      * intros [H|(c' & Hc' & H)].
        -- exists c. split; [apply elem_of_cons; now left|exact H].
        -- exists c'. split; [apply elem_of_cons; now right|exact H].
      * intros (c' & Hc' & H). apply elem_of_cons in Hc' as [->|Hc'];
          [now left|right; now exists c'].
    + intros Hrun. exfalso. clear -Hrun.
      induction cs as [|c' cs IH]; simpl in Hrun; [discriminate|auto].
Qed.

(** A visit that returns has appended the wanted descendants. *)
Lemma find_nested_appends fuel n lst l' :
  find_nested wanted fuel r n lst = Some l' ->
  exists added,
    l' = lst ++ added /\
    forall x,
      x ∈ added <-> descendant r n x /\ wanted (kind (node r x)) = true.
Proof.
  revert n lst l'. induction fuel as [|fuel IH]; intros n lst l'; simpl;
    [discriminate|].
  intros Hrun.
  apply (find_nested_children (find_nested wanted fuel r)
           (fun c x => descendant r c x /\ wanted (kind (node r x)) = true))
    in Hrun as (added & -> & Hadded); [|intros c l0 l1 _; apply IH].
  assert (Hdesc : forall x,
            descendant r n x <->
            x = n \/ exists c, c ∈ children (node r n) /\ descendant r c x).
  { intros x. split.
    - intros H. destruct H as [|c x Hc Hx]; [now left|right; now exists c].
    - intros [->|(c & Hc & Hx)]; [constructor|].
      now apply (descendant_child r n c x). }
  destruct (wanted (kind (node r n))) eqn:Ew.
  - exists (n :: added). split; [now rewrite <- app_assoc|].
    intros x. rewrite elem_of_cons, Hadded, Hdesc. split.
    + intros [->|(c & Hc & Hx & Hw)]; [split; [now left|exact Ew]|].
      split; [right; now exists c|exact Hw].
    + intros [[->|(c & Hc & Hx)] Hw]; [now left|right; now exists c].
  - exists added. split; [reflexivity|].
    intros x. rewrite Hadded, Hdesc. split.
    + intros (c & Hc & Hx & Hw). split; [right; now exists c|exact Hw].
    + intros [[->|(c & Hc & Hx)] Hw]; [congruence|now exists c].
Qed.

(** A visit returns when the bound exceeds the height of the node. *)
Lemma find_nested_returns (rank : nat -> nat) fuel n lst :
  (forall p c, c ∈ children (node r p) -> rank c < rank p) ->
  rank n < fuel ->
  exists l', find_nested wanted fuel r n lst = Some l'.
Proof.
  intros Hrank. revert n lst. induction fuel as [|fuel IH]; intros n lst Hn;
    [lia|]. simpl.
  set (l0 := if wanted _ then _ else _). clearbody l0.
  assert (H : forall cs l0,
            (forall c, c ∈ cs -> rank c < fuel) ->
            exists l',
              fold_left (fun acc c => match acc with
                                      | Some lst => find_nested wanted fuel r c lst
                                      | None => None
                                      end) cs (Some l0) = Some l').
  { clear l0. induction cs as [|c cs IHcs]; intros l0 Hcs; simpl;
      [now eexists|].
    destruct (IH c l0) as [l1 ->]; [apply Hcs, elem_of_cons; now left|].
    apply IHcs. intros c' Hc'. apply Hcs, elem_of_cons. now right. }
  apply H. intros c Hc. specialize (Hrank n c Hc). lia.
Qed.
End FindNested.

(** X19: on a root whose children descend along [rank], each of the five
    methods [findNestedNamespaces], [findNestedDirectories],
    [findNestedClassLike], [findNestedEnums] and [findNestedUnions]
    returns when the recursion may go deeper than the rank of the node: it
    keeps the list and appends to it exactly the node and its descendants
    that are of the kind wanted. *)
Theorem find_nested_appends_the_wanted_descendants
    (wanted : string -> bool) (r : ExhaleRoot) (rank : nat -> nat)
    (fuel n : nat) (lst : list nat) :
  (forall p c, c ∈ children (node r p) -> rank c < rank p) ->
  rank n < fuel ->
  exists added,
    find_nested wanted fuel r n lst = Some (lst ++ added) /\
    forall x,
      x ∈ added <-> descendant r n x /\ wanted (kind (node r x)) = true.
Proof.
  intros Hrank Hn.
  destruct (find_nested_returns wanted r rank fuel n lst Hrank Hn) as [l' E].
  destruct (find_nested_appends wanted r fuel n lst l' E) as (added & -> & H).
  now exists added.
Qed.

Lemma find_nested_appends_the_wanted_descendants_witness :
  let r := get_or init_root (parse library_input 8) in
  let rank := fun n : nat => match n with 0 | 2 | 5 => 1 | _ => 0 end in
  ((forall p c, c ∈ children (node r p) -> rank c < rank p) /\ rank 2 < 2) /\
  exists added,
    findNestedClassLike 2 r 2 [] = Some ([] ++ added) /\
    forall x,
      x ∈ added <->
      descendant r 2 x /\
      (kind (node r x) =? "class") || (kind (node r x) =? "struct") = true.
Proof.
  intros r rank.
  assert (H : (forall p c, c ∈ children (node r p) -> rank c < rank p) /\
              rank 2 < 2).
  { split; [|unfold rank; lia].
    intros p c.
    do 7 (destruct p as [|p];
          [vm_compute; intros H;
           repeat (apply elem_of_cons in H as [->|H]; [lia|]);
           now apply elem_of_nil in H|]).
    vm_compute. intros H. now apply elem_of_nil in H. }
  split; [exact H|]. destruct H as [H1 H2].
  exact (find_nested_appends_the_wanted_descendants
           (fun k => (k =? "class") || (k =? "struct")) r rank 2 2 [] H1 H2).
Defined.

(** Below a class, a struct or a union there are classes, structs and
    unions only. *)
Lemma descendant_of_class s n x :
  children_kinded s -> descendant s n x ->
  is_class_like (kind (node s n)) || (kind (node s n) =? "union") = true ->
  is_class_like (kind (node s x)) || (kind (node s x) =? "union") = true.
Proof.
  intros Hck H. induction H as [|n c x Hc Hx IH]; [auto|].
  intros Hn. apply IH. destruct (Hck n c Hc) as [_ Hok].
  unfold child_ok, is_class_like in *.
  destruct (kind (node s n) =? "namespace") eqn:E1.
  { apply String.eqb_eq in E1. rewrite E1 in Hn. discriminate. }
  destruct (kind (node s n) =? "file") eqn:E2.
  { apply String.eqb_eq in E2. rewrite E2 in Hn. discriminate. }
  simpl in Hok.
  destruct ((kind (node s n) =? "struct") || (kind (node s n) =? "class"))
    eqn:E3.
  - apply orb_true_iff in Hok as [Hok|Hok];
      [apply orb_true_iff in Hok as [Hok|Hok]|]; rewrite Hok;
      now rewrite ?orb_true_r.
  - simpl in Hn. apply String.eqb_eq in Hn. rewrite Hn in Hok.
    discriminate.
Qed.

(** The loop over the classes finds nothing of a kind that is not below a
    class. *)
Lemma nested_in_classes_nothing wanted fuel s :
  kind_lists_pure s -> children_kinded s ->
  (forall k, is_class_like k || (k =? "union") = true -> wanted k = false) ->
  forall l, nested_in_classes (find_nested wanted) fuel s = Some l -> l = [].
Proof.
  intros (Hcl & _) Hck Hw l. unfold nested_in_classes.
  intros (added & -> & Hadded)%(find_nested_children
    (find_nested wanted fuel s)
    (fun c x => descendant s c x /\ wanted (kind (node s x)) = true)).
  - destruct added as [|x added]; [reflexivity|exfalso].
    destruct (proj1 (Hadded x)) as (c & Hc & Hx & Hwx);
      [apply elem_of_cons; now left|].
    rewrite Hw in Hwx; [discriminate|].
    apply (descendant_of_class s c x Hck Hx).
    destruct (Hcl c Hc) as [_ Hk]. unfold is_class_like.
    apply elem_of_cons in Hk as [->|Hk]; [reflexivity|].
    now apply list_elem_of_singleton in Hk as ->.
  - intros c l0 l1 _. apply find_nested_appends.
Qed.

(** X20: the loop of [generateNodeDocuments] that calls [findNestedEnums]
    on every class and struct finds no enum, on the root that any pass of
    [parse] leaves: below a class or a struct there are classes, structs
    and unions only, so that [nested_enums] is empty whenever the
    recursion stays within its bound. *)
Theorem no_enum_is_found_below_a_class
    (inp : Input) (fuel bound : nat) :
  Forall (fun s =>
            nested_in_classes findNestedEnums bound s = None \/
            nested_in_classes findNestedEnums bound s = Some [])
    (parse_stages inp fuel).
Proof.
  destruct (evolved_from_the_index inp fuel)
    as [->|(compounds & _ & (_ & Hpure & _) & _ & H)]; [constructor|].
  eapply Forall_impl; [exact H|]. intros s Hs.
  destruct (nested_in_classes findNestedEnums bound s) as [l|] eqn:E;
    [right|now left].
  f_equal. revert E. apply nested_in_classes_nothing.
  - now apply (evolved_pure _ s Hpure).
  - now destruct Hs as (_ & _ & _ & _ & Hck).
  - intros k Hk. unfold is_class_like in Hk.
    apply orb_true_iff in Hk as [Hk|Hk];
      [apply orb_true_iff in Hk as [Hk|Hk]|];
      apply String.eqb_eq in Hk; now rewrite Hk.
Qed.

(** ** The bound of the recursion of [typeSort] *)







